(** * AI System Utility: action registry, request routing and privacy backup

    A shallow embedding of the Python sources

      - [ai_system_utility/core/actions.py]        (the action catalog),
      - [ai_system_utility/core/ai_interpreter.py] (the request router),
      - [ai_system_utility/core/privacy_tools.py]  (the privacy profiles),
      - [ai_system_utility/main.py], [ai_system_utility/gui.py] (surfaces),
      - [ai_system_utility/core/self_updater.py]   (the update check),

    followed by the properties of the specification, each stated over these
    definitions. *)

From Stdlib Require Import Bool List Arith ZArith Lia Ascii String.
From Stdlib Require Import Permutation DecimalString.
From Stdlib Require Import Sorted DecimalPos DecimalN.
Import ListNotations.

Set Implicit Arguments.
Local Open Scope bool_scope.
Local Open Scope string_scope.

(* ===================================================================== *)
(** * Python primitives *)
(* ===================================================================== *)

(** Text is modelled as a [string] of code points below 256.  On such text
    [str.lower], [str.strip] and the [in] operator behave as defined here. *)

Module Py.

(** [k in s] on two [str] values: [k] occurs in [s] as a contiguous run. *)
Fixpoint contains (k s : string) : bool :=
  String.prefix k s ||
  match s with
  | EmptyString => false
  | String _ s' => contains k s'
  end.

(** [any(k in s for k in ks)]. *)
Definition any_in (ks : list string) (s : string) : bool :=
  existsb (fun k => contains k s) ks.

Definition between (lo hi n : nat) : bool :=
  (lo <=? n)%nat && (n <=? hi)%nat.

(** [str.lower] on one code point below 256: the upper-case letters are
    A-Z and the Latin-1 capitals 192-222 except the multiplication sign. *)
Definition lower_char (c : ascii) : ascii :=
  let n := nat_of_ascii c in
  if between 65 90 n || between 192 214 n || between 216 222 n
  then ascii_of_nat (n + 32)
  else c.

Fixpoint lower (s : string) : string :=
  match s with
  | EmptyString => EmptyString
  | String c s' => String (lower_char c) (lower s')
  end.

(** [str.isspace] on one code point below 256. *)
Definition is_space (c : ascii) : bool :=
  let n := nat_of_ascii c in
  between 9 13 n || between 28 32 n || (n =? 133)%nat || (n =? 160)%nat.

Fixpoint lstrip (s : string) : string :=
  match s with
  | EmptyString => EmptyString
  | String c s' => if is_space c then lstrip s' else s
  end.

Fixpoint rstrip (s : string) : string :=
  match s with
  | EmptyString => EmptyString
  | String c s' =>
      match rstrip s' with
      | EmptyString => if is_space c then EmptyString else String c EmptyString
      | r => String c r
      end
  end.

(** [str.strip()] with no argument. *)
Definition strip (s : string) : string := rstrip (lstrip s).

(** [k] is not empty and its last character is not white space. *)
Fixpoint ends_solid (k : string) : bool :=
  match k with
  | EmptyString => false
  | String c EmptyString => negb (is_space c)
  | String _ k' => ends_solid k'
  end.

(** Truth value of a [str]: the empty string is falsy. *)
Definition truthy (s : string) : bool :=
  match s with EmptyString => false | _ => true end.

(** Truth value of an [Optional[str]]: [None] and [""] are falsy. *)
Definition truthy_opt (o : option string) : bool :=
  match o with None => false | Some s => truthy s end.

(** [l.append(x)]. *)
Definition py_append (A : Type) (l : list A) (x : A) : list A := (l ++ [x])%list.

Definition nl : string := String (ascii_of_nat 10) EmptyString.

(** ["\n".join(ls)]. *)
Definition join_lines (ls : list string) : string := String.concat nl ls.

Definition starts_with_underscore (s : string) : bool := String.prefix "_" s.

(** ** Dictionaries

    A Python [dict] keeps its keys in insertion order, and assigning to a
    key that is present keeps that key's position.  The model is an
    association list with unique keys. *)

Class PyKey (K : Type) := {
  key_eqb : K -> K -> bool
}.

#[export] Instance string_key : PyKey string :=
  {| key_eqb := String.eqb |}.

(** Keys compare equal exactly when they are equal. *)
Class PyKeyLaws (K : Type) `{PyKey K} :=
  key_eqb_spec : forall a b : K, reflect (a = b) (key_eqb a b).

Arguments PyKeyLaws K {_}.

Section Dict.

Context {K V : Type} `{PyKey K}.

Definition dict := list (K * V).

(** [d.get(k)]. *)
Fixpoint dict_get (k : K) (d : dict) : option V :=
  match d with
  | [] => None
  | (k', v) :: d' => if key_eqb k' k then Some v else dict_get k d'
  end.

(** [k in d]. *)
Definition dict_mem (k : K) (d : dict) : bool :=
  match dict_get k d with Some _ => true | None => false end.

(** [d[k] = v]. *)
Fixpoint dict_set (k : K) (v : V) (d : dict) : dict :=
  match d with
  | [] => [(k, v)]
  | (k', v') :: d' =>
      if key_eqb k' k then (k', v) :: d' else (k', v') :: dict_set k v d'
  end.

Definition dict_keys (d : dict) : list K := map fst d.
Definition dict_values (d : dict) : list V := map snd d.

End Dict.

Arguments dict : clear implicits.

End Py.

Import Py.

(* ===================================================================== *)
(** * The logging collaborator (core/logger.py) *)
(* ===================================================================== *)

Inductive level := DEBUG | INFO | WARNING | ERROR.

(** What the program hands to the logging collaborator: either a call on a
    [logging.Logger] (format string and arguments), or a line passed to
    [log_event]; [EventWithList text ids] is [log_event(text + repr(ids))],
    the rendering of the list being Python's. *)
Inductive log_record :=
| Logged (lvl : level) (fmt : string) (args : list string)
| Event (msg : string)
| EventWithList (text : string) (ids : list string).

(** [log_action(action_name, status, info="")]. *)
Definition log_action_line (action_name status info : string) : log_record :=
  let msg := "ACTION " ++ status ++ ": " ++ action_name in
  Event (if truthy info then msg ++ " | " ++ info else msg).

(* ===================================================================== *)
(** * The action catalog (core/actions.py) *)
(* ===================================================================== *)

Section Catalog.

(** The machine the handlers act on. *)
Context {W : Type}.

(** A handler either returns an [Optional[str]] or raises an exception,
    of which the program only uses [str(e)]. *)
Inductive outcome :=
| Returned (r : option string)
| Raised (e : string).

Definition handler := W -> outcome * W.

Record Action := {
  id : string;
  name : string;
  description : string;
  group : string;
  dangerous : bool;
  func : handler
}.

(** The [fn] property, an alias of [func]. *)
Definition fn (a : Action) : handler := func a.

(** The module's global state: the registry [_ACTIONS], what was handed to
    the logger, and the machine. *)
Record state := {
  _ACTIONS : dict string Action;
  log : list log_record;
  world : W
}.

Definition emit (r : log_record) (st : state) : state :=
  {| _ACTIONS := _ACTIONS st; log := log st ++ [r]; world := world st |}.

Definition set_actions (d : dict string Action) (st : state) : state :=
  {| _ACTIONS := d; log := log st; world := world st |}.

Definition set_world (w : W) (st : state) : state :=
  {| _ACTIONS := _ACTIONS st; log := log st; world := w |}.

Definition register_action
    (action_id name description group : string) (func : handler)
    (dangerous : bool) (st : state) : Action * state :=
  let st1 :=
    if dict_mem action_id (_ACTIONS st)
    then emit (Logged WARNING "Overwriting existing action with id '%s'"
                 [action_id]) st
    else st in
  let action :=
    {| id := action_id; name := name; description := description;
       group := group; dangerous := dangerous; func := func |} in
  let st2 := set_actions (dict_set action_id action (_ACTIONS st1)) st1 in
  let st3 := emit (Logged DEBUG "Registered action '%s' (%s)"
                     [action_id; name]) st2 in
  (action, st3).

Definition get_action_by_id (action_id : string) (st : state) : option Action :=
  dict_get action_id (_ACTIONS st).

(** [sorted(xs, key=...)]: a stable sort; [le a b] compares the keys. *)
Fixpoint insert_by (A : Type) (le : A -> A -> bool) (a : A) (l : list A) : list A :=
  match l with
  | [] => [a]
  | b :: l' => if le a b then a :: l else b :: insert_by le a l'
  end.

Definition py_sorted (A : Type) (le : A -> A -> bool) (l : list A) : list A :=
  fold_right (insert_by le) [] l.

(** Order of the keys [a.name.lower()]. *)
Definition name_le (a b : Action) : bool :=
  String.leb (lower (name a)) (lower (name b)).

(** Order of the keys [(a.group, a.name.lower())]. *)
Definition group_name_le (a b : Action) : bool :=
  match String.compare (group a) (group b) with
  | Lt => true
  | Gt => false
  | Eq => name_le a b
  end.

Definition get_actions_by_group (g : string) (st : state) : list Action :=
  py_sorted name_le
    (filter (fun a => String.eqb (group a) g) (dict_values (_ACTIONS st))).

Definition list_actions (st : state) : list Action :=
  py_sorted group_name_le (dict_values (_ACTIONS st)).

(** The representation invariant of the registry: keys are unique, and
    every entry is stored under its own [id]. *)
Definition catalog_ok (d : dict string Action) : Prop :=
  NoDup (dict_keys d) /\ Forall (fun kv => id (snd kv) = fst kv) d.

(** The registry holds, under the key [k], an action whose [id] is [k]. *)
Definition has_entry (k : string) (d : dict string Action) : Prop :=
  exists a, dict_get k d = Some a /\ id a = k.

(** [st'] keeps every registered id, every entry-with-matching-id and every
    record handed to the logger in [st]. *)
Definition extends (st st' : state) : Prop :=
  (forall k, dict_mem k (_ACTIONS st) = true -> dict_mem k (_ACTIONS st') = true) /\
  (forall k, has_entry k (_ACTIONS st) -> has_entry k (_ACTIONS st')) /\
  (forall r, In r (log st) -> In r (log st')).

(** The number of entries of a listing that carry a given id. *)
Definition count_id (aid : string) (l : list Action) : nat :=
  List.length (filter (fun a => String.eqb (id a) aid) l).

(** The reference run of a sequence of named steps: every step is called,
    in the given order, on the machine its predecessor left, whatever the
    outcomes of the earlier steps; the outcomes are returned in order. *)
Fixpoint outcomes_in_order (steps : list (string * handler)) (w : W)
  : list (string * outcome) * W :=
  match steps with
  | [] => ([], w)
  | (n, f) :: rest =>
      let '(o, w1) := f w in
      let '(os, w2) := outcomes_in_order rest w1 in
      ((n, o) :: os, w2)
  end.

(** The steps of a plan: each action's handler, under the action's name. *)
Definition plan_steps (actions : list Action) : list (string * handler) :=
  map (fun a => (name a, func a)) actions.

(** The text an aggregate keeps for one outcome. *)
Definition kept_by_aggregate (new : list string) (n : string) (o : outcome) : Prop :=
  match o with
  | Raised e => In (n ++ " failed: " ++ e) new
  | Returned (Some r) => truthy r = true -> In r new
  | Returned None => True
  end.

(** The text [interpret_command] keeps for one outcome. *)
Definition kept_by_plan (results : list string) (n : string) (o : outcome) : Prop :=
  match o with
  | Raised e => In (n ++ ": ERROR - " ++ e) results
  | Returned (Some r) =>
      if truthy r then In (n ++ ": " ++ r) results
      else In (n ++ ": completed.") results
  | Returned None => In (n ++ ": completed.") results
  end.

(** An aggregate's summary reports one outcome: the failure text of a
    failed step, the text returned by a successful one. *)
Definition aggregate_reports (summary n : string) (o : outcome) : Prop :=
  match o with
  | Raised e => contains (n ++ " failed: " ++ e) summary = true
  | Returned (Some r) => truthy r = true -> contains r summary = true
  | Returned None => True
  end.

(** The summary of [interpret_command] reports one outcome. *)
Definition plan_reports (summary n : string) (o : outcome) : Prop :=
  match o with
  | Raised e => contains (n ++ ": ERROR - " ++ e) summary = true
  | Returned (Some r) =>
      if truthy r then contains (n ++ ": " ++ r) summary = true
      else contains (n ++ ": completed.") summary = true
  | Returned None => contains (n ++ ": completed.") summary = true
  end.

End Catalog.

Arguments outcome : clear implicits.
Arguments handler : clear implicits.
Arguments Action : clear implicits.
Arguments state : clear implicits.

(** ** Built-in actions *)

Section Builtins.

Context {W : Type}.

(** An imported module, seen through [hasattr]/[getattr]: the functions it
    defines, by name. *)
Definition tools_module := string -> option (handler W).

(** What [from . import system_tools] and [from . import privacy_tools]
    yield: the module, or the exception's text. *)
Variable import_system_tools : string + tools_module.
Variable import_privacy_tools : string + tools_module.

(** The local names [system_tools] and [privacy_tools] after the guarded
    imports: [None] when the import failed. *)
Definition guarded (i : string + tools_module) : option tools_module :=
  match i with
  | inl _ => None
  | inr m => Some m
  end.

Definition system_tools : option tools_module := guarded import_system_tools.
Definition privacy_tools : option tools_module := guarded import_privacy_tools.

Definition warn_unavailable (fmt : string) (i : string + tools_module)
    (st : state W) : state W :=
  match i with
  | inl e => emit (Logged WARNING fmt [e]) st
  | inr _ => st
  end.

(** [not m or not hasattr(m, attr)] is false exactly when this is [Some]. *)
Definition tool (m : option tools_module) (attr : string) : option (handler W) :=
  match m with
  | None => None
  | Some md => md attr
  end.

(** The body shared by the single-tool closures:
    raise [RuntimeError(unavailable)] when the tool is missing, else
    return what the tool returns. *)
Definition call_tool (m : option tools_module) (attr unavailable : string)
  : handler W :=
  fun w =>
    match tool m attr with
    | None => (Raised unavailable, w)
    | Some f => f w
    end.

Definition _cleanup_temp : handler W :=
  call_tool system_tools "cleanup_temp_files"
    "Temp cleanup tool is not available.".

Definition _cleanup_prefetch : handler W :=
  call_tool system_tools "cleanup_prefetch"
    "Prefetch cleanup tool is not available.".

Definition _cleanup_windows_update_cache : handler W :=
  call_tool system_tools "cleanup_windows_update_cache"
    "Windows Update cache cleanup is not available.".

(** The loop shared by [_cleanup_recommended] and [_health_full]:
    [messages] is the accumulator of the source. *)
Fixpoint run_tool_loop (func_names : list string) (messages : list string)
    (w : W) : list string * W :=
  match func_names with
  | [] => (messages, w)
  | func_name :: rest =>
      match tool system_tools func_name with
      | None => run_tool_loop rest messages w
      | Some f =>
          match f w with
          | (Returned result, w') =>
              if truthy_opt result
              then run_tool_loop rest
                     (py_append messages
                        match result with Some s => s | None => "" end) w'
              else run_tool_loop rest messages w'
          | (Raised e, w') =>
              run_tool_loop rest
                (py_append messages (func_name ++ " failed: " ++ e)) w'
          end
      end
  end.

(** The steps of an aggregate: the tool functions that exist, by name. *)
Fixpoint available_steps (func_names : list string)
  : list (string * handler W) :=
  match func_names with
  | [] => []
  | func_name :: rest =>
      match tool system_tools func_name with
      | None => available_steps rest
      | Some f => (func_name, f) :: available_steps rest
      end
  end.

Definition aggregate (func_names : list string) (completed : string) : handler W :=
  fun w =>
    let '(messages, w') := run_tool_loop func_names [] w in
    match messages with
    | [] => (Returned (Some completed), w')
    | _ => (Returned (Some (join_lines messages)), w')
    end.

Definition _cleanup_recommended : handler W :=
  aggregate ["cleanup_temp_files"; "cleanup_prefetch";
             "cleanup_windows_update_cache"] "Cleanup completed.".

Definition _run_sfc : handler W :=
  call_tool system_tools "run_sfc_scan" "SFC scan tool is not available.".

Definition _run_dism : handler W :=
  call_tool system_tools "run_dism_health_scan"
    "DISM health scan tool is not available.".

Definition _run_chkdsk : handler W :=
  call_tool system_tools "schedule_chkdsk"
    "CHKDSK scheduling tool is not available.".

Definition _health_full : handler W :=
  aggregate ["run_sfc_scan"; "run_dism_health_scan"] "Health checks completed.".

Definition _network_reset : handler W :=
  call_tool system_tools "reset_network_stack"
    "Network reset tool is not available.".

Definition _open_task_manager : handler W :=
  call_tool system_tools "open_task_manager"
    "Task Manager tool is not available.".

Definition _open_device_manager : handler W :=
  call_tool system_tools "open_device_manager"
    "Device Manager tool is not available.".

Definition _open_services : handler W :=
  call_tool system_tools "open_services_console"
    "Services console tool is not available.".

Definition _open_system_restore : handler W :=
  call_tool system_tools "open_system_restore"
    "System Restore tool is not available.".

Definition _privacy_recommended : handler W :=
  call_tool privacy_tools "apply_recommended_privacy_profile"
    "Recommended privacy profile is not available.".

Definition _privacy_strict : handler W :=
  call_tool privacy_tools "apply_strict_privacy_profile"
    "Strict privacy profile is not available.".

Definition _privacy_restore_defaults : handler W :=
  call_tool privacy_tools "restore_privacy_defaults"
    "Privacy defaults restore is not available.".

(** The arguments of one [register_action] call. *)
Record registration := {
  reg_id : string;
  reg_name : string;
  reg_description : string;
  reg_group : string;
  reg_func : handler W;
  reg_dangerous : bool
}.

(** The action a registration stores. *)
Definition action_of (r : registration) : Action W :=
  {| id := reg_id r; name := reg_name r; description := reg_description r;
     group := reg_group r; dangerous := reg_dangerous r; func := reg_func r |}.

Definition do_register (r : registration) (st : state W) : state W :=
  snd (register_action (reg_id r) (reg_name r) (reg_description r)
         (reg_group r) (reg_func r) (reg_dangerous r) st).

(** The sixteen [register_action] calls of [_register_builtin_actions], in
    the order of the source. *)
Definition builtin_registrations : list registration :=
  [ {| reg_id := "cleanup_temp"; reg_name := "Clean Temp Files";
       reg_description :=
         "Deletes temporary files from standard Windows temp locations.";
       reg_group := "cleanup"; reg_func := _cleanup_temp;
       reg_dangerous := false |};
    {| reg_id := "cleanup_prefetch"; reg_name := "Clean Prefetch Folder";
       reg_description :=
         "Cleans the Windows Prefetch folder to clear stale launch data.";
       reg_group := "cleanup"; reg_func := _cleanup_prefetch;
       reg_dangerous := false |};
    {| reg_id := "cleanup_windows_update_cache";
       reg_name := "Clean Windows Update Cache";
       reg_description :=
         "Deletes and resets Windows Update cache to fix update issues.";
       reg_group := "cleanup"; reg_func := _cleanup_windows_update_cache;
       reg_dangerous := true |};
    {| reg_id := "cleanup_recommended"; reg_name := "Recommended Cleanup";
       reg_description :=
         "Runs a recommended set of cleanup operations: temp, prefetch, and update cache.";
       reg_group := "cleanup"; reg_func := _cleanup_recommended;
       reg_dangerous := true |};
    {| reg_id := "health_sfc"; reg_name := "System File Checker (SFC)";
       reg_description :=
         "Runs 'sfc /scannow' to check and repair system files.";
       reg_group := "health"; reg_func := _run_sfc; reg_dangerous := true |};
    {| reg_id := "health_dism"; reg_name := "DISM Health Scan";
       reg_description :=
         "Runs DISM to check and repair the Windows component store.";
       reg_group := "health"; reg_func := _run_dism; reg_dangerous := true |};
    {| reg_id := "health_chkdsk"; reg_name := "CHKDSK (Next Boot)";
       reg_description :=
         "Schedules CHKDSK on the system drive for the next reboot.";
       reg_group := "health"; reg_func := _run_chkdsk; reg_dangerous := true |};
    {| reg_id := "health_full"; reg_name := "Full Health Check";
       reg_description :=
         "Runs SFC and DISM to verify system health. You may still choose to schedule CHKDSK.";
       reg_group := "health"; reg_func := _health_full; reg_dangerous := true |};
    {| reg_id := "network_reset"; reg_name := "Reset Network Stack";
       reg_description :=
         "Resets Winsock, IP stack, and flushes DNS to fix common network issues.";
       reg_group := "network"; reg_func := _network_reset;
       reg_dangerous := true |};
    {| reg_id := "tools_task_manager"; reg_name := "Open Task Manager";
       reg_description := "Opens Windows Task Manager.";
       reg_group := "tools"; reg_func := _open_task_manager;
       reg_dangerous := false |};
    {| reg_id := "tools_device_manager"; reg_name := "Open Device Manager";
       reg_description := "Opens Windows Device Manager.";
       reg_group := "tools"; reg_func := _open_device_manager;
       reg_dangerous := false |};
    {| reg_id := "tools_services"; reg_name := "Open Services";
       reg_description := "Opens the Windows Services management console.";
       reg_group := "tools"; reg_func := _open_services;
       reg_dangerous := false |};
    {| reg_id := "tools_system_restore"; reg_name := "Open System Restore";
       reg_description := "Opens the System Restore configuration UI.";
       reg_group := "tools"; reg_func := _open_system_restore;
       reg_dangerous := false |};
    {| reg_id := "privacy_recommended";
       reg_name := "Recommended Privacy Profile";
       reg_description :=
         "Applies a balanced set of privacy tweaks recommended for most users.";
       reg_group := "privacy"; reg_func := _privacy_recommended;
       reg_dangerous := true |};
    {| reg_id := "privacy_strict"; reg_name := "Strict Privacy Profile";
       reg_description :=
         "Applies a strict set of privacy tweaks, potentially disabling some Windows features.";
       reg_group := "privacy"; reg_func := _privacy_strict;
       reg_dangerous := true |};
    {| reg_id := "privacy_restore_defaults";
       reg_name := "Restore Privacy Defaults";
       reg_description :=
         "Restores Windows privacy-related settings to their default values.";
       reg_group := "privacy"; reg_func := _privacy_restore_defaults;
       reg_dangerous := true |} ].

Definition _register_builtin_actions (st : state W) : state W :=
  let st1 := warn_unavailable "system_tools module not available: %s"
               import_system_tools st in
  let st2 := warn_unavailable "privacy_tools module not available: %s"
               import_privacy_tools st1 in
  fold_left (fun s r => do_register r s) builtin_registrations st2.

End Builtins.

(** ** Plugin loading *)

Section Plugins.

Context {W : Type}.

(** What [importlib.import_module] does for one name. *)
Inductive imported (M : Type) :=
| Imported (m : M)
| ModuleNotFound (e : string)
| ImportRaised (e : string).

Arguments Imported {M} m.
Arguments ModuleNotFound {M} e.
Arguments ImportRaised {M} e.

(** One run of a plugin's [register(registry=_RegistryFacade())]: the
    [register_action] calls it makes through the facade, in order, and the
    exception that ends it, if any.  The facade forwards each call to
    [register_action] unchanged. *)
Record register_fn := {
  calls : list (@registration W);
  raises : option string
}.

(** A plugin module: [getattr(module, "register", None)] when callable. *)
Record plugin_module := {
  register : option register_fn
}.

(** [__package__] of the actions module. *)
Variable package : string.

(** Importing the plugins package gives the names that
    [pkgutil.iter_modules] yields for it. *)
Variable import_package : string -> imported (list string).
Variable import_module : string -> imported plugin_module.

(** [s.split(".")]. *)
Fixpoint split_dots_go (cur : string) (s : string) : list string :=
  match s with
  | EmptyString => [cur]
  | String c s' =>
      if Ascii.eqb c "."%char then cur :: split_dots_go EmptyString s'
      else split_dots_go (cur ++ String c EmptyString) s'
  end.

Definition split_dots (s : string) : list string := split_dots_go EmptyString s.

(** [parts[:parts.index("core")]] when ["core" in parts]. *)
Fixpoint before_core (parts : list string) : option (list string) :=
  match parts with
  | [] => None
  | p :: rest =>
      if String.eqb p "core" then Some []
      else match before_core rest with
           | Some l => Some (p :: l)
           | None => None
           end
  end.

Definition _get_plugins_package_name : option string :=
  let parts := split_dots package in
  let base :=
    match before_core parts with
    | Some l => String.concat "." l
    | None => String.concat "." (removelast parts)
    end in
  if truthy base then Some (base ++ ".plugins") else None.

Definition facade_register_action (r : @registration W) (st : state W) : state W :=
  do_register r st.

(** The body of the [for module_info in ...] loop. *)
Definition load_one (package_name mod_name : string) (st : state W) : state W :=
  if starts_with_underscore mod_name then st
  else
    let full_name := package_name ++ "." ++ mod_name in
    match import_module full_name with
    | ModuleNotFound e | ImportRaised e =>
        emit (Logged WARNING "Failed to import plugin module '%s': %s"
                [full_name; e]) st
    | Imported module =>
        match register module with
        | None => st
        | Some register_fn =>
            let st' :=
              fold_left (fun s r => facade_register_action r s)
                (calls register_fn) st in
            match raises register_fn with
            | None =>
                emit (Logged INFO "Plugin '%s' registered successfully."
                        [full_name]) st'
            | Some e =>
                emit (Logged WARNING "Plugin '%s' register() failed: %s"
                        [full_name; e]) st'
            end
        end
    end.

Definition load_plugins (st : state W) : state W :=
  match _get_plugins_package_name with
  | None =>
      emit (Logged DEBUG "Could not determine plugins package name." []) st
  | Some package_name =>
      match import_package package_name with
      | ModuleNotFound _ =>
          emit (Logged DEBUG "Plugins package '%s' not found (which is fine)."
                  [package_name]) st
      | ImportRaised e =>
          emit (Logged WARNING "Failed to import plugins package '%s': %s"
                  [package_name; e]) st
      | Imported mod_names =>
          fold_left (fun s mod_name => load_one package_name mod_name s)
            mod_names st
      end
  end.

(** The id [k] appears in [list_actions()]. *)
Definition listed (k : string) (st : state W) : Prop :=
  exists a, In a (list_actions st) /\ id a = k.

(** What one plugin module must have left behind in a later state [st']:
    a warning when its import failed; else every action it registered in
    view ([shown k st'] says how), and the record of how its [register]
    ended. *)
Definition module_outcome (shown : string -> state W -> Prop)
    (full_name : string) (st' : state W) : Prop :=
  match import_module full_name with
  | ModuleNotFound e | ImportRaised e =>
      In (Logged WARNING "Failed to import plugin module '%s': %s"
            [full_name; e]) (log st')
  | Imported m =>
      match register m with
      | None => True
      | Some rf =>
          (forall r, In r (calls rf) -> shown (reg_id r) st') /\
          match raises rf with
          | Some e =>
              In (Logged WARNING "Plugin '%s' register() failed: %s"
                    [full_name; e]) (log st')
          | None =>
              In (Logged INFO "Plugin '%s' registered successfully."
                    [full_name]) (log st')
          end
      end
  end.

End Plugins.

Arguments Imported {M} m.
Arguments ModuleNotFound {M} e.
Arguments ImportRaised {M} e.


(* ===================================================================== *)
(** * The request router (core/ai_interpreter.py) *)
(* ===================================================================== *)

(** A value returned by [json.loads]. *)
#[local] Unset Elimination Schemes.
Inductive json :=
| JNull
| JBool (b : bool)
| JNumber (literal : string)
| JString (s : string)
| JArray (items : list json)
| JObject (members : list (string * json)).
#[local] Set Elimination Schemes.

(** One run of the [try] block of [_gemini_choose_action_ids]:
    [configure_failed] is the exception text when [genai.configure] raised
    in [_ensure_gemini_client]; [reply] is the value [json.loads(raw)]
    returned, or the text of the exception that left the block. *)
Record gemini_run := {
  configure_failed : option string;
  reply : string + json
}.

Section Router.

Context {W : Type}.

(** The remote backend: [None] when [_is_gemini_configured()] is false,
    else what a call does for a given request. *)
Variable gemini : option (string -> gemini_run).

(** [if c: selected.append(aid)]. *)
Definition append_if (c : bool) (aid : string) (selected : list string)
  : list string :=
  if c then py_append selected aid else selected.

(** The de-duplication loop that ends [_fallback_choose_action_ids]. *)
Fixpoint dedup_valid (ACTIONS : dict string (Action W))
    (selected seen result : list string) : list string :=
  match selected with
  | [] => result
  | aid :: rest =>
      if dict_mem aid ACTIONS && negb (existsb (String.eqb aid) seen)
      then dedup_valid ACTIONS rest (aid :: seen) (py_append result aid)
      else dedup_valid ACTIONS rest seen result
  end.

(** The [if]/[elif] chain under [# Cleanup]. *)
Definition cleanup_rules (text : string) (selected : list string) : list string :=
  if any_in ["cleanup"; "clean up"; "clean my pc"; "temp"; "cache"; "junk";
             "space"] text
  then py_append selected "cleanup_recommended"
  else if contains "prefetch" text
  then py_append selected "cleanup_prefetch"
  else if contains "windows update" text && contains "cache" text
  then py_append selected "cleanup_windows_update_cache"
  else if contains "temp" text || contains "temporary" text
  then py_append selected "cleanup_temp"
  else selected.

(** The [if]/[elif] chain under [# Privacy]. *)
Definition privacy_rules (text : string) (selected : list string) : list string :=
  if contains "privacy" text && contains "strict" text
  then py_append selected "privacy_strict"
  else if contains "privacy" text && contains "default" text
  then py_append selected "privacy_restore_defaults"
  else if contains "privacy" text
  then py_append selected "privacy_recommended"
  else if contains "telemetry" text || contains "tracking" text
  then py_append selected "privacy_recommended"
  else selected.

(** The block under [if not selected:]. *)
Definition generic_rules (text : string) (selected : list string) : list string :=
  match selected with
  | [] =>
      if contains "clean" text then py_append selected "cleanup_recommended"
      else if contains "fix" text || contains "repair" text
      then py_append selected "health_full"
      else selected
  | _ => selected
  end.

(** The list [selected] before the final de-duplication. *)
Definition fallback_selected (text : string) : list string :=
  let selected : list string := [] in
  (* Cleanup *)
  let selected := cleanup_rules text selected in
  (* Health *)
  let selected :=
    append_if (contains "sfc" text || contains "system file checker" text)
      "health_sfc" selected in
  let selected :=
    append_if (contains "dism" text || contains "component store" text)
      "health_dism" selected in
  let selected :=
    append_if (contains "chkdsk" text || contains "disk check" text)
      "health_chkdsk" selected in
  let selected :=
    append_if
      (any_in ["health"; "corrupt"; "integrity"; "fix system files"] text)
      "health_full" selected in
  (* Network *)
  let selected :=
    append_if
      (any_in ["no internet"; "network"; "wifi"; "ethernet"; "dns"; "winsock";
               "reset network"] text)
      "network_reset" selected in
  (* Tools *)
  let selected :=
    append_if (contains "task manager" text) "tools_task_manager" selected in
  let selected :=
    append_if (contains "device manager" text) "tools_device_manager"
      selected in
  let selected :=
    append_if (contains "services" text) "tools_services" selected in
  let selected :=
    append_if (contains "system restore" text || contains "restore point" text)
      "tools_system_restore" selected in
  (* Privacy *)
  let selected := privacy_rules text selected in
  (* If still nothing, try some generic mappings *)
  generic_rules text selected.

Definition _fallback_choose_action_ids (ACTIONS : dict string (Action W))
    (request : string) : list string :=
  let text := lower request in
  let selected := fallback_selected text in
  (* De-duplicate while preserving order, only keep valid IDs *)
  dedup_valid ACTIONS selected [] [].

(** [[aid for aid in data if isinstance(aid, str) and aid in ACTIONS]]. *)
Fixpoint valid_ids (ACTIONS : dict string (Action W)) (data : list json)
  : list string :=
  match data with
  | [] => []
  | JString aid :: rest =>
      if dict_mem aid ACTIONS then aid :: valid_ids ACTIONS rest
      else valid_ids ACTIONS rest
  | _ :: rest => valid_ids ACTIONS rest
  end.

Definition _gemini_choose_action_ids (request : string) (st : state W)
  : list string * state W :=
  match gemini with
  | None => ([], st)
  | Some call =>
      let run := call request in
      let st1 :=
        match configure_failed run with
        | Some e => emit (Event ("Failed to configure Gemini client: " ++ e)) st
        | None => st
        end in
      match reply run with
      | inr (JArray data) => (valid_ids (_ACTIONS st1) data, st1)
      | inr _ => ([], st1)
      | inl e => ([], emit (Event ("Gemini action selection failed: " ++ e)) st1)
      end
  end.

(** The loop [for aid in action_ids: action = ACTIONS.get(aid) ...]. *)
Fixpoint lookup_all (ACTIONS : dict string (Action W)) (action_ids : list string)
  : list (Action W) :=
  match action_ids with
  | [] => []
  | aid :: rest =>
      match dict_get aid ACTIONS with
      | Some action => action :: lookup_all ACTIONS rest
      | None => lookup_all ACTIONS rest
      end
  end.

Definition choose_actions_for_request (request : string) (st : state W)
  : list (Action W) * state W :=
  let request := strip request in
  if negb (truthy request) then ([], st)
  else
    let '(action_ids, st1) := _gemini_choose_action_ids request st in
    let action_ids :=
      match action_ids with
      | [] => _fallback_choose_action_ids (_ACTIONS st1) request
      | _ => action_ids
      end in
    let actions := lookup_all (_ACTIONS st1) action_ids in
    let st2 :=
      match actions with
      | [] =>
          emit (Event ("choose_actions_for_request: '" ++ request
                       ++ "' -> no actions")) st1
      | _ =>
          emit (EventWithList ("choose_actions_for_request: '" ++ request
                               ++ "' -> ") (map (@id W) actions)) st1
      end in
    (actions, st2).

(** The execution loop of [interpret_command]; [results] is the accumulator
    of the source. *)
Fixpoint run_plan (actions : list (Action W)) (results : list string)
    (st : state W) : list string * state W :=
  match actions with
  | [] => (results, st)
  | action :: rest =>
      let st1 := emit (log_action_line (name action) "START" "") st in
      match func action (world st1) with
      | (Returned result, w') =>
          let line :=
            match result with
            | Some s => if truthy s then name action ++ ": " ++ s
                        else name action ++ ": completed."
            | None => name action ++ ": completed."
            end in
          run_plan rest (py_append results line)
            (emit (log_action_line (name action) "SUCCESS" "")
               (set_world w' st1))
      | (Raised e, w') =>
          let msg := name action ++ ": ERROR - " ++ e in
          run_plan rest (py_append results msg)
            (emit (log_action_line (name action) "ERROR" e)
               (set_world w' st1))
      end
  end.

Definition no_match_message : string :=
  "I couldn't match that to any known action yet. Try rephrasing or be more specific.".

Definition interpret_command (request : string) (st : state W)
  : string * state W :=
  let '(actions, st1) := choose_actions_for_request request st in
  match actions with
  | [] =>
      (no_match_message,
       emit (Event ("interpret_command: no actions for '" ++ request ++ "'")) st1)
  | _ =>
      let '(results, st2) := run_plan actions [] st1 in
      (join_lines results, st2)
  end.

End Router.

(* ===================================================================== *)
(** * The desktop surface (gui.py) *)
(* ===================================================================== *)

(** A [tkinter.messagebox] call. *)
Inductive dialog :=
| AskYesNo (title message : string)
| ShowError (title message : string).

Section Gui.

Context {W : Type}.

Variable gemini : option (string -> gemini_run).

(** The user in front of the window: the answer given to an
    [askyesno(title, message)] dialog. *)
Variable askyesno : string -> string -> bool.

(** The window: the program state, the lines of the Activity Log widget and
    the dialogs shown so far. *)
Record gui := {
  app : state W;
  log_text : list string;
  dialogs : list dialog
}.

Definition _log (message : string) (g : gui) : gui :=
  {| app := emit (Logged INFO message []) (app g);
     log_text := log_text g ++ [message];
     dialogs := dialogs g |}.

Definition show (d : dialog) (g : gui) : gui :=
  {| app := app g; log_text := log_text g; dialogs := dialogs g ++ [d] |}.

Definition set_app (st : state W) (g : gui) : gui :=
  {| app := st; log_text := log_text g; dialogs := dialogs g |}.

(** [command_var] is the content of the entry field. *)
Definition _on_run_command (command_var : string) (g : gui) : gui :=
  let text := strip command_var in
  if negb (truthy text) then g
  else
    let g1 := _log ("> " ++ text) g in
    let '(result, st) := interpret_command gemini text (app g1) in
    let g2 := set_app st g1 in
    if truthy result then _log result g2 else g2.

Definition _on_run_action (action : Action W) (g : gui) : gui :=
  let confirm_title := "Confirm Action" in
  let confirm_message :=
    "This action is marked as dangerous and may affect system stability."
    ++ nl ++ nl ++ "Run '" ++ name action ++ "'?" in
  if dangerous action && negb (askyesno confirm_title confirm_message)
  then show (AskYesNo confirm_title confirm_message) g
  else
    let g0 :=
      if dangerous action
      then show (AskYesNo confirm_title confirm_message) g else g in
    let g1 := _log ("Running action: " ++ name action) g0 in
    match func action (world (app g1)) with
    | (Returned result, w') =>
        let g2 := set_app (set_world w' (app g1)) g1 in
        let g3 :=
          match result with
          | Some s => if truthy s then _log s g2 else g2
          | None => g2
          end in
        _log ("Action completed: " ++ name action) g3
    | (Raised e, w') =>
        let g2 := set_app (set_world w' (app g1)) g1 in
        show (ShowError "Action Failed" e) (_log ("Action failed: " ++ e) g2)
    end.

End Gui.

(* ===================================================================== *)
(** * The command-line surface (main.py) *)
(* ===================================================================== *)

Section Cli.

Context {W : Type}.

(** [ACTIONS] is the registry of the actions module. *)
Definition interpret_command_keyword (ACTIONS : dict string (Action W))
    (text : string) : option (Action W) :=
  let t := lower text in
  (* Health / repair *)
  if contains "sfc" t || contains "system file" t
  then dict_get "run_sfc" ACTIONS
  else if contains "dism" t || contains "restore health" t
          || contains "image health" t
  then dict_get "run_dism_health_restore" ACTIONS
  else if contains "chkdsk" t || contains "check disk" t
          || contains "disk check" t
  then dict_get "run_chkdsk" ACTIONS
  (* Cleanup *)
  else if contains "clean temp" t || contains "temp files" t
          || contains "temporary files" t
  then dict_get "clean_temp" ACTIONS
  else if contains "prefetch" t
  then dict_get "clean_prefetch" ACTIONS
  else if contains "software distribution" t
          || contains "windows update cache" t
  then dict_get "clean_software_distribution" ACTIONS
  (* Network *)
  else if contains "advanced" t && contains "network" t && contains "reset" t
  then dict_get "network_reset_advanced" ACTIONS
  else if contains "network" t && contains "reset" t
  then dict_get "network_reset_basic" ACTIONS
  (* System tools *)
  else if contains "task manager" t
  then dict_get "open_task_manager" ACTIONS
  else if contains "device manager" t
  then dict_get "open_device_manager" ACTIONS
  else if contains "services" t
  then dict_get "open_services" ACTIONS
  else if contains "system restore" t || contains "restore point" t
  then dict_get "open_system_restore" ACTIONS
  (* Privacy profiles *)
  else if contains "privacy" t || contains "telemetry" t
          || contains "tracking" t
  then
    if contains "strict" t || contains "lock down" t || contains "lockdown" t
       || contains "maximum" t || contains "paranoid" t
    then dict_get "privacy_strict" ACTIONS
    else if contains "restore" t || contains "default" t
            || contains "defaults" t || contains "undo" t
    then dict_get "privacy_restore_defaults" ACTIONS
    else dict_get "privacy_recommended" ACTIONS
  else None.

(** The ids looked up by the health, cleanup, network and tools branches. *)
Definition cli_only_ids : list string :=
  ["run_sfc"; "run_dism_health_restore"; "run_chkdsk"; "clean_temp";
   "clean_prefetch"; "clean_software_distribution"; "network_reset_advanced";
   "network_reset_basic"; "open_task_manager"; "open_device_manager";
   "open_services"; "open_system_restore"].

(** The ids looked up by the privacy branches. *)
Definition cli_privacy_ids : list string :=
  ["privacy_strict"; "privacy_restore_defaults"; "privacy_recommended"].

(** One of the health, cleanup, network or tools conditions holds of the
    lower-cased text [t]. *)
Definition non_privacy_branch (t : string) : bool :=
  (contains "sfc" t || contains "system file" t)
  || ((contains "dism" t || contains "restore health" t
       || contains "image health" t)
  || ((contains "chkdsk" t || contains "check disk" t
       || contains "disk check" t)
  || ((contains "clean temp" t || contains "temp files" t
       || contains "temporary files" t)
  || (contains "prefetch" t
  || ((contains "software distribution" t
       || contains "windows update cache" t)
  || ((contains "advanced" t && contains "network" t && contains "reset" t)
  || ((contains "network" t && contains "reset" t)
  || (contains "task manager" t
  || (contains "device manager" t
  || (contains "services" t
  || (contains "system restore" t || contains "restore point" t))))))))))).

(** The condition of the privacy branch. *)
Definition privacy_branch (t : string) : bool :=
  contains "privacy" t || contains "telemetry" t || contains "tracking" t.

End Cli.

(* ===================================================================== *)
(** * The privacy profiles (core/privacy_tools.py) *)
(* ===================================================================== *)

Module PrivacyTools.

(** Constants of the [winreg] module. *)
Definition HKEY_CURRENT_USER : Z := 2147483649.
Definition HKEY_LOCAL_MACHINE : Z := 2147483650.
Definition REG_SZ : Z := 1.
Definition REG_DWORD : Z := 4.

Record RegSetting := {
  root : Z;
  path : string;
  name : string;
  value : Z;
  value_type : Z
}.

(** A key of [_BACKUP]: the tuple [(root, path, name)]. *)
Definition backup_key : Type := Z * string * string.

Definition backup_key_eqb (a b : backup_key) : bool :=
  let '(r1, p1, n1) := a in
  let '(r2, p2, n2) := b in
  Z.eqb r1 r2 && String.eqb p1 p2 && String.eqb n1 n2.

#[global] Instance backup_key_key : PyKey backup_key :=
  {| key_eqb := backup_key_eqb |}.

(** [str(z)] of an [int]. *)
Definition str_int (z : Z) : string := NilZero.string_of_int (Z.to_int z).

(** [str(o)] of an [Optional[int]]. *)
Definition str_opt_int (o : option Z) : string :=
  match o with
  | None => "None"
  | Some z => str_int z
  end.

(** An argument handed to the logger next to the format string. *)
Inductive log_arg :=
| AStr (s : string)
| AInt (z : Z)
| AOptInt (o : option Z)
| ASetting (s : RegSetting).

Record log_call := {
  lvl : level;
  fmt : string;
  args : list log_arg
}.

(** What reading a value through [winreg.OpenKey] and
    [winreg.QueryValueEx], followed by [int(v)], does. *)
Inductive query_result :=
| QueryInt (v : Z)
| QueryFileNotFound
| QueryRaised (e : string).

(** What deleting a value through [winreg.OpenKey] and
    [winreg.DeleteValue] does. *)
Inductive delete_result :=
| Deleted
| DeleteValueNotFound
| DeleteRaised (e : string).

Section Registry.

(** The Windows registry. *)
Context {R : Type}.

Variable winreg_query : R -> Z -> string -> string -> query_result.

(** [CreateKey(root, path)] then [SetValueEx(key, name, 0, value_type,
    value)]: the exception text if one is raised, and the registry left. *)
Variable winreg_set : R -> Z -> string -> string -> Z -> Z -> option string * R.

Variable winreg_delete : R -> Z -> string -> string -> delete_result * R.

(** The module's global state. *)
Record state := {
  registry : R;
  _BACKUP : dict backup_key (option Z);
  log : list log_call
}.

Definition emit (l : level) (f : string) (a : list log_arg) (st : state) : state :=
  {| registry := registry st; _BACKUP := _BACKUP st;
     log := log st ++ [{| lvl := l; fmt := f; args := a |}] |}.

Definition set_registry (r : R) (st : state) : state :=
  {| registry := r; _BACKUP := _BACKUP st; log := log st |}.

Definition set_backup (b : dict backup_key (option Z)) (st : state) : state :=
  {| registry := registry st; _BACKUP := b; log := log st |}.

Definition _read_reg_value (root : Z) (path name : string) (st : state)
  : option Z * state :=
  match winreg_query (registry st) root path name with
  | QueryInt v => (Some v, st)
  | QueryFileNotFound => (None, st)
  | QueryRaised e =>
      (None,
       emit DEBUG "Failed to read registry value %s\%s (%s): %s"
         [AStr path; AStr name; AInt root; AStr e] st)
  end.

(** [inl msg] stands for [raise RuntimeError(msg)]. *)
Definition _write_reg_value (root : Z) (path name : string)
    (value value_type : Z) (st : state) : (string + unit) * state :=
  match winreg_set (registry st) root path name value_type value with
  | (None, r) => (inr tt, set_registry r st)
  | (Some e, r) =>
      (inl ("Failed to write registry: " ++ path ++ "\" ++ name ++ " → "
            ++ str_int value ++ " (" ++ e ++ ")"),
       emit ERROR "Failed to write registry value: %s\%s = %s (%s)"
         [AStr path; AStr name; AInt value; AInt root; AStr e]
         (set_registry r st))
  end.

Definition setting_key (setting : RegSetting) : backup_key :=
  (root setting, path setting, name setting).

Definition _backup_setting (setting : RegSetting) (st : state) : state :=
  let key := setting_key setting in
  if dict_mem key (_BACKUP st) then st
  else
    let '(original, st1) :=
      _read_reg_value (root setting) (path setting) (name setting) st in
    let st2 := set_backup (dict_set key original (_BACKUP st1)) st1 in
    emit DEBUG "Backed up %s\%s: %s"
      [AStr (path setting); AStr (name setting); AOptInt original] st2.

Definition _apply_setting (setting : RegSetting) (st : state)
  : (string + string) * state :=
  let st1 := _backup_setting setting st in
  let '(before, st2) :=
    _read_reg_value (root setting) (path setting) (name setting) st1 in
  match _write_reg_value (root setting) (path setting) (name setting)
          (value setting) (value_type setting) st2 with
  | (inl e, st3) => (inl e, st3)
  | (inr _, st3) =>
      let '(after, st4) :=
        _read_reg_value (root setting) (path setting) (name setting) st3 in
      let msg := path setting ++ "\" ++ name setting ++ ": "
                 ++ str_opt_int before ++ " → " ++ str_opt_int after in
      (inr msg, emit INFO msg [] st4)
  end.

(** The loop of [_apply_settings]; [messages] is its accumulator. *)
Fixpoint apply_loop (settings : list RegSetting) (messages : list string)
    (st : state) : list string * state :=
  match settings with
  | [] => (messages, st)
  | s :: rest =>
      match _apply_setting s st with
      | (inr msg, st') => apply_loop rest (py_append messages msg) st'
      | (inl e, st') =>
          apply_loop rest
            (py_append messages
               ("ERROR: " ++ path s ++ "\" ++ name s ++ ": " ++ e))
            (emit ERROR "Failed to apply %s: %s" [ASetting s; AStr e] st')
      end
  end.

Definition _apply_settings (settings : list RegSetting) (st : state)
  : string * state :=
  let '(messages, st') := apply_loop settings [] st in
  (join_lines messages, st').

Definition dword (root : Z) (path name : string) (value : Z) : RegSetting :=
  {| root := root; path := path; name := name; value := value;
     value_type := REG_DWORD |}.

Definition _RECOMMENDED_SETTINGS : list RegSetting :=
  [ dword HKEY_CURRENT_USER
      "Software\Microsoft\Windows\CurrentVersion\AdvertisingInfo"
      "Enabled" 0;
    dword HKEY_CURRENT_USER
      "Software\Microsoft\Windows\CurrentVersion\Privacy"
      "TailoredExperiencesWithDiagnosticDataEnabled" 0;
    dword HKEY_CURRENT_USER
      "Software\Microsoft\Windows\CurrentVersion\Explorer\Advanced"
      "Start_TrackProgs" 0;
    dword HKEY_CURRENT_USER
      "Software\Microsoft\Windows\CurrentVersion\BackgroundAccessApplications"
      "GlobalUserDisabled" 1;
    dword HKEY_LOCAL_MACHINE
      "SYSTEM\CurrentControlSet\Services\lfsvc\Service\Configuration"
      "Status" 0 ].

Definition _STRICT_SETTINGS : list RegSetting :=
  (_RECOMMENDED_SETTINGS ++
   [ dword HKEY_LOCAL_MACHINE
       "SOFTWARE\Policies\Microsoft\Windows\DataCollection"
       "AllowTelemetry" 0;
     dword HKEY_LOCAL_MACHINE
       "SOFTWARE\Microsoft\Windows\Windows Error Reporting"
       "Disabled" 1;
     {| root := HKEY_LOCAL_MACHINE;
        path := "SOFTWARE\Microsoft\Windows\CurrentVersion\CapabilityAccessManager\ConsentStore\webcam";
        name := "Value"; value := 0; value_type := REG_SZ |};
     {| root := HKEY_LOCAL_MACHINE;
        path := "SOFTWARE\Microsoft\Windows\CurrentVersion\CapabilityAccessManager\ConsentStore\microphone";
        name := "Value"; value := 0; value_type := REG_SZ |} ])%list.

Definition apply_recommended_privacy_profile (st : state) : string * state :=
  let st1 := emit INFO "Applying recommended privacy profile..." [] st in
  let '(result, st2) := _apply_settings _RECOMMENDED_SETTINGS st1 in
  ("Recommended privacy profile applied." ++ nl ++ nl ++ result, st2).

Definition apply_strict_privacy_profile (st : state) : string * state :=
  let st1 := emit INFO "Applying strict privacy profile..." [] st in
  let '(result, st2) := _apply_settings _STRICT_SETTINGS st1 in
  ("Strict privacy profile applied." ++ nl
   ++ "(Some changes require reboot to take effect.)" ++ nl ++ nl ++ result,
   st2).

(** The loop of [restore_privacy_defaults] over [_BACKUP.items()]. *)
Fixpoint restore_loop (items : list (backup_key * option Z))
    (messages : list string) (st : state) : list string * state :=
  match items with
  | [] => (messages, st)
  | ((root, path, name), original_value) :: rest =>
      match original_value with
      | None =>
          match winreg_delete (registry st) root path name with
          | (Deleted, r) =>
              restore_loop rest
                (py_append messages (path ++ "\" ++ name ++ ": deleted (default)"))
                (set_registry r st)
          | (DeleteValueNotFound, r) =>
              restore_loop rest
                (py_append messages (path ++ "\" ++ name ++ ": already missing"))
                (set_registry r st)
          | (DeleteRaised e, r) =>
              restore_loop rest
                (py_append messages
                   ("ERROR restoring " ++ path ++ "\" ++ name ++ ": " ++ e))
                (emit ERROR "Failed to restore %s\%s: %s"
                   [AStr path; AStr name; AStr e] (set_registry r st))
          end
      | Some v =>
          match winreg_set (registry st) root path name REG_DWORD v with
          | (None, r) =>
              restore_loop rest
                (py_append messages
                   (path ++ "\" ++ name ++ ": restored to " ++ str_int v))
                (set_registry r st)
          | (Some e, r) =>
              restore_loop rest
                (py_append messages
                   ("ERROR restoring " ++ path ++ "\" ++ name ++ ": " ++ e))
                (emit ERROR "Failed to restore %s\%s: %s"
                   [AStr path; AStr name; AStr e] (set_registry r st))
          end
      end
  end.

Definition restore_privacy_defaults (st : state) : string * state :=
  let st1 := emit INFO "Restoring privacy defaults..." [] st in
  let '(messages, st2) := restore_loop (_BACKUP st1) [] st1 in
  match messages with
  | [] => ("No previous privacy settings to restore.", st2)
  | _ => ("Privacy defaults restored." ++ nl ++ nl ++ join_lines messages, st2)
  end.

(** A public entry point of the module, as called by the catalog's privacy
    actions. *)
Inductive privacy_call :=
| ApplyRecommended
| ApplyStrict
| RestoreDefaults.

Definition run_call (c : privacy_call) (st : state) : string * state :=
  match c with
  | ApplyRecommended => apply_recommended_privacy_profile st
  | ApplyStrict => apply_strict_privacy_profile st
  | RestoreDefaults => restore_privacy_defaults st
  end.

(** A session: the calls made one after the other. *)
Definition run_calls (cs : list privacy_call) (st : state) : state :=
  fold_left (fun s c => snd (run_call c s)) cs st.

(** Successive applications of arbitrary profiles. *)
Definition apply_profiles (profiles : list (list RegSetting)) (st : state) : state :=
  fold_left (fun s p => snd (_apply_settings p s)) profiles st.

End Registry.

Arguments state : clear implicits.

(** ** A simulated registry

    The registry is a dictionary from [(root, path, name)] to the stored
    DWORD.  Reading a missing value raises [FileNotFoundError]; writing a
    DWORD always succeeds; writing an [int] under any other type is
    refused, [e] being the text of the exception; deleting a missing value
    raises [FileNotFoundError]. *)

Definition sim_registry : Type := dict backup_key Z.

Definition sim_query (r : sim_registry) (root : Z) (path name : string)
  : query_result :=
  match dict_get (root, path, name) r with
  | Some v => QueryInt v
  | None => QueryFileNotFound
  end.

Definition sim_set (e : string) (r : sim_registry) (root : Z)
    (path name : string) (value_type value : Z) : option string * sim_registry :=
  if Z.eqb value_type REG_DWORD
  then (None, dict_set (root, path, name) value r)
  else (Some e, r).

Definition sim_delete (r : sim_registry) (root : Z) (path name : string)
  : delete_result * sim_registry :=
  if dict_mem (root, path, name) r
  then (Deleted,
        filter (fun kv => negb (backup_key_eqb (fst kv) (root, path, name))) r)
  else (DeleteValueNotFound, r).

Definition sim_state (r : sim_registry) : state sim_registry :=
  {| registry := r; _BACKUP := []; log := [] |}.

End PrivacyTools.

(* ===================================================================== *)
(** * Start-up *)
(* ===================================================================== *)

Section Startup.

Context {W : Type}.

Variable import_system_tools : string + @tools_module W.
Variable import_privacy_tools : string + @tools_module W.
Variable package : string.
Variable import_package : string -> imported (list string).
Variable import_module : string -> imported (@plugin_module W).

Definition empty_state (w : W) : state W :=
  {| _ACTIONS := []; log := []; world := w |}.

(** The initialisation at the bottom of the actions module: the built-in
    actions first, then the plugins.  [ACTIONS] is an alias of the
    resulting [_ACTIONS]. *)
Definition module_init (w : W) : state W :=
  load_plugins package import_package import_module
    (_register_builtin_actions import_system_tools import_privacy_tools
       (empty_state w)).

End Startup.

(** ** The program as shipped

    The actions module lives in the package [ai_system_utility.core]; the
    plugins package holds the one module [example_cleanup].  Its [register]
    function names its parameter [actions], so the call
    [register(registry=...)] raises a [TypeError] before the body runs;
    [e] is the text of that exception. *)

Definition shipped_package : string := "ai_system_utility.core".

Definition shipped_import_package (full_name : string) : imported (list string) :=
  if String.eqb full_name "ai_system_utility.plugins"
  then Imported ["example_cleanup"]
  else ModuleNotFound ("No module named '" ++ full_name ++ "'").

Definition example_cleanup {W : Type} (e : string) : @plugin_module W :=
  {| register := Some {| calls := []; raises := Some e |} |}.

Definition shipped_import_module {W : Type} (e : string) (full_name : string)
  : imported (@plugin_module W) :=
  if String.eqb full_name "ai_system_utility.plugins.example_cleanup"
  then Imported (example_cleanup e)
  else ModuleNotFound ("No module named '" ++ full_name ++ "'").

Definition shipped_state {W : Type}
    (import_system_tools import_privacy_tools : string + @tools_module W)
    (e : string) (w : W) : state W :=
  module_init import_system_tools import_privacy_tools shipped_package
    shipped_import_package (shipped_import_module e) w.

(** ** A machine that records calls

    The machine is the list of the tool functions called so far; every
    tool function exists, appends its own name and returns a summary. *)

Definition recorder : Type := list string.

Definition recording_tools : @tools_module recorder :=
  fun attr => Some (fun w => (Returned (Some (attr ++ ": ok")), (w ++ [attr])%list)).

(** The same, except that the tool function [bad] raises after recording
    its call. *)
Definition failing_tools (bad : string) : @tools_module recorder :=
  fun attr =>
    Some (fun w =>
            (if String.eqb attr bad then Raised (attr ++ ": boom")
             else Returned (Some (attr ++ ": ok")),
             (w ++ [attr])%list)).

Definition failing_state (bad : string) : state recorder :=
  shipped_state (inr (failing_tools bad)) (inr (failing_tools bad))
    "register() got an unexpected keyword argument 'registry'" [].

Definition recording_state : state recorder :=
  shipped_state (inr recording_tools) (inr recording_tools)
    "register() got an unexpected keyword argument 'registry'" [].

(** ** A plugins package with a broken and a well-behaved module

    Four modules are discovered, in this order: [broken], whose [register]
    raises at once; [_private], which the loader skips; [missing], whose
    import fails; and [good], which registers the action [deep_cleanup]. *)

Definition deep_cleanup : @registration recorder :=
  {| reg_id := "deep_cleanup"; reg_name := "Deep Cleanup";
     reg_description := "Run a deeper cleanup: TEMP + Prefetch.";
     reg_group := "cleanup";
     reg_func := fun w => (Returned None, (w ++ ["deep_cleanup"])%list);
     reg_dangerous := false |}.

Definition demo_import_package (full_name : string) : imported (list string) :=
  if String.eqb full_name "ai_system_utility.plugins"
  then Imported ["broken"; "_private"; "missing"; "good"]
  else ModuleNotFound ("No module named '" ++ full_name ++ "'").

Definition demo_import_module (full_name : string)
  : imported (@plugin_module recorder) :=
  if String.eqb full_name "ai_system_utility.plugins.broken"
  then Imported {| register := Some {| calls := []; raises := Some "boom" |} |}
  else if String.eqb full_name "ai_system_utility.plugins.good"
  then Imported {| register := Some {| calls := [deep_cleanup];
                                       raises := None |} |}
  else ModuleNotFound ("No module named '" ++ full_name ++ "'").

Definition demo_state : state recorder :=
  load_plugins shipped_package demo_import_package demo_import_module
    recording_state.

(** A remote backend that answers every request with
    [["network_reset", "network_reset", "unknown_id"]]. *)
Definition duplicated_reply : gemini_run :=
  {| configure_failed := None;
     reply := inr (JArray [JString "network_reset"; JString "network_reset";
                           JString "unknown_id"]) |}.

Definition duplicating_gemini : option (string -> gemini_run) :=
  Some (fun _ => duplicated_reply).

(** The phrases of the first branch of the cleanup chain. *)
Definition generic_cleanup_phrases : list string :=
  ["cleanup"; "clean up"; "clean my pc"; "temp"; "cache"; "junk"; "space"].

(** A window that has just opened on a program state. *)
Definition fresh_gui {W : Type} (st : state W) : @gui W :=
  {| app := st; log_text := []; dialogs := [] |}.

(* ===================================================================== *)
(** * Orders and predicates used to state further properties *)
(* ===================================================================== *)

(** Every character of the text is white space. *)
Fixpoint all_space (s : string) : bool :=
  match s with
  | EmptyString => true
  | String c s' => is_space c && all_space s'
  end.

(** The ids the remote strategy proposes for a request, seen from outside:
    the strings of the JSON array it returned that are registered, in
    order; nothing when it is not configured, when it raised, or when it
    returned anything but an array. *)
Definition remote_ids {W : Type} (gemini : option (string -> gemini_run))
    (ACTIONS : dict string (Action W)) (request : string) : list string :=
  match gemini with
  | None => []
  | Some call =>
      match reply (call request) with
      | inr (JArray data) => valid_ids ACTIONS data
      | _ => []
      end
  end.

(** ** A registry that behaves like a map of DWORD values

    [val r k] is the value stored under the key [k].  Reading returns the
    stored value, or fails with [FileNotFoundError] when there is none; a
    write either succeeds, after which the value written is the value
    stored and no other value has changed, or fails and changes nothing;
    writing a DWORD succeeds; deleting a stored value succeeds and removes
    it alone, and deleting a missing value changes nothing. *)
Record registry_laws {R : Type} (val : R -> PrivacyTools.backup_key -> option Z)
    (winreg_query : R -> Z -> string -> string -> PrivacyTools.query_result)
    (winreg_set : R -> Z -> string -> string -> Z -> Z -> option string * R)
    (winreg_delete : R -> Z -> string -> string -> PrivacyTools.delete_result * R)
  : Prop := {
  law_query : forall r root path name,
    winreg_query r root path name =
    match val r (root, path, name) with
    | Some v => PrivacyTools.QueryInt v
    | None => PrivacyTools.QueryFileNotFound
    end;
  law_set : forall r root path name value_type value,
    match fst (winreg_set r root path name value_type value) with
    | None =>
        val (snd (winreg_set r root path name value_type value))
          (root, path, name) = Some value /\
        forall k, k <> (root, path, name) ->
          val (snd (winreg_set r root path name value_type value)) k = val r k
    | Some _ =>
        forall k,
          val (snd (winreg_set r root path name value_type value)) k = val r k
    end;
  law_set_dword : forall r root path name value,
    fst (winreg_set r root path name PrivacyTools.REG_DWORD value) = None;
  law_delete : forall r root path name,
    match val r (root, path, name) with
    | Some _ =>
        fst (winreg_delete r root path name) = PrivacyTools.Deleted /\
        val (snd (winreg_delete r root path name)) (root, path, name) = None /\
        forall k, k <> (root, path, name) ->
          val (snd (winreg_delete r root path name)) k = val r k
    | None =>
        forall k, val (snd (winreg_delete r root path name)) k = val r k
    end
}.

(** What the session's backup knows about the registry [r0] the session
    started from: its keys are unique, each entry holds the value [r0]
    stored under its key, and every value without an entry is still as in
    [r0]. *)
Definition backup_tracks {R : Type}
    (val : R -> PrivacyTools.backup_key -> option Z) (r0 : R)
    (st : PrivacyTools.state R) : Prop :=
  NoDup (dict_keys (PrivacyTools._BACKUP st)) /\
  (forall k o, dict_get k (PrivacyTools._BACKUP st) = Some o -> o = val r0 k) /\
  (forall k, dict_mem k (PrivacyTools._BACKUP st) = false ->
             val (PrivacyTools.registry st) k = val r0 k).

(* ===================================================================== *)
(** * More of the desktop surface (gui.py) *)
(* ===================================================================== *)

(** The double-quote character, as a string. *)
Definition dq : string := String (ascii_of_nat 34) EmptyString.

(** [str.upper] on one ASCII character. *)
Definition upper_ascii (c : ascii) : ascii :=
  let n := nat_of_ascii c in
  if between 97 122 n then ascii_of_nat (n - 32) else c.

(** [str.capitalize()] on ASCII text: the first character upper-cased, the
    others lower-cased. *)
Definition capitalize (s : string) : string :=
  match s with
  | EmptyString => EmptyString
  | String c s' => String (upper_ascii c) (lower s')
  end.

Section GuiMore.

Context {W : Type}.

Variable gemini : option (string -> gemini_run).
Variable askyesno : string -> string -> bool.

Definition _run_action_by_id (action_id : string) (g : @gui W) : @gui W :=
  match get_action_by_id action_id (app g) with
  | None =>
      let g1 := _log ("Action '" ++ action_id ++ "' not found.") g in
      show (ShowError "Action Not Found"
              ("Action '" ++ action_id ++ "' not found.")) g1
  | Some action => _on_run_action askyesno action g
  end.

(** The [mapping] of [_run_quick_action]. *)
Definition quick_action_prompts : dict string string :=
  [ ("privacy", "Apply the recommended privacy profile for Windows.");
    ("cleanup",
     "Run a safe system cleanup: temp files, prefetch, and Windows Update cache.");
    ("network",
     "Perform a standard network reset including DNS flush and Winsock reset.");
    ("health", "Run system health checks such as SFC and DISM.");
    ("tools",
     "Open useful system tools like Task Manager, Device Manager, Services, and System Restore.") ].

(** The categories for which [_run_quick_action] asks first. *)
Definition confirmed_categories : list string := ["cleanup"; "network"; "health"].

Definition quick_confirm_message (category : string) : string :=
  "This quick action will perform system-level changes." ++ nl ++ nl
  ++ "Proceed with '" ++ capitalize category ++ "'?".

Definition _run_quick_action (category : string) (g : @gui W) : @gui W :=
  match dict_get category quick_action_prompts with
  | None => g
  | Some text =>
      if negb (truthy text) then g
      else
        let asks := existsb (String.eqb category) confirmed_categories in
        let title := "Confirm Quick Action" in
        let message := quick_confirm_message category in
        if asks && negb (askyesno title message)
        then show (AskYesNo title message) g
        else
          let g0 := if asks then show (AskYesNo title message) g else g in
          let g1 := _log ("> [Quick] " ++ text) g0 in
          let '(result, st) := interpret_command gemini text (app g1) in
          let g2 := set_app st g1 in
          if truthy result then _log result g2 else g2
  end.

(** The [steps] of [_run_full_maintenance]: action id and label. *)
Definition maintenance_steps : list (string * string) :=
  [ ("cleanup_recommended", "Recommended Cleanup");
    ("health_full", "Full Health Check");
    ("privacy_recommended", "Recommended Privacy Profile");
    ("network_reset", "Network Reset") ].

(** The loop of [_run_full_maintenance]. *)
Fixpoint maintenance_loop (steps : list (string * string)) (g : @gui W)
  : @gui W :=
  match steps with
  | [] => g
  | (action_id, label) :: rest =>
      match get_action_by_id action_id (app g) with
      | None =>
          maintenance_loop rest
            (_log ("[Full Maintenance] Action '" ++ action_id ++ "' not found.") g)
      | Some action =>
          let g1 := _log ("[Full Maintenance] Running: " ++ label) g in
          match func action (world (app g1)) with
          | (Returned result, w') =>
              let g2 := set_app (set_world w' (app g1)) g1 in
              let line :=
                match result with
                | Some s =>
                    if truthy s then "[Full Maintenance] " ++ label ++ ": " ++ s
                    else "[Full Maintenance] " ++ label ++ ": completed."
                | None => "[Full Maintenance] " ++ label ++ ": completed."
                end in
              maintenance_loop rest (_log line g2)
          | (Raised e, w') =>
              let g2 := set_app (set_world w' (app g1)) g1 in
              maintenance_loop rest
                (_log ("[Full Maintenance] " ++ label ++ " failed: " ++ e) g2)
          end
      end
  end.

Definition full_maintenance_question : string :=
  "This will run a full maintenance sequence:" ++ nl ++ nl
  ++ "- Recommended cleanup" ++ nl
  ++ "- Full health check (SFC + DISM)" ++ nl
  ++ "- Recommended privacy profile" ++ nl
  ++ "- Network reset" ++ nl ++ nl
  ++ "Proceed?".

(** [_run_full_maintenance]: the window afterwards, and the [showinfo]
    boxes shown (title and message). *)
Definition _run_full_maintenance (g : @gui W) : @gui W * list (string * string) :=
  let g0 := show (AskYesNo "Full Maintenance" full_maintenance_question) g in
  if negb (askyesno "Full Maintenance" full_maintenance_question)
  then (g0, [])
  else
    let g1 := _log "[Full Maintenance] Starting full maintenance sequence..." g0 in
    let g2 := maintenance_loop maintenance_steps g1 in
    let g3 := _log "[Full Maintenance] Sequence completed." g2 in
    (g3,
     [("Full Maintenance",
       "Full maintenance sequence completed." ++ nl ++ nl
       ++ "Check the Activity Log for detailed results.")]).

(** The steps a maintenance run finds in the catalog: each registered
    action's handler, under its label. *)
Fixpoint found_steps (steps : list (string * string)) (st : state W)
  : list (string * handler W) :=
  match steps with
  | [] => []
  | (action_id, label) :: rest =>
      match get_action_by_id action_id st with
      | None => found_steps rest st
      | Some action => (label, func action) :: found_steps rest st
      end
  end.

End GuiMore.

(** [_format_uptime(seconds)]. *)
Definition _format_uptime (seconds : Z) : string :=
  if (seconds <=? 0)%Z then "Unknown"
  else
    let days := (seconds / 86400)%Z in
    let rem := (seconds mod 86400)%Z in
    let hours := (rem / 3600)%Z in
    let rem := (rem mod 3600)%Z in
    let minutes := (rem / 60)%Z in
    let parts : list string := [] in
    let parts :=
      if negb (days =? 0)%Z
      then py_append parts (PrivacyTools.str_int days ++ "d") else parts in
    let parts :=
      if negb (hours =? 0)%Z
      then py_append parts (PrivacyTools.str_int hours ++ "h") else parts in
    let parts :=
      if negb (minutes =? 0)%Z || negb (match parts with [] => false | _ => true end)
      then py_append parts (PrivacyTools.str_int minutes ++ "m") else parts in
    String.concat " " parts.

(** The text [_format_uptime] shows for given numbers of days, hours and
    minutes. *)
Definition uptime_text (days hours minutes : Z) : string :=
  let d := PrivacyTools.str_int days ++ "d" in
  let h := PrivacyTools.str_int hours ++ "h" in
  let m := PrivacyTools.str_int minutes ++ "m" in
  String.concat " "
    ((if (days =? 0)%Z then [] else [d]) ++
     (if (hours =? 0)%Z then [] else [h]) ++
     (if (minutes =? 0)%Z && negb ((days =? 0)%Z && (hours =? 0)%Z) then []
      else [m]))%list.


(* ===================================================================== *)
(** * The self-updater (core/self_updater.py, core/version.py) *)
(* ===================================================================== *)

Module SelfUpdater.

(** [core/version.py]. *)
Definition __version__ : string := "1.0.0".

Definition get_version : string := __version__.

Definition UPDATE_FEED_URL : string :=
  "https://raw.githubusercontent.com/ImReallyHimTho/AI-System-Utility/main/latest.json".

Record UpdateInfo := {
  version : string;
  download_url : string;
  changelog : option string;
  minimum_supported_version : option string
}.

Inductive update_status := error | no_update | update_available.

Record UpdateCheckResult := {
  status : update_status;
  message : string;
  current_version : string;
  remote_version : option string;
  update_info : option UpdateInfo
}.

(** [ch.isdigit()] of a code point below 256: the ASCII digits and the
    superscripts two, three and one (178, 179, 185). *)
Definition isdigit (ch : ascii) : bool :=
  let n := nat_of_ascii ch in
  between 48 57 n || (n =? 178)%nat || (n =? 179)%nat || (n =? 185)%nat.

(** The inner loop of [_parse_version]: [num_str] for the part [p]. *)
Fixpoint num_str (p : string) : string :=
  match p with
  | EmptyString => EmptyString
  | String ch rest =>
      if isdigit ch then String ch (num_str rest) else EmptyString
  end.

(** [a > b] on tuples of integers. *)
Fixpoint tuple_gt (a b : list N) : bool :=
  match a, b with
  | [], _ => false
  | _ :: _, [] => true
  | x :: a', y :: b' => if (x =? y)%N then tuple_gt a' b' else (y <? x)%N
  end.

(** The decimal numeral of a natural number, and a version text made of
    such numerals. *)
Definition decimal (n : N) : string := NilZero.string_of_uint (N.to_uint n).

Definition dotted (components : list N) : string :=
  String.concat "." (map decimal components).

Definition no_dot (s : string) : bool :=
  negb (existsb (Ascii.eqb "."%char) (list_ascii_of_string s)).

Section Version.

(** [int(num_str)] on a non-empty run of [isdigit] characters; [None]
    stands for [ValueError]. *)
Variable py_int : string -> option N.

(** The body of the [for p in parts] loop: the number appended. *)
Definition numeric_part (p : string) : option N :=
  if String.eqb (num_str p) "" then Some 0%N else py_int (num_str p).

Fixpoint numeric_parts (parts : list string) : option (list N) :=
  match parts with
  | [] => Some []
  | p :: rest =>
      match numeric_part p with
      | None => None
      | Some n =>
          match numeric_parts rest with
          | None => None
          | Some ns => Some (n :: ns)
          end
      end
  end.

(** [_parse_version(v)]; [None] when [int] raised. *)
Definition _parse_version (v : string) : option (list N) :=
  numeric_parts (split_dots v).

(** [_is_remote_newer(current, remote)]: the remote text is parsed first. *)
Definition _is_remote_newer (current remote : string) : option bool :=
  match _parse_version remote with
  | None => None
  | Some r =>
      match _parse_version current with
      | None => None
      | Some c => Some (tuple_gt r c)
      end
  end.

(** [int] reads the decimal numerals the interpreter accepts at any
    setting of its limit on the number of digits. *)
Definition int_reads_decimals : Prop :=
  forall n : N, (String.length (decimal n) <= 4300)%nat ->
                py_int (decimal n) = Some n.

(** [str(value)] of a feed value that is not a string. *)
Variable py_str : json -> string.

Definition str (value : json) : string :=
  match value with
  | JString s => s
  | other => py_str other
  end.

(** [str(data.get(key, "")).strip()]. *)
Definition field (key : string) (data : dict string json) : string :=
  strip match dict_get key data with
        | Some value => str value
        | None => ""
        end.

(** What [_fetch_update_feed(url)] did: the records it logged and either
    the text of the exception it raised or the dict it returned. *)
Variable _fetch_update_feed : string -> list log_record * (string + dict string json).

(** [check_for_updates()]: the records logged and the result; no result
    when the [ValueError] of [int] leaves the function. *)
Definition check_for_updates : list log_record * option UpdateCheckResult :=
  let current_version := get_version in
  if negb (truthy UPDATE_FEED_URL) || prefix "https://example.com" UPDATE_FEED_URL
  then
    let msg :=
      "Update feed URL is not configured. "
      ++ "Please set UPDATE_FEED_URL in self_updater.py to your GitHub latest.json URL." in
    ([Logged WARNING msg []],
     Some {| status := error; message := msg;
             current_version := current_version;
             remote_version := None; update_info := None |})
  else
    let '(fetch_log, fetched) := _fetch_update_feed UPDATE_FEED_URL in
    match fetched with
    | inl e =>
        let msg := "Update check failed: " ++ e in
        ((fetch_log ++ [Logged ERROR msg []])%list,
         Some {| status := error; message := msg;
                 current_version := current_version;
                 remote_version := None; update_info := None |})
    | inr data =>
        let latest_version := field "latest_version" data in
        let minimum_supported_version :=
          let m := field "minimum_supported_version" data in
          if truthy m then Some m else None in
        let download_url := field "download_url" data in
        let changelog := dict_get "changelog" data in
        if negb (truthy latest_version) || negb (truthy download_url)
        then
          let msg :=
            "Update feed is missing required fields (latest_version or download_url)." in
          ((fetch_log ++ [Logged ERROR msg []])%list,
           Some {| status := error; message := msg;
                   current_version := current_version;
                   remote_version := None; update_info := None |})
        else
          let log :=
            (fetch_log ++
             [Logged INFO "Current version: %s, Remote latest: %s"
                [current_version; latest_version]])%list in
          match _is_remote_newer current_version latest_version with
          | None => (log, None)
          | Some false =>
              let msg :=
                "You are up to date. Current version: " ++ current_version ++ "." in
              (log,
               Some {| status := no_update; message := msg;
                       current_version := current_version;
                       remote_version := Some latest_version;
                       update_info := None |})
          | Some true =>
              let info :=
                {| version := latest_version;
                   download_url := download_url;
                   changelog :=
                     match changelog with
                     | Some (JString s) => Some s
                     | _ => None
                     end;
                   minimum_supported_version := minimum_supported_version |} in
              let msg_lines :=
                [ "A new version is available: " ++ latest_version;
                  "Current version: " ++ current_version ] in
              let msg_lines :=
                match SelfUpdater.changelog info with
                | Some text =>
                    if truthy text
                    then (msg_lines ++ [""; "Changelog:"; text])%list
                    else msg_lines
                | None => msg_lines
                end in
              (log,
               Some {| status := update_available;
                       message := join_lines msg_lines;
                       current_version := current_version;
                       remote_version := Some latest_version;
                       update_info := Some info |})
          end
    end.

End Version.

(** An [int] for the examples: it reads runs of ASCII digits and rejects
    everything else. *)
Definition sim_int (s : string) : option N :=
  option_map N.of_uint (NilEmpty.uint_of_string s).

End SelfUpdater.

(* ===================================================================== *)
(** * The command-line loop (main.py) *)
(* ===================================================================== *)

(** How the [while True] loop of [main] is left: [sys.exit(code)], or an
    exception no handler of the loop catches. *)
Inductive loop_exit :=
| SysExit (code : Z)
| Uncaught (exception : string).

Section CliLoop.

Context {W : Type}.

Variable gemini : option (string -> gemini_run).

(** The terminal and the program: the lines the user will still type (after
    the last one, [input] raises [EOFError]), the texts written by [print]
    and by the prompts of [input], and the program state. *)
Record console := {
  stdin : list string;
  stdout : list string;
  program : state W
}.

Definition print (text : string) (c : console) : console :=
  {| stdin := stdin c; stdout := stdout c ++ [text]; program := program c |}.

Definition set_program (st : state W) (c : console) : console :=
  {| stdin := stdin c; stdout := stdout c; program := st |}.

Definition log_to (r : log_record) (c : console) : console :=
  set_program (emit r (program c)) c.

(** [input(prompt)]; [None] is [EOFError]. *)
Definition input (prompt : string) (c : console) : option string * console :=
  match stdin c with
  | [] => (None, print prompt c)
  | line :: rest =>
      (Some line,
       {| stdin := rest; stdout := stdout c ++ [prompt]; program := program c |})
  end.

(** [ask_confirmation(action)]; no answer when [input] raised. *)
Definition ask_confirmation (action : Action W) (c : console)
  : option bool * console :=
  let c1 :=
    print (nl ++ "[WARNING] The action '" ++ name action
           ++ "' is marked as DANGEROUS.") c in
  let c2 := print ("Description: " ++ description action) c1 in
  match input "Proceed? [y/N]: " c2 with
  | (None, c3) => (None, c3)
  | (Some ans, c3) => (Some (String.eqb (lower (strip ans)) "y"), c3)
  end.

(** The text of [print_help]. *)
Definition help_text : string :=
  join_lines
    [ "";
      "You can describe problems in natural language, for example:";
      "  - " ++ dq ++ "my pc is slow and acting weird" ++ dq;
      "  - " ++ dq ++ "fix my internet, it keeps dropping" ++ dq;
      "  - " ++ dq ++ "windows updates are stuck" ++ dq;
      "  - " ++ dq ++ "open something to see running processes" ++ dq;
      "  - " ++ dq ++ "tighten my privacy" ++ dq;
      "  - " ++ dq ++ "lock down telemetry" ++ dq;
      "  - " ++ dq ++ "restore privacy defaults" ++ dq;
      "";
      "The AI may run multiple actions in sequence.";
      "";
      "You can also use explicit commands such as:";
      "  - run sfc";
      "  - run dism";
      "  - run chkdsk";
      "  - clean temp";
      "  - clean prefetch";
      "  - clean software distribution";
      "  - reset network";
      "  - advanced network reset";
      "  - open task manager";
      "  - open device manager";
      "  - open services";
      "  - open system restore";
      "  - privacy recommended";
      "  - privacy strict";
      "  - privacy restore defaults";
      "";
      "Type 'help' to see this again, 'exit' to quit.";
      "" ].

Definition print_help (c : console) : console := print help_text c.

(** The exception of [', '.join(action_names)] on a non-empty list of
    [Action] objects. *)
Definition join_type_error : string :=
  "TypeError: sequence item 0: expected str instance, Action found".

(** The end of the fallback branch: [log_action(..., "START", ...)], the
    call of the handler and its [try]/[except]. *)
Definition run_fallback (action : Action W) (c : console) : console :=
  let c1 :=
    log_to (log_action_line (name action) "START" "Fallback keyword interpreter.")
      c in
  match fn action (world (program c1)) with
  | (Returned _, w') =>
      log_to (log_action_line (name action) "SUCCESS" "")
        (set_program (set_world w' (program c1)) c1)
  | (Raised e, w') =>
      print ("[ERROR] Action '" ++ name action ++ "' failed: " ++ e)
        (log_to (log_action_line (name action) "ERROR" e)
           (set_program (set_world w' (program c1)) c1))
  end.

(** One turn of the [while True] loop of [main]: [None] when the loop goes
    on.  The [for] loop under [if action_names:] is never entered: the
    f-string of the [print] before it joins [Action] objects, which raises
    [TypeError] outside every [try]. *)
Definition main_turn (c : console) : option loop_exit * console :=
  match input (nl ++ "> ") c with
  | (None, c1) => (Some (SysExit 0), print (nl ++ "Exiting...") c1)
  | (Some line, c1) =>
      let user := strip line in
      if negb (truthy user) then (None, c1)
      else if existsb (String.eqb (lower user)) ["exit"; "quit"]
      then (Some (SysExit 0), print "Goodbye." c1)
      else if existsb (String.eqb (lower user)) ["help"; "commands"]
      then (None, print_help c1)
      else
        let c2 := log_to (Event ("User input: " ++ user)) c1 in
        let '(action_names, st) :=
          choose_actions_for_request gemini user (program c2) in
        let c3 := set_program st c2 in
        match action_names with
        | _ :: _ => (Some (Uncaught join_type_error), c3)
        | [] =>
            match interpret_command_keyword (_ACTIONS (program c3)) user with
            | Some action =>
                let c4 := print ("[Fallback] Selected: " ++ name action) c3 in
                let c5 := print (description action) c4 in
                if dangerous action
                then
                  match ask_confirmation action c5 with
                  | (None, c6) => (Some (Uncaught "EOFError"), c6)
                  | (Some false, c6) =>
                      (None,
                       log_to (log_action_line (name action) "SKIP"
                                 "User declined dangerous action (fallback).")
                         (print ("[SKIP] " ++ name action) c6))
                  | (Some true, c6) => (None, run_fallback action c6)
                  end
                else (None, run_fallback action c5)
            | None =>
                (None,
                 log_to (Event "No action matched for input.")
                   (print "I couldn't understand that yet. Try rephrasing or type 'help'."
                      c3))
            end
        end
  end.

(** The loop, for at most [turns] turns. *)
Fixpoint main_loop (turns : nat) (c : console) : option loop_exit * console :=
  match turns with
  | O => (None, c)
  | S turns' =>
      match main_turn c with
      | (Some e, c') => (Some e, c')
      | (None, c') => main_loop turns' c'
      end
  end.

(** [main()]: the banner, then the loop; every turn that goes on has read
    a line, so one turn more than there are lines is enough. *)
Definition main (c : console) : option loop_exit * console :=
  let c1 := print "=== AI System Utility (Gemini, Multi-Step, Plugins, Logging) ===" c in
  let c2 := print "Describe issues in natural language, or use direct commands." c1 in
  let c3 := print "Type 'help' for options, 'exit' to quit." c2 in
  main_loop (S (List.length (stdin c3))) c3.

End CliLoop.

(* ===================================================================== *)
(** * Fixtures of the examples *)
(* ===================================================================== *)

(** A user who accepts every dialog, and one who declines every dialog. *)
Definition accepts_all : string -> string -> bool := fun _ _ => true.

Definition declines_all : string -> string -> bool := fun _ _ => false.

(** A terminal on the program as shipped (with the recording machine),
    where [typed] are the lines the user will type. *)
Definition recording_console (typed : list string) : @console recorder :=
  {| stdin := typed; stdout := []; program := recording_state |}.

(** An update feed that cannot be reached. *)
Definition unreachable_feed (url : string)
  : list log_record * (string + dict string json) :=
  ([Logged INFO "Fetching update feed from: %s" [url]],
   inl "Failed to reach update server: timed out").

(** The first setting of the recommended profile. *)
Definition advertising_id : PrivacyTools.RegSetting :=
  PrivacyTools.dword PrivacyTools.HKEY_CURRENT_USER
    "Software\Microsoft\Windows\CurrentVersion\AdvertisingInfo" "Enabled" 0.

(** The program as shipped when [system_tools] cannot be imported. *)
Definition toolless_state : state recorder :=
  shipped_state (inl "No module named 'ai_system_utility.core.system_tools'")
    (inr recording_tools)
    "register() got an unexpected keyword argument 'registry'" [].

(* ===================================================================== *)
(** * Properties of the Python primitives *)
(* ===================================================================== *)

Section PyFacts.

Lemma prefix_nil (s : string) : String.prefix "" s = true.
Proof. destruct s; reflexivity. Qed.

Lemma prefix_app (k b : string) : String.prefix k (k ++ b) = true.
Proof.
  induction k as [|c k IH]; simpl.
  - apply prefix_nil.
  - destruct (ascii_dec c c) as [_|n]; [exact IH | now elim n].
Qed.

Lemma prefix_app_r (k s b : string) :
  String.prefix k s = true -> String.prefix k (s ++ b) = true.
Proof.
  revert s. induction k as [|c k IH]; intros s Hp.
  - apply prefix_nil.
  - destruct s as [|d s]; simpl in *; [discriminate|].
    destruct (ascii_dec c d); [now apply IH | discriminate].
Qed.

Lemma contains_prefix (k s : string) :
  String.prefix k s = true -> contains k s = true.
Proof. intros Hp. destruct s; cbn [contains]; rewrite Hp; reflexivity. Qed.

Lemma prefix_refl (k : string) : String.prefix k k = true.
Proof.
  induction k as [|c k IH]; simpl; [reflexivity|].
  destruct (ascii_dec c c) as [_|n]; [exact IH | now elim n].
Qed.

Lemma contains_refl (k : string) : contains k k = true.
Proof. apply contains_prefix, prefix_refl. Qed.

Lemma contains_cons (k : string) (c : ascii) (s : string) :
  contains k s = true -> contains k (String c s) = true.
Proof. intros Hc. simpl. rewrite Hc. apply orb_true_r. Qed.

Lemma contains_app_l (k a s : string) :
  contains k s = true -> contains k (a ++ s) = true.
Proof.
  intros Hc. induction a as [|c a IH]; simpl; [exact Hc|].
  change (contains k (String c (a ++ s)) = true). now apply contains_cons.
Qed.

Lemma contains_app_r (k s b : string) :
  contains k s = true -> contains k (s ++ b) = true.
Proof.
  induction s as [|c s IH]; intros Hc.
  - simpl in Hc. rewrite orb_false_r in Hc.
    destruct k; [|discriminate]. apply contains_prefix, prefix_nil.
  - simpl in Hc. apply orb_true_iff in Hc. destruct Hc as [Hp|Hc].
    + apply contains_prefix. now apply (prefix_app_r k (String c s) b).
    + change (contains k (String c (s ++ b)) = true).
      apply contains_cons. now apply IH.
Qed.

(** A line of the joined text occurs in it. *)
Lemma contains_join_lines (m : string) (ls : list string) :
  In m ls -> contains m (join_lines ls) = true.
Proof.
  unfold join_lines. induction ls as [|x xs IH]; intros Hin; [contradiction|].
  destruct xs as [|y ys].
  - destruct Hin as [->|[]]. apply contains_refl.
  - change (contains m (x ++ nl ++ String.concat nl (y :: ys)) = true).
    destruct Hin as [->|Hin].
    + apply contains_app_r, contains_refl.
    + apply contains_app_l, contains_app_l. now apply IH.
Qed.

Lemma any_in_true (ks : list string) (k s : string) :
  In k ks -> contains k s = true -> any_in ks s = true.
Proof.
  intros Hin Hc. unfold any_in. apply existsb_exists. now exists k.
Qed.

Lemma any_in_false (ks : list string) (k s : string) :
  any_in ks s = false -> In k ks -> contains k s = false.
Proof.
  intros Hf Hin. destruct (contains k s) eqn:Hc; [|reflexivity].
  rewrite (any_in_true ks k s Hin Hc) in Hf. discriminate.
Qed.

(** Lower-casing keeps white space white space and nothing else. *)
Lemma is_space_lower_char (c : ascii) : is_space (lower_char c) = is_space c.
Proof.
  destruct c as [[] [] [] [] [] [] [] []]; vm_compute; reflexivity.
Qed.

Lemma lower_lstrip (s : string) : lower (lstrip s) = lstrip (lower s).
Proof.
  induction s as [|c s IH]; simpl; [reflexivity|].
  rewrite is_space_lower_char. destruct (is_space c); [exact IH | reflexivity].
Qed.

Lemma lower_rstrip (s : string) : lower (rstrip s) = rstrip (lower s).
Proof.
  induction s as [|c s IH]; simpl; [reflexivity|].
  rewrite <- IH, is_space_lower_char.
  destruct (rstrip s); simpl; [destruct (is_space c)|]; reflexivity.
Qed.

Lemma lower_strip (s : string) : lower (strip s) = strip (lower s).
Proof. unfold strip. now rewrite lower_rstrip, lower_lstrip. Qed.

(** A phrase whose first character is not white space survives [lstrip]. *)
Lemma contains_lstrip (c : ascii) (k s : string) :
  is_space c = false ->
  contains (String c k) s = true -> contains (String c k) (lstrip s) = true.
Proof.
  intros Hc. induction s as [|d s IH]; intros Hin; [exact Hin|].
  simpl lstrip. destruct (is_space d) eqn:Hd; [|exact Hin].
  apply IH. simpl in Hin. apply orb_true_iff in Hin.
  destruct Hin as [Hp|Hin]; [|exact Hin].
  destruct (ascii_dec c d) as [->|]; [congruence | discriminate].
Qed.

Lemma rstrip_nonempty_prefix (k s : string) :
  ends_solid k = true -> String.prefix k s = true ->
  String.prefix k (rstrip s) = true.
Proof.
  revert s. induction k as [|c k IH]; intros s He Hp; [discriminate|].
  destruct s as [|d s]; [discriminate|].
  simpl in Hp. destruct (ascii_dec c d) as [<-|]; [|discriminate].
  destruct k as [|c' k].
  - simpl in He. apply negb_true_iff in He. simpl. rewrite He.
    destruct (rstrip s); simpl; destruct (ascii_dec c c); try reflexivity;
      try (now elim n); apply prefix_nil.
  - assert (Hr : String.prefix (String c' k) (rstrip s) = true)
      by (apply IH; [exact He | exact Hp]).
    simpl rstrip. destruct (rstrip s) as [|e r]; [discriminate|].
    simpl. destruct (ascii_dec c c) as [_|n]; [exact Hr | now elim n].
Qed.

Lemma contains_rstrip (k s : string) :
  ends_solid k = true ->
  contains k s = true -> contains k (rstrip s) = true.
Proof.
  intros He. induction s as [|d s IH]; intros Hin.
  - destruct k; [discriminate He | discriminate Hin].
  - simpl in Hin. apply orb_true_iff in Hin. destruct Hin as [Hp|Hin].
    + apply contains_prefix. now apply rstrip_nonempty_prefix.
    + specialize (IH Hin). simpl rstrip.
      destruct (rstrip s) as [|e r] eqn:Hr.
      * destruct k; [discriminate He | discriminate IH].
      * now apply contains_cons.
Qed.

(** A phrase that neither starts nor ends with white space survives
    [strip]. *)
Lemma contains_strip (c : ascii) (k s : string) :
  is_space c = false -> ends_solid (String c k) = true ->
  contains (String c k) s = true -> contains (String c k) (strip s) = true.
Proof.
  intros Hc He Hin. unfold strip.
  apply contains_rstrip; [exact He|]. now apply contains_lstrip.
Qed.

Lemma contains_nonempty (c : ascii) (k s : string) :
  contains (String c k) s = true -> truthy s = true.
Proof. destruct s; [discriminate | reflexivity]. Qed.

End PyFacts.

#[global] Instance string_key_laws : PyKeyLaws string.
Proof. exact String.eqb_spec. Qed.

#[global] Instance backup_key_laws : PyKeyLaws PrivacyTools.backup_key.
Proof.
  intros [[r1 p1] n1] [[r2 p2] n2]. simpl.
  destruct (Z.eqb_spec r1 r2), (String.eqb_spec p1 p2), (String.eqb_spec n1 n2);
    simpl; constructor; congruence.
Qed.

Section DictFacts.

Context {K V : Type} `{PyKeyLaws K}.

Implicit Types (d : dict K V) (k : K) (v : V).

Lemma key_eqb_refl k : key_eqb k k = true.
Proof. destruct (key_eqb_spec k k); [reflexivity | congruence]. Qed.

Lemma key_eqb_neq k k' : k <> k' -> key_eqb k k' = false.
Proof. intros Hne. destruct (key_eqb_spec k k'); [contradiction | reflexivity]. Qed.

Lemma dict_get_set_eq d k v : dict_get k (dict_set k v d) = Some v.
Proof.
  induction d as [|[k' v'] d IH]; simpl.
  - now rewrite key_eqb_refl.
  - destruct (key_eqb_spec k' k) as [->|Hne]; simpl.
    + now rewrite key_eqb_refl.
    + now rewrite (key_eqb_neq Hne).
Qed.

Lemma dict_get_set_ne d k k' v :
  k <> k' -> dict_get k' (dict_set k v d) = dict_get k' d.
Proof.
  intros Hne. induction d as [|[k0 v0] d IH]; simpl.
  - now rewrite (key_eqb_neq Hne).
  - destruct (key_eqb_spec k0 k) as [->|Hne0]; simpl.
    + now rewrite (key_eqb_neq Hne).
    + now rewrite IH.
Qed.

Lemma dict_mem_set_same d k v : dict_mem k (dict_set k v d) = true.
Proof. unfold dict_mem. now rewrite dict_get_set_eq. Qed.

(** Assignment never removes a key. *)
Lemma dict_mem_set_mono d k k' v :
  dict_mem k' d = true -> dict_mem k' (dict_set k v d) = true.
Proof.
  intros Hm. destruct (key_eqb_spec k k') as [->|Hne].
  - apply dict_mem_set_same.
  - unfold dict_mem in *. now rewrite dict_get_set_ne.
Qed.

Lemma dict_mem_keys d k : dict_mem k d = true <-> In k (dict_keys d).
Proof.
  unfold dict_mem. induction d as [|[k' v'] d IH]; simpl.
  - split; [discriminate | contradiction].
  - destruct (key_eqb_spec k' k) as [->|Hne].
    + split; auto.
    + rewrite IH. split; [auto | intros [Heq|Hin]; [contradiction | exact Hin]].
Qed.

Lemma dict_keys_set d k v :
  dict_keys (dict_set k v d) =
  if dict_mem k d then dict_keys d else (dict_keys d ++ [k])%list.
Proof.
  unfold dict_mem. induction d as [|[k' v'] d IH]; simpl; [reflexivity|].
  destruct (key_eqb_spec k' k) as [->|Hne]; simpl; [reflexivity|].
  rewrite IH. now destruct (dict_get k d).
Qed.

Lemma dict_set_NoDup d k v :
  NoDup (dict_keys d) -> NoDup (dict_keys (dict_set k v d)).
Proof.
  intros Hnd. rewrite dict_keys_set. destruct (dict_mem k d) eqn:Hm; [exact Hnd|].
  apply NoDup_app; [exact Hnd | repeat constructor; intros [] |].
  intros x Hx [<-|[]]. apply dict_mem_keys in Hx. congruence.
Qed.

Lemma dict_get_In d k v : dict_get k d = Some v -> In (k, v) d.
Proof.
  induction d as [|[k' v'] d IH]; simpl; [discriminate|].
  destruct (key_eqb_spec k' k) as [->|Hne].
  - intros [= ->]. now left.
  - intros Hg. right. now apply IH.
Qed.

Lemma dict_In_unique d k v v' :
  NoDup (dict_keys d) -> In (k, v) d -> In (k, v') d -> v = v'.
Proof.
  induction d as [|[k0 v0] d IH]; intros Hnd Hin Hin'; [contradiction|].
  inversion Hnd as [|? ? Hnotin Hnd']; subst.
  assert (Hkey : forall w, In (k, w) d -> In k (dict_keys d)).
  { intros w Hw. apply in_map_iff. now exists (k, w). }
  destruct Hin as [Heq|Hin], Hin' as [Heq'|Hin'].
  - congruence.
  - injection Heq as -> ->. elim Hnotin. eauto.
  - injection Heq' as -> ->. elim Hnotin. eauto.
  - now apply IH.
Qed.

Lemma dict_set_Forall (P : K * V -> Prop) d k v :
  Forall P d -> (forall k0, k0 = k -> P (k0, v)) -> Forall P (dict_set k v d).
Proof.
  intros Hall Hnew. induction Hall as [|[k' v'] d Hx Hd IH]; simpl.
  - constructor; [now apply Hnew | constructor].
  - destruct (key_eqb_spec k' k) as [Heq|Hne].
    + constructor; [now apply Hnew | exact Hd].
    + constructor; assumption.
Qed.

End DictFacts.

(* ===================================================================== *)
(** * The action catalog *)
(* ===================================================================== *)

Section SortFacts.

Context {A : Type} (le : A -> A -> bool).

Lemma insert_by_perm (a : A) (l : list A) :
  Permutation (insert_by le a l) (a :: l).
Proof.
  induction l as [|b l IH]; simpl; [reflexivity|].
  destruct (le a b); [reflexivity|].
  rewrite IH. apply perm_swap.
Qed.

(** [sorted] returns a rearrangement of its argument. *)
Lemma py_sorted_perm (l : list A) : Permutation (py_sorted le l) l.
Proof.
  induction l as [|a l IH]; simpl; [reflexivity|].
  rewrite insert_by_perm. now constructor.
Qed.

Lemma filter_length_perm (f : A -> bool) (l l' : list A) :
  Permutation l l' -> List.length (filter f l) = List.length (filter f l').
Proof.
  induction 1 as [|x l l' _ IH|x y l|l l' l'' _ IH1 _ IH2]; simpl.
  - reflexivity.
  - destruct (f x); simpl; congruence.
  - destruct (f x), (f y); reflexivity.
  - congruence.
Qed.

End SortFacts.

Section CatalogFacts.

Context {W : Type}.

Implicit Types (st : state W) (d : dict string (Action W)) (a : Action W).

Lemma catalog_ok_nil : catalog_ok (@nil (string * Action W)).
Proof. split; constructor. Qed.

Lemma catalog_ok_set d a :
  catalog_ok d -> catalog_ok (dict_set (id a) a d).
Proof.
  intros [Hnd Hall]. split.
  - now apply dict_set_NoDup.
  - apply dict_set_Forall; [exact Hall|]. intros k0 ->. reflexivity.
Qed.

Lemma count_id_values d (aid : string) :
  catalog_ok d ->
  count_id aid (dict_values d) = if dict_mem aid d then 1 else 0.
Proof.
  unfold count_id, dict_mem.
  induction d as [|[k a] d IH]; intros [Hnd Hall]; [reflexivity|].
  inversion Hnd as [|? ? Hnotin Hnd']; subst.
  inversion Hall as [|? ? Hid Hall']; subst. simpl in Hid.
  specialize (IH (conj Hnd' Hall')).
  simpl. rewrite Hid. change (key_eqb k aid) with (String.eqb k aid).
  destruct (String.eqb_spec k aid) as [->|Hne]; [|exact IH].
  simpl. rewrite IH.
  destruct (dict_get aid d) eqn:Hg; [|reflexivity].
  exfalso. apply Hnotin. apply dict_mem_keys. unfold dict_mem. now rewrite Hg.
Qed.

Lemma count_id_list_actions st (aid : string) :
  count_id aid (list_actions st) = count_id aid (dict_values (_ACTIONS st)).
Proof. apply filter_length_perm, py_sorted_perm. Qed.

Lemma In_list_actions st a :
  In a (list_actions st) <-> In a (dict_values (_ACTIONS st)).
Proof.
  split; apply Permutation_in; [|symmetry]; apply py_sorted_perm.
Qed.

(** What one registration does to the registry. *)
Lemma register_action_registry st aid nm desc grp f dg :
  _ACTIONS (snd (register_action aid nm desc grp f dg st)) =
  dict_set aid
    {| id := aid; name := nm; description := desc; group := grp;
       dangerous := dg; func := f |}
    (_ACTIONS st).
Proof. unfold register_action. now destruct (dict_mem aid (_ACTIONS st)). Qed.

Lemma register_action_ok st aid nm desc grp f dg :
  catalog_ok (_ACTIONS st) ->
  catalog_ok (_ACTIONS (snd (register_action aid nm desc grp f dg st))).
Proof.
  intros Hok. rewrite register_action_registry.
  now apply (catalog_ok_set
    {| id := aid; name := nm; description := desc; group := grp;
       dangerous := dg; func := f |}).
Qed.

Lemma do_register_registry (r : registration) st :
  _ACTIONS (do_register r st) =
  dict_set (reg_id r)
    {| id := reg_id r; name := reg_name r; description := reg_description r;
       group := reg_group r; dangerous := reg_dangerous r;
       func := reg_func r |}
    (_ACTIONS st).
Proof. apply register_action_registry. Qed.

Lemma do_register_ok (r : registration) st :
  catalog_ok (_ACTIONS st) -> catalog_ok (_ACTIONS (do_register r st)).
Proof. apply register_action_ok. Qed.

Lemma do_register_mem (r : registration) st (aid : string) :
  dict_mem aid (_ACTIONS st) = true ->
  dict_mem aid (_ACTIONS (do_register r st)) = true.
Proof. rewrite do_register_registry. apply dict_mem_set_mono. Qed.

Lemma do_register_world (r : registration) st :
  world (do_register r st) = world st.
Proof.
  unfold do_register, register_action.
  now destruct (dict_mem (reg_id r) (_ACTIONS st)).
Qed.

End CatalogFacts.

(** C8.  [register_action] is a total function, so it returns for all
    arguments.  When the id is already registered, the call returns the new
    action, a lookup of the id afterwards gives that new action,
    [list_actions] holds exactly one entry for the id and that entry is the
    new action, and the two records handed to the logger are the overwrite
    warning followed by the debug line. *)
Theorem register_action_replaces (W : Type) (st : state W)
    (action_id nm desc grp : string) (f : handler W) (dg : bool) :
  catalog_ok (_ACTIONS st) ->
  dict_mem action_id (_ACTIONS st) = true ->
  let new_action :=
    {| id := action_id; name := nm; description := desc; group := grp;
       dangerous := dg; func := f |} in
  let result := register_action action_id nm desc grp f dg st in
  fst result = new_action /\
  get_action_by_id action_id (snd result) = Some new_action /\
  count_id action_id (list_actions (snd result)) = 1 /\
  (forall a, In a (list_actions (snd result)) -> id a = action_id ->
             a = new_action) /\
  log (snd result) =
    (log st ++
     [Logged WARNING "Overwriting existing action with id '%s'" [action_id];
      Logged DEBUG "Registered action '%s' (%s)" [action_id; nm]])%list /\
  world (snd result) = world st.
Proof.
  intros Hok Hmem new_action result.
  assert (Hreg : _ACTIONS (snd result) = dict_set action_id new_action (_ACTIONS st))
    by apply register_action_registry.
  assert (Hok' : catalog_ok (_ACTIONS (snd result)))
    by now apply register_action_ok.
  assert (Hget : get_action_by_id action_id (snd result) = Some new_action).
  { unfold get_action_by_id. rewrite Hreg. apply dict_get_set_eq. }
  refine (conj _ (conj Hget (conj _ (conj _ (conj _ _))))).
  - reflexivity.
  - rewrite count_id_list_actions, count_id_values by exact Hok'.
    rewrite Hreg, dict_mem_set_same. reflexivity.
  - intros a Hin Hid. apply In_list_actions in Hin.
    unfold dict_values in Hin. apply in_map_iff in Hin.
    destruct Hin as [[k a'] [Heq Hin]]. simpl in Heq. subst a'.
    destruct Hok' as [Hnd Hall].
    pose proof (proj1 (Forall_forall _ _) Hall _ Hin) as Hk. simpl in Hk.
    rewrite <- Hk, Hid in Hin.
    unfold get_action_by_id in Hget. apply dict_get_In in Hget.
    exact (dict_In_unique _ _ _ _ Hnd Hin Hget).
  - unfold result, register_action. rewrite Hmem. simpl.
    now rewrite <- app_assoc.
  - unfold result, register_action. now rewrite Hmem.
Qed.

Section PluginFacts.

Context {W : Type}.

Implicit Types (st : state W) (r : @registration W).

Lemma extends_refl st : extends st st.
Proof. repeat split; auto. Qed.

Lemma extends_trans st1 st2 st3 :
  extends st1 st2 -> extends st2 st3 -> extends st1 st3.
Proof. intros (A1 & B1 & C1) (A2 & B2 & C2). repeat split; auto. Qed.

Lemma extends_emit (rec : log_record) st : extends st (emit rec st).
Proof.
  repeat split; auto. intros r Hr. simpl. apply in_or_app. now left.
Qed.

Lemma In_log_emit (rec : log_record) st : In rec (log (emit rec st)).
Proof. simpl. apply in_or_app. right. now left. Qed.

Lemma has_entry_set (k : string) (a : Action W) (d : dict string (Action W)) :
  has_entry k d -> has_entry k (dict_set (id a) a d).
Proof.
  intros (a0 & Hg & Hid). destruct (String.eqb_spec (id a) k) as [Heq|Hne].
  - exists a. split; [|exact Heq]. rewrite <- Heq. apply dict_get_set_eq.
  - exists a0. split; [|exact Hid]. now rewrite dict_get_set_ne.
Qed.

Lemma has_entry_listed (k : string) st :
  has_entry k (_ACTIONS st) -> exists a, In a (list_actions st) /\ id a = k.
Proof.
  intros (a & Hg & Hid). exists a. split; [|exact Hid].
  apply In_list_actions. apply dict_get_In in Hg.
  unfold dict_values. apply in_map_iff. now exists (k, a).
Qed.

Lemma extends_do_register r st : extends st (do_register r st).
Proof.
  split; [|split].
  - intros k. apply do_register_mem.
  - intros k Hk. rewrite do_register_registry.
    now apply (has_entry_set
      {| id := reg_id r; name := reg_name r; description := reg_description r;
         group := reg_group r; dangerous := reg_dangerous r;
         func := reg_func r |}).
  - intros rec Hr. unfold do_register, register_action.
    destruct (dict_mem (reg_id r) (_ACTIONS st)); simpl;
      repeat (apply in_or_app; left); exact Hr.
Qed.

Lemma do_register_has_entry r st : has_entry (reg_id r) (_ACTIONS (do_register r st)).
Proof.
  rewrite do_register_registry. eexists. split; [apply dict_get_set_eq | reflexivity].
Qed.

Lemma extends_registrations (rs : list registration) st :
  extends st (fold_left (fun s r => do_register r s) rs st).
Proof.
  revert st. induction rs as [|r rs IH]; intros st; simpl.
  - apply extends_refl.
  - eapply extends_trans; [apply extends_do_register | apply IH].
Qed.

(** Every call a plugin makes through the facade leaves its entry. *)
Lemma registrations_have_entries (rs : list registration) st r :
  In r rs ->
  has_entry (reg_id r)
    (_ACTIONS (fold_left (fun s r => facade_register_action r s) rs st)).
Proof.
  revert st. induction rs as [|r0 rs IH]; intros st Hin; [contradiction|].
  simpl. destruct Hin as [->|Hin]; [|now apply IH].
  apply (extends_registrations rs (do_register r st)), do_register_has_entry.
Qed.

Section Loader.

Variable package : string.
Variable import_package : string -> imported (list string).
Variable import_module : string -> imported (@plugin_module W).

Lemma extends_load_one (package_name mod_name : string) st :
  extends st (load_one import_module package_name mod_name st).
Proof.
  unfold load_one. destruct (starts_with_underscore mod_name); [apply extends_refl|].
  destruct (import_module _) as [m|e|e]; try apply extends_emit.
  destruct (register m) as [rf|]; [|apply extends_refl].
  eapply extends_trans; [apply (extends_registrations (calls rf))|].
  destruct (raises rf); apply extends_emit.
Qed.

Lemma extends_load_all (package_name : string) (mod_names : list string) st :
  extends st
    (fold_left (fun s m => load_one import_module package_name m s) mod_names st).
Proof.
  revert st. induction mod_names as [|m ms IH]; intros st; simpl.
  - apply extends_refl.
  - eapply extends_trans; [apply extends_load_one | apply IH].
Qed.

Lemma extends_load_plugins st :
  extends st (load_plugins package import_package import_module st).
Proof.
  unfold load_plugins. destruct (_get_plugins_package_name package).
  - destruct (import_package s); try apply extends_emit. apply extends_load_all.
  - apply extends_emit.
Qed.

(** Loading plugins keeps the representation invariant. *)
Lemma load_plugins_ok st :
  catalog_ok (_ACTIONS st) ->
  catalog_ok (_ACTIONS (load_plugins package import_package import_module st)).
Proof.
  assert (Hreg : forall rs s, catalog_ok (_ACTIONS s) ->
            catalog_ok (_ACTIONS (fold_left (fun s r => facade_register_action r s) rs s))).
  { induction rs as [|r rs IH]; intros s Hs; simpl; [exact Hs|].
    apply IH. now apply do_register_ok. }
  assert (Hone : forall pn m s, catalog_ok (_ACTIONS s) ->
            catalog_ok (_ACTIONS (load_one import_module pn m s))).
  { intros pn m s Hs. unfold load_one.
    destruct (starts_with_underscore m); [exact Hs|].
    destruct (import_module _) as [pm|e|e]; try exact Hs.
    destruct (register pm) as [rf|]; [|exact Hs].
    specialize (Hreg (calls rf) s Hs). now destruct (raises rf). }
  intros Hok. unfold load_plugins.
  destruct (_get_plugins_package_name package) as [pn|]; [|exact Hok].
  destruct (import_package pn) as [ms|e|e]; try exact Hok.
  revert st Hok. induction ms as [|m ms IH]; intros st Hok; simpl; [exact Hok|].
  apply IH. now apply Hone.
Qed.

Lemma module_outcome_mono (full_name : string) st st' :
  extends st st' ->
  module_outcome import_module (fun k s => has_entry k (_ACTIONS s)) full_name st ->
  module_outcome import_module (fun k s => has_entry k (_ACTIONS s)) full_name st'.
Proof.
  intros (_ & Hent & Hlog). unfold module_outcome.
  destruct (import_module full_name) as [m|e|e]; auto.
  destruct (register m) as [rf|]; auto.
  intros [Hcalls Hend]. split; [intros r Hr; apply Hent; now apply Hcalls|].
  destruct (raises rf); auto.
Qed.

Lemma load_one_outcome (package_name mod_name : string) st :
  starts_with_underscore mod_name = false ->
  module_outcome import_module (fun k s => has_entry k (_ACTIONS s))
    (package_name ++ "." ++ mod_name)
    (load_one import_module package_name mod_name st).
Proof.
  intros Hpub. unfold module_outcome, load_one. rewrite Hpub.
  destruct (import_module _) as [m|e|e]; try apply In_log_emit.
  destruct (register m) as [rf|]; [|exact I].
  split.
  - intros r Hr.
    assert (He : has_entry (reg_id r)
              (_ACTIONS (fold_left (fun s r => facade_register_action r s)
                           (calls rf) st)))
      by now apply registrations_have_entries.
    now destruct (raises rf).
  - destruct (raises rf); apply In_log_emit.
Qed.

Lemma load_all_outcome (package_name mod_name : string)
    (mod_names : list string) st :
  In mod_name mod_names ->
  starts_with_underscore mod_name = false ->
  module_outcome import_module (fun k s => has_entry k (_ACTIONS s))
    (package_name ++ "." ++ mod_name)
    (fold_left (fun s m => load_one import_module package_name m s) mod_names st).
Proof.
  revert st. induction mod_names as [|m ms IH]; intros st Hin Hpub; [contradiction|].
  simpl. destruct Hin as [->|Hin]; [|now apply IH].
  eapply module_outcome_mono; [apply extends_load_all|].
  now apply load_one_outcome.
Qed.

End Loader.

End PluginFacts.

(** C7.  Loading plugins never removes a registered id, and every
    discovered public module leaves its mark whatever the other modules do:
    a failed import is recorded as a warning; a module with a [register]
    entry point has every action it registered through the facade present
    in [list_actions()], and the way [register] ended (normally or by an
    exception) is recorded.  So a plugin whose [register] raises does not
    keep the actions of a later plugin out of [list_actions()]. *)
Theorem load_plugins_isolates_failures (W : Type) (package : string)
    (import_package : string -> imported (list string))
    (import_module : string -> imported (@plugin_module W))
    (st : state W) (package_name : string) (mod_names : list string) :
  _get_plugins_package_name package = Some package_name ->
  import_package package_name = Imported mod_names ->
  let st' := load_plugins package import_package import_module st in
  (forall aid, dict_mem aid (_ACTIONS st) = true ->
               dict_mem aid (_ACTIONS st') = true) /\
  (forall mod_name,
     In mod_name mod_names -> starts_with_underscore mod_name = false ->
     module_outcome import_module (@listed W)
       (package_name ++ "." ++ mod_name) st').
Proof.
  intros Hname Hpkg st'. split.
  - apply (extends_load_plugins package import_package import_module st).
  - intros mod_name Hin Hpub.
    pose proof (load_all_outcome import_module package_name mod_name
                  mod_names st Hin Hpub) as Hout.
    unfold st', load_plugins. rewrite Hname, Hpkg.
    unfold module_outcome in *.
    destruct (import_module _) as [m|e|e]; auto.
    destruct (register m) as [rf|]; auto.
    destruct Hout as [Hcalls Hend]. split; [|exact Hend].
    intros r Hr. apply has_entry_listed. now apply Hcalls.
Qed.

(* ===================================================================== *)
(** * The request router *)
(* ===================================================================== *)

Section RouterFacts.

Context {W : Type}.

Implicit Types (ACTIONS : dict string (Action W)) (st : state W).

Lemma In_py_append (A : Type) (x y : A) (l : list A) :
  In x (py_append l y) <-> In x l \/ x = y.
Proof.
  unfold py_append. rewrite in_app_iff. simpl. intuition congruence.
Qed.

Lemma In_append_if (c : bool) (aid x : string) (l : list string) :
  In x (append_if c aid l) -> In x l \/ x = aid.
Proof.
  unfold append_if. destruct c; [apply In_py_append | now left].
Qed.

(** The Windows-Update-cache branch of the cleanup chain is never taken:
    its condition needs "cache", which the first branch already catches. *)
Lemma cleanup_rules_choice (text : string) :
  cleanup_rules text [] = ["cleanup_recommended"] \/
  cleanup_rules text [] = ["cleanup_prefetch"] \/
  cleanup_rules text [] = ["cleanup_temp"] \/
  cleanup_rules text [] = [].
Proof.
  unfold cleanup_rules.
  destruct (any_in _ text) eqn:Hany; [now left|].
  destruct (contains "prefetch" text); [now right; left|].
  assert (Hcache : contains "cache" text = false).
  { apply (any_in_false _ "cache" _ Hany). simpl. tauto. }
  rewrite Hcache, andb_false_r.
  destruct (contains "temp" text || contains "temporary" text); tauto.
Qed.

Lemma In_privacy_rules (text x : string) (l : list string) :
  In x (privacy_rules text l) ->
  In x l \/ x = "privacy_strict" \/ x = "privacy_restore_defaults"
  \/ x = "privacy_recommended".
Proof.
  unfold privacy_rules.
  repeat match goal with
         | |- context [if ?c then _ else _] => destruct c
         end; rewrite ?In_py_append; tauto.
Qed.

Lemma In_generic_rules (text x : string) (l : list string) :
  In x (generic_rules text l) ->
  In x l \/ x = "cleanup_recommended" \/ x = "health_full".
Proof.
  unfold generic_rules. destruct l; [|now left].
  repeat match goal with
         | |- context [if ?c then _ else _] => destruct c
         end; rewrite ?In_py_append; tauto.
Qed.

Lemma fallback_selected_never_update_cache (text : string) :
  ~ In "cleanup_windows_update_cache" (fallback_selected text).
Proof.
  unfold fallback_selected. intros Hin.
  apply In_generic_rules in Hin.
  destruct Hin as [Hin|[Hin|Hin]]; try discriminate Hin.
  apply In_privacy_rules in Hin.
  destruct Hin as [Hin|[Hin|[Hin|Hin]]]; try discriminate Hin.
  repeat (apply In_append_if in Hin;
          destruct Hin as [Hin|Hin]; [|discriminate Hin]).
  destruct (cleanup_rules_choice text) as [E|[E|[E|E]]]; rewrite E in Hin;
    simpl in Hin; intuition discriminate.
Qed.

(** The de-duplication loop only returns ids it was given. *)
Lemma dedup_valid_In ACTIONS (selected seen result : list string) (x : string) :
  In x (dedup_valid ACTIONS selected seen result) ->
  In x result \/ In x selected.
Proof.
  revert seen result. induction selected as [|aid rest IH]; intros seen result Hin.
  - now left.
  - simpl in Hin.
    destruct (dict_mem aid ACTIONS && negb (existsb (String.eqb aid) seen)).
    + apply IH in Hin. rewrite In_py_append in Hin. simpl. intuition auto.
    + apply IH in Hin. simpl. tauto.
Qed.

(** ... only ids of the catalog ... *)
Lemma dedup_valid_mem ACTIONS (selected seen result : list string) (x : string) :
  (forall y, In y result -> dict_mem y ACTIONS = true) ->
  In x (dedup_valid ACTIONS selected seen result) ->
  dict_mem x ACTIONS = true.
Proof.
  revert seen result. induction selected as [|aid rest IH]; intros seen result Hres Hin.
  - now apply Hres.
  - simpl in Hin.
    destruct (dict_mem aid ACTIONS) eqn:Hm; simpl in Hin;
      [destruct (negb (existsb (String.eqb aid) seen))|]; simpl in Hin;
      apply IH in Hin; auto.
    intros y Hy. apply In_py_append in Hy. destruct Hy as [Hy| ->]; auto.
Qed.

(** ... and each of them once. *)
Lemma dedup_valid_NoDup ACTIONS (selected seen result : list string) :
  NoDup result -> (forall y, In y result -> In y seen) ->
  NoDup (dedup_valid ACTIONS selected seen result).
Proof.
  revert seen result.
  induction selected as [|aid rest IH]; intros seen result Hnd Hseen; [exact Hnd|].
  simpl. destruct (dict_mem aid ACTIONS); simpl; [|now apply IH].
  destruct (existsb (String.eqb aid) seen) eqn:Hex; simpl; [now apply IH|].
  apply IH.
  - unfold py_append. apply NoDup_app; [exact Hnd | repeat constructor; intros [] |].
    intros y Hy [<-|[]].
    assert (Ht : existsb (String.eqb aid) seen = true).
    { apply existsb_exists. exists aid. split; [now apply Hseen | apply String.eqb_refl]. }
    congruence.
  - intros y Hy. apply In_py_append in Hy. simpl. destruct Hy as [Hy| ->]; auto.
Qed.

Lemma dedup_valid_result ACTIONS (selected seen result : list string) :
  dedup_valid ACTIONS selected seen result =
  (result ++ dedup_valid ACTIONS selected seen [])%list.
Proof.
  revert seen result. induction selected as [|aid rest IH]; intros seen result; simpl.
  - now rewrite app_nil_r.
  - destruct (dict_mem aid ACTIONS && negb (existsb (String.eqb aid) seen)); [|apply IH].
    rewrite (IH _ (py_append result aid)), (IH _ (py_append [] aid)).
    unfold py_append. now rewrite <- app_assoc.
Qed.

(** The keyword strategy returns ids of the catalog, each at most once. *)
Lemma fallback_ids_valid ACTIONS (request x : string) :
  In x (_fallback_choose_action_ids ACTIONS request) -> dict_mem x ACTIONS = true.
Proof. apply dedup_valid_mem. intros y Hy. destruct Hy. Qed.

Lemma fallback_ids_NoDup ACTIONS (request : string) :
  NoDup (_fallback_choose_action_ids ACTIONS request).
Proof. apply dedup_valid_NoDup; [constructor | intros y Hy; destruct Hy]. Qed.

(** The remote strategy returns ids of the catalog. *)
Lemma valid_ids_mem ACTIONS (data : list json) (x : string) :
  In x (valid_ids ACTIONS data) -> dict_mem x ACTIONS = true.
Proof.
  induction data as [|j data IH]; [intros []|].
  destruct j; simpl; auto.
  destruct (dict_mem s ACTIONS) eqn:Hm; auto.
  intros [<-|Hin]; auto.
Qed.

(** Every action of a plan is an entry of the catalog. *)
Lemma lookup_all_In ACTIONS (action_ids : list string) (a : Action W) :
  In a (lookup_all ACTIONS action_ids) ->
  exists aid, In aid action_ids /\ dict_get aid ACTIONS = Some a.
Proof.
  induction action_ids as [|aid rest IH]; [intros []|]. simpl.
  destruct (dict_get aid ACTIONS) eqn:Hg.
  - intros [<-|Hin].
    + exists aid. auto.
    + destruct (IH Hin) as (k & Hk & Hget). exists k. auto.
  - intros Hin. destruct (IH Hin) as (k & Hk & Hget). exists k. auto.
Qed.

End RouterFacts.

Section RouterPlans.

Context {W : Type}.

Implicit Types (ACTIONS : dict string (Action W)) (st : state W).

Lemma append_if_cons (c : bool) (aid x : string) (l : list string) :
  append_if c aid (x :: l) = x :: append_if c aid l.
Proof. now destruct c. Qed.

Lemma privacy_rules_cons (text x : string) (l : list string) :
  privacy_rules text (x :: l) = x :: privacy_rules text l.
Proof.
  unfold privacy_rules.
  repeat match goal with
         | |- context [if ?c then _ else _] => destruct c
         end; reflexivity.
Qed.

(** Once the cleanup chain has put an id first, it stays first. *)
Lemma fallback_selected_head (text : string) :
  any_in generic_cleanup_phrases text = true ->
  exists rest, fallback_selected text = "cleanup_recommended" :: rest.
Proof.
  intros Hany.
  assert (Hc : cleanup_rules text [] = ["cleanup_recommended"]).
  { unfold cleanup_rules.
    change (any_in ["cleanup"; "clean up"; "clean my pc"; "temp"; "cache";
                    "junk"; "space"] text)
      with (any_in generic_cleanup_phrases text).
    now rewrite Hany. }
  unfold fallback_selected. cbv zeta. rewrite Hc.
  rewrite !append_if_cons, privacy_rules_cons. simpl. eauto.
Qed.

(** Stripping the request keeps every generic cleanup phrase in it. *)
Lemma generic_phrase_survives_strip (request : string) :
  any_in generic_cleanup_phrases (lower request) = true ->
  any_in generic_cleanup_phrases (lower (strip request)) = true /\
  truthy (strip request) = true.
Proof.
  intros Hany. unfold any_in in Hany. apply existsb_exists in Hany.
  destruct Hany as (k & Hk & Hc).
  assert (Hs : contains k (lower (strip request)) = true).
  { rewrite lower_strip. simpl in Hk.
    repeat (destruct Hk as [<-|Hk];
            [apply contains_strip; [reflexivity | reflexivity | exact Hc]|]).
    contradiction. }
  split.
  - now apply (any_in_true generic_cleanup_phrases k).
  - simpl in Hk.
    assert (Ht : truthy (lower (strip request)) = true).
    { repeat (destruct Hk as [<-|Hk]; [now apply contains_nonempty in Hs|]).
      contradiction. }
    destruct (strip request); [discriminate Ht | reflexivity].
Qed.

End RouterPlans.

(** C5.  With the remote strategy disabled, a request whose lower-cased
    text contains one of the generic cleanup phrases (cleanup, clean up,
    clean my pc, temp, cache, junk, space) resolves to a plan whose first
    element is the action registered as [cleanup_recommended]. *)
Theorem generic_cleanup_resolves_to_recommended (W : Type) (st : state W)
    (request : string) (a : Action W) :
  any_in generic_cleanup_phrases (lower request) = true ->
  dict_get "cleanup_recommended" (_ACTIONS st) = Some a ->
  exists rest, fst (choose_actions_for_request None request st) = a :: rest.
Proof.
  intros Hany Hget.
  destruct (generic_phrase_survives_strip request Hany) as [Hany' Htruthy].
  destruct (fallback_selected_head _ Hany') as [sel Hsel].
  unfold choose_actions_for_request. rewrite Htruthy. simpl.
  unfold _fallback_choose_action_ids. rewrite Hsel. simpl.
  unfold dict_mem. rewrite Hget. simpl.
  rewrite dedup_valid_result. simpl. rewrite Hget.
  destruct (lookup_all _ _); simpl; eauto.
Qed.

(** C1 (evaluation at the failing input).  With a remote backend that
    answers [["network_reset", "network_reset", "unknown_id"]], the plan
    returned for a request holds [network_reset] twice: the unknown id is
    dropped, the duplicate is not. *)
Theorem remote_duplicates_reach_the_plan :
  map (@id recorder)
    (fst (choose_actions_for_request duplicating_gemini
            "my wifi and dns are broken" recording_state))
  = ["network_reset"; "network_reset"].
Proof. vm_compute. reflexivity. Qed.

(** C3 (evaluation at the failing input).  No request makes the keyword
    strategy choose [cleanup_windows_update_cache]; a request that names
    the Windows Update cache resolves to [cleanup_recommended]. *)
Theorem update_cache_request_resolves_to_recommended :
  (forall (W : Type) (ACTIONS : dict string (Action W)) (request : string),
     ~ In "cleanup_windows_update_cache"
         (_fallback_choose_action_ids ACTIONS request)) /\
  contains "windows update" (lower "clear the Windows Update cache") = true /\
  contains "cache" (lower "clear the Windows Update cache") = true /\
  map (@id recorder)
    (fst (choose_actions_for_request None "clear the Windows Update cache"
            recording_state))
  = ["cleanup_recommended"].
Proof.
  split; [|repeat split; vm_compute; reflexivity].
  intros W ACTIONS request Hin.
  apply dedup_valid_In in Hin. destruct Hin as [[]|Hin].
  exact (fallback_selected_never_update_cache _ Hin).
Qed.

(** C4 (evaluation at the failing input).  With the remote strategy
    disabled, the router resolves "lock down my privacy, maximum" to the
    recommended profile and "restore my privacy settings" to the
    recommended profile as well, while the keyword interpreter of the
    command-line module maps the same two texts to the strict profile and
    to the restore action. *)
Theorem lock_down_request_resolves_to_recommended :
  map (@id recorder)
    (fst (choose_actions_for_request None "lock down my privacy, maximum"
            recording_state))
  = ["privacy_recommended"] /\
  map (@id recorder)
    (fst (choose_actions_for_request None "restore my privacy settings"
            recording_state))
  = ["privacy_recommended"] /\
  option_map (@id recorder)
    (interpret_command_keyword (_ACTIONS recording_state)
       "lock down my privacy, maximum")
  = Some "privacy_strict" /\
  option_map (@id recorder)
    (interpret_command_keyword (_ACTIONS recording_state)
       "restore my privacy settings")
  = Some "privacy_restore_defaults".
Proof. repeat split; vm_compute; reflexivity. Qed.

(* ===================================================================== *)
(** * Sequencing: aggregates and plans *)
(* ===================================================================== *)

Section Sequencing.

Context {W : Type}.

Implicit Types (w : W) (st : state W).

Lemma outcomes_in_order_names (steps : list (string * handler W)) w :
  map fst (fst (outcomes_in_order steps w)) = map fst steps.
Proof.
  revert w. induction steps as [|[n f] rest IH]; intros w; simpl; [reflexivity|].
  destruct (f w) as [o w1]. specialize (IH w1).
  destruct (outcomes_in_order rest w1) as [os w2]. simpl in *. now rewrite IH.
Qed.

Lemma kept_by_aggregate_mono (new new' : list string) (n : string) (o : outcome) :
  (forall m, In m new -> In m new') ->
  kept_by_aggregate new n o -> kept_by_aggregate new' n o.
Proof. intros Hsub. destruct o as [[r|]|e]; simpl; auto. Qed.

Lemma run_tool_loop_spec (i : string + @tools_module W)
    (func_names messages : list string) w :
  exists new,
    run_tool_loop i func_names messages w =
      ((messages ++ new)%list,
       snd (outcomes_in_order (available_steps i func_names) w)) /\
    forall n o,
      In (n, o) (fst (outcomes_in_order (available_steps i func_names) w)) ->
      kept_by_aggregate new n o.
Proof.
  revert messages w.
  induction func_names as [|fnm rest IH]; intros messages w; simpl.
  - exists []. split; [now rewrite app_nil_r | intros n o []].
  - destruct (tool (system_tools i) fnm) as [f|]; [|apply IH].
    simpl. destruct (f w) as [o1 w1] eqn:Hf.
    assert (Hstep : forall line,
      exists new,
        run_tool_loop i rest (py_append messages line) w1 =
          ((messages ++ new)%list,
           snd (outcomes_in_order (available_steps i rest) w1)) /\
        In line new /\
        forall n o,
          In (n, o) (fst (outcomes_in_order (available_steps i rest) w1)) ->
          kept_by_aggregate new n o).
    { intros line. destruct (IH (py_append messages line) w1) as (new & Hrun & Hkept).
      exists (line :: new). split; [|split].
      - rewrite Hrun. unfold py_append. now rewrite <- app_assoc.
      - now left.
      - intros n o Hin. eapply kept_by_aggregate_mono; [|now apply Hkept].
        intros m Hm. now right. }
    destruct (outcomes_in_order (available_steps i rest) w1) as [os w2] eqn:Hrest.
    simpl in *.
    destruct o1 as [result|e].
    + destruct (truthy_opt result) eqn:Ht.
      * destruct (Hstep match result with Some s => s | None => "" end)
          as (new & Hrun & Hline & Hkept).
        exists new. split; [exact Hrun|].
        intros n o [[= <- <-]|Hin]; [|now apply Hkept].
        destruct result as [r|]; simpl; auto.
      * destruct (IH messages w1) as (new & Hrun & Hkept).
        rewrite Hrest in Hrun, Hkept. simpl in *.
        exists new. split; [exact Hrun|].
        intros n o [[= <- <-]|Hin]; [|now apply Hkept].
        destruct result as [r|]; simpl in *; [congruence | exact I].
    + destruct (Hstep (fnm ++ " failed: " ++ e)) as (new & Hrun & Hline & Hkept).
      exists new. split; [exact Hrun|].
      intros n o [[= <- <-]|Hin]; [exact Hline | now apply Hkept].
Qed.

Lemma kept_by_plan_mono (results results' : list string) (n : string) (o : outcome) :
  (forall m, In m results -> In m results') ->
  kept_by_plan results n o -> kept_by_plan results' n o.
Proof.
  intros Hsub. destruct o as [[r|]|e]; simpl; auto. destruct (truthy r); auto.
Qed.

Lemma run_plan_spec (actions : list (Action W)) (results : list string) st :
  exists new,
    fst (run_plan actions results st) = (results ++ new)%list /\
    world (snd (run_plan actions results st)) =
      snd (outcomes_in_order (plan_steps actions) (world st)) /\
    forall n o,
      In (n, o) (fst (outcomes_in_order (plan_steps actions) (world st))) ->
      kept_by_plan new n o.
Proof.
  revert results st.
  induction actions as [|a rest IH]; intros results st; simpl.
  - exists []. split; [now rewrite app_nil_r | split; [reflexivity | intros n o []]].
  - destruct (func a (world st)) as [o1 w1] eqn:Hf.
    assert (Hstep : forall line st1, world st1 = w1 ->
      exists new,
        fst (run_plan rest (py_append results line) st1) = (results ++ new)%list /\
        world (snd (run_plan rest (py_append results line) st1)) =
          snd (outcomes_in_order (plan_steps rest) w1) /\
        In line new /\
        forall n o,
          In (n, o) (fst (outcomes_in_order (plan_steps rest) w1)) ->
          kept_by_plan new n o).
    { intros line st1 Hw.
      destruct (IH (py_append results line) st1) as (new & Hres & Hworld & Hkept).
      rewrite Hw in Hworld, Hkept.
      exists (line :: new). split; [|split; [exact Hworld | split]].
      - rewrite Hres. unfold py_append. now rewrite <- app_assoc.
      - now left.
      - intros n o Hin. eapply kept_by_plan_mono; [|now apply Hkept].
        intros m Hm. now right. }
    destruct (outcomes_in_order (plan_steps rest) w1) as [os w2] eqn:Hrest.
    simpl in *.
    destruct o1 as [result|e].
    + match goal with
      | |- context [run_plan rest (py_append results ?line) ?st1] =>
          destruct (Hstep line st1 eq_refl) as (new & Hres & Hworld & Hline & Hkept)
      end.
      exists new. split; [exact Hres | split; [exact Hworld|]].
      intros n o [[= <- <-]|Hin]; [|now apply Hkept].
      destruct result as [r|]; simpl; [destruct (truthy r)|]; exact Hline.
    + match goal with
      | |- context [run_plan rest (py_append results ?line) ?st1] =>
          destruct (Hstep line st1 eq_refl) as (new & Hres & Hworld & Hline & Hkept)
      end.
      exists new. split; [exact Hres | split; [exact Hworld|]].
      intros n o [[= <- <-]|Hin]; [exact Hline | now apply Hkept].
Qed.

End Sequencing.

Section RouterWorld.

Context {W : Type}.

Lemma choose_actions_world (gemini : option (string -> gemini_run))
    (request : string) (st : state W) :
  world (snd (choose_actions_for_request gemini request st)) = world st.
Proof.
  unfold choose_actions_for_request, _gemini_choose_action_ids.
  destruct (negb (truthy (strip request))); [reflexivity|].
  destruct gemini as [call|]; simpl.
  - destruct (configure_failed (call (strip request)));
      destruct (reply (call (strip request))) as [e|[]]; simpl;
      repeat match goal with
             | |- context [match ?l with [] => _ | _ :: _ => _ end] => destruct l
             end; reflexivity.
  - destruct (lookup_all _ _); reflexivity.
Qed.

Lemma gemini_registry (gemini : option (string -> gemini_run))
    (request : string) (st : state W) :
  _ACTIONS (snd (_gemini_choose_action_ids gemini request st)) = _ACTIONS st.
Proof.
  unfold _gemini_choose_action_ids. destruct gemini as [call|]; [|reflexivity].
  destruct (configure_failed (call request));
    destruct (reply (call request)) as [e|[]]; reflexivity.
Qed.

(** Whichever strategy supplied the ids, every action of the plan is an
    entry of the catalog. *)
Lemma plan_actions_are_catalog_entries (gemini : option (string -> gemini_run))
    (request : string) (st : state W) (a : Action W) :
  In a (fst (choose_actions_for_request gemini request st)) ->
  exists aid, dict_get aid (_ACTIONS st) = Some a.
Proof.
  unfold choose_actions_for_request.
  destruct (negb (truthy (strip request))); [intros []|].
  pose proof (gemini_registry gemini (strip request) st) as Hreg.
  destruct (_gemini_choose_action_ids gemini (strip request) st) as [ids st1].
  cbn [fst snd] in *. intros Hin. rewrite Hreg in Hin.
  apply lookup_all_In in Hin. destruct Hin as (aid & _ & Hget). now exists aid.
Qed.

End RouterWorld.


(* ===================================================================== *)
(** * The catalog of the program as shipped *)
(* ===================================================================== *)

Section ShippedCatalog.

Context {W : Type}.

Variable import_system_tools : string + @tools_module W.
Variable import_privacy_tools : string + @tools_module W.
Variable e : string.
Variable w : W.

Lemma registrations_registry (rs : list (@registration W)) (st : state W) :
  _ACTIONS (fold_left (fun s r => do_register r s) rs st) =
  fold_left (fun d r => dict_set (reg_id r) (action_of r) d) rs (_ACTIONS st).
Proof.
  revert st. induction rs as [|r rs IH]; intros st; simpl; [reflexivity|].
  now rewrite IH, do_register_registry.
Qed.

(** The registry after start-up: the sixteen built-in actions, in the order
    of their registration; the example plugin adds nothing. *)
Lemma shipped_plugins_add_nothing (st : state W) :
  _ACTIONS (load_plugins shipped_package shipped_import_package
              (shipped_import_module e) st) = _ACTIONS st.
Proof.
  unfold load_plugins.
  change (_get_plugins_package_name shipped_package)
    with (Some "ai_system_utility.plugins").
  change (shipped_import_package "ai_system_utility.plugins")
    with (@Imported (list string) ["example_cleanup"]).
  cbn [fold_left]. unfold load_one.
  change (starts_with_underscore "example_cleanup") with false.
  change (shipped_import_module e
            ("ai_system_utility.plugins" ++ "." ++ "example_cleanup"))
    with (Imported (@example_cleanup W e)).
  reflexivity.
Qed.

Lemma shipped_registry :
  _ACTIONS (shipped_state import_system_tools import_privacy_tools e w) =
  map (fun r => (reg_id r, action_of r))
    (builtin_registrations import_system_tools import_privacy_tools).
Proof.
  unfold shipped_state, module_init.
  rewrite shipped_plugins_add_nothing.
  unfold _register_builtin_actions.
  rewrite registrations_registry.
  replace (_ACTIONS
             (warn_unavailable "privacy_tools module not available: %s"
                import_privacy_tools
                (warn_unavailable "system_tools module not available: %s"
                   import_system_tools (empty_state w))))
    with (@nil (string * Action W))
    by (destruct import_system_tools, import_privacy_tools; reflexivity).
  vm_compute. reflexivity.
Qed.

Lemma shipped_catalog_ok :
  catalog_ok
    (_ACTIONS (shipped_state import_system_tools import_privacy_tools e w)).
Proof.
  unfold shipped_state, module_init. apply load_plugins_ok.
  unfold _register_builtin_actions.
  assert (Hreg : forall rs (s : state W), catalog_ok (_ACTIONS s) ->
            catalog_ok (_ACTIONS (fold_left (fun s r => do_register r s) rs s))).
  { induction rs as [|r rs IH]; intros s Hs; simpl; [exact Hs|].
    apply IH. now apply do_register_ok. }
  apply Hreg.
  destruct import_system_tools, import_privacy_tools; apply catalog_ok_nil.
Qed.

End ShippedCatalog.

(* ===================================================================== *)
(** * Sequencing: aggregates and plans run to completion *)
(* ===================================================================== *)

Section AggregateFacts.

Context {W : Type}.

(** What an aggregate over the tool names [func_names] does: it leaves the
    machine of the reference run over the tools that exist, and its summary
    reports every outcome of that run. *)
Lemma aggregate_spec (i : string + @tools_module W) (func_names : list string)
    (completed : string) (w : W) :
  exists summary,
    aggregate i func_names completed w =
      (Returned (Some summary),
       snd (outcomes_in_order (available_steps i func_names) w)) /\
    forall n o,
      In (n, o) (fst (outcomes_in_order (available_steps i func_names) w)) ->
      aggregate_reports summary n o.
Proof.
  destruct (run_tool_loop_spec i func_names [] w) as (new & Hrun & Hkept).
  simpl in Hrun. unfold aggregate. rewrite Hrun.
  exists (match new with [] => completed | _ => join_lines new end).
  split; [now destruct new|].
  intros n o Hin. specialize (Hkept n o Hin).
  destruct o as [[r|]|e]; simpl in *; auto.
  - intros Ht. specialize (Hkept Ht).
    destruct new; [contradiction | now apply contains_join_lines].
  - destruct new; [contradiction | now apply contains_join_lines].
Qed.

(** The steps of the recommended cleanup and of the full health check when
    the tools module defines them. *)
Lemma cleanup_steps_present (m : @tools_module W)
    (temp prefetch update_cache : handler W) :
  m "cleanup_temp_files" = Some temp ->
  m "cleanup_prefetch" = Some prefetch ->
  m "cleanup_windows_update_cache" = Some update_cache ->
  available_steps (inr m)
    ["cleanup_temp_files"; "cleanup_prefetch"; "cleanup_windows_update_cache"]
  = [("cleanup_temp_files", temp); ("cleanup_prefetch", prefetch);
     ("cleanup_windows_update_cache", update_cache)].
Proof.
  intros H1 H2 H3.
  cbn [available_steps tool system_tools guarded]. rewrite H1, H2, H3.
  reflexivity.
Qed.

Lemma health_steps_present (m : @tools_module W) (sfc dism : handler W) :
  m "run_sfc_scan" = Some sfc ->
  m "run_dism_health_scan" = Some dism ->
  available_steps (inr m) ["run_sfc_scan"; "run_dism_health_scan"]
  = [("run_sfc_scan", sfc); ("run_dism_health_scan", dism)].
Proof.
  intros H1 H2.
  cbn [available_steps tool system_tools guarded]. rewrite H1, H2.
  reflexivity.
Qed.

End AggregateFacts.

(** C6.  The two aggregate actions of the catalog, and the execution of a
    plan, run every step whatever the earlier outcomes.

    The handlers registered under [cleanup_recommended] and [health_full]
    are [_cleanup_recommended] and [_health_full].  When the tools module
    defines their tools, [_cleanup_recommended] calls
    [cleanup_temp_files], [cleanup_prefetch] and
    [cleanup_windows_update_cache], and [_health_full] calls [run_sfc_scan]
    and [run_dism_health_scan]: in that order, each on the machine left by
    the one before, whether or not earlier tools failed; the summary
    returned contains the failure text of every failed tool and the text
    returned by every successful one.  For any outcome of the import and
    any tools module the same holds of the tools that exist, and of the
    loop both handlers share for any list of tool names.

    [interpret_command] does the same with the actions of a plan: every
    handler is called in plan order whatever the earlier outcomes, and the
    summary contains the error line of every failed action and the success
    line of every successful one. *)
Theorem steps_run_to_completion (W : Type) :
  (forall (import_system_tools import_privacy_tools : string + @tools_module W)
          (e : string) (w : W),
     let st := shipped_state import_system_tools import_privacy_tools e w in
     option_map (@func W) (get_action_by_id "cleanup_recommended" st)
       = Some (_cleanup_recommended import_system_tools) /\
     option_map (@func W) (get_action_by_id "health_full" st)
       = Some (_health_full import_system_tools)) /\
  (forall (m : @tools_module W)
          (temp prefetch update_cache sfc dism : handler W) (w : W),
     m "cleanup_temp_files" = Some temp ->
     m "cleanup_prefetch" = Some prefetch ->
     m "cleanup_windows_update_cache" = Some update_cache ->
     m "run_sfc_scan" = Some sfc ->
     m "run_dism_health_scan" = Some dism ->
     let cleanup :=
       outcomes_in_order
         [("cleanup_temp_files", temp); ("cleanup_prefetch", prefetch);
          ("cleanup_windows_update_cache", update_cache)] w in
     let health :=
       outcomes_in_order
         [("run_sfc_scan", sfc); ("run_dism_health_scan", dism)] w in
     (exists summary,
        _cleanup_recommended (inr m) w = (Returned (Some summary), snd cleanup) /\
        map fst (fst cleanup)
          = ["cleanup_temp_files"; "cleanup_prefetch";
             "cleanup_windows_update_cache"] /\
        forall n o, In (n, o) (fst cleanup) -> aggregate_reports summary n o) /\
     (exists summary,
        _health_full (inr m) w = (Returned (Some summary), snd health) /\
        map fst (fst health) = ["run_sfc_scan"; "run_dism_health_scan"] /\
        forall n o, In (n, o) (fst health) -> aggregate_reports summary n o)) /\
  (forall (i : string + @tools_module W) (w : W),
     let cleanup :=
       outcomes_in_order
         (available_steps i
            ["cleanup_temp_files"; "cleanup_prefetch";
             "cleanup_windows_update_cache"]) w in
     let health :=
       outcomes_in_order
         (available_steps i ["run_sfc_scan"; "run_dism_health_scan"]) w in
     (exists summary,
        _cleanup_recommended i w = (Returned (Some summary), snd cleanup) /\
        forall n o, In (n, o) (fst cleanup) -> aggregate_reports summary n o) /\
     (exists summary,
        _health_full i w = (Returned (Some summary), snd health) /\
        forall n o, In (n, o) (fst health) -> aggregate_reports summary n o)) /\
  (forall (i : string + @tools_module W) (func_names : list string)
          (completed : string) (w : W),
     let steps := available_steps i func_names in
     let ref := outcomes_in_order steps w in
     exists summary,
       aggregate i func_names completed w = (Returned (Some summary), snd ref) /\
       map fst (fst ref) = map fst steps /\
       forall n o, In (n, o) (fst ref) -> aggregate_reports summary n o) /\
  (forall (gemini : option (string -> gemini_run)) (request : string)
          (st : state W),
     let actions := fst (choose_actions_for_request gemini request st) in
     let ref := outcomes_in_order (plan_steps actions) (world st) in
     let result := interpret_command gemini request st in
     actions <> [] ->
     world (snd result) = snd ref /\
     map fst (fst ref) = map (@name W) actions /\
     forall n o, In (n, o) (fst ref) -> plan_reports (fst result) n o).
Proof.
  refine (conj _ (conj _ (conj _ (conj _ _)))).
  - intros import_system_tools import_privacy_tools e w st.
    unfold st, get_action_by_id. rewrite shipped_registry.
    split; reflexivity.
  - intros m temp prefetch update_cache sfc dism w H1 H2 H3 H4 H5 cleanup health.
    split.
    + destruct (aggregate_spec (inr m)
                  ["cleanup_temp_files"; "cleanup_prefetch";
                   "cleanup_windows_update_cache"] "Cleanup completed." w)
        as (summary & Hrun & Hrep).
      rewrite (cleanup_steps_present m H1 H2 H3) in Hrun, Hrep.
      exists summary. split; [exact Hrun|].
      split; [apply outcomes_in_order_names | exact Hrep].
    + destruct (aggregate_spec (inr m)
                  ["run_sfc_scan"; "run_dism_health_scan"]
                  "Health checks completed." w)
        as (summary & Hrun & Hrep).
      rewrite (health_steps_present m H4 H5) in Hrun, Hrep.
      exists summary. split; [exact Hrun|].
      split; [apply outcomes_in_order_names | exact Hrep].
  - intros i w cleanup health. split.
    + exact (aggregate_spec i
               ["cleanup_temp_files"; "cleanup_prefetch";
                "cleanup_windows_update_cache"] "Cleanup completed." w).
    + exact (aggregate_spec i ["run_sfc_scan"; "run_dism_health_scan"]
               "Health checks completed." w).
  - intros i func_names completed w steps ref.
    destruct (aggregate_spec i func_names completed w) as (summary & Hrun & Hrep).
    exists summary. split; [exact Hrun|].
    split; [apply outcomes_in_order_names | exact Hrep].
  - intros gemini request st actions ref result Hne.
    unfold result, interpret_command.
    pose proof (choose_actions_world gemini request st) as Hw.
    unfold ref, actions in *.
    destruct (choose_actions_for_request gemini request st) as [acts st1].
    cbn [fst snd] in *. destruct acts as [|a rest]; [congruence|].
    destruct (run_plan_spec (a :: rest) [] st1) as (new & Hres & Hworld & Hkept).
    rewrite Hw in Hworld, Hkept.
    destruct (run_plan (a :: rest) [] st1) as [results st2].
    cbn [fst snd app] in *.
    subst results. split; [exact Hworld|]. split.
    + rewrite outcomes_in_order_names. unfold plan_steps.
      rewrite map_map. reflexivity.
    + intros n o Hin. specialize (Hkept n o Hin).
      destruct o as [[r|]|e]; cbn [kept_by_plan plan_reports] in *;
        [destruct (truthy r)| |]; now apply contains_join_lines.
Qed.

(** C10.  In the catalog of the program as shipped, none of the ids that
    the health, cleanup, network and tools branches of
    [interpret_command_keyword] look up is registered.  So, for every
    input, the function returns [None] whenever one of those branches is
    taken; whatever it returns other than [None] comes from the privacy
    branch and carries one of the three privacy ids; and the privacy branch,
    when reached, does return an action. *)
Theorem keyword_interpreter_reaches_only_privacy (W : Type)
    (import_system_tools import_privacy_tools : string + @tools_module W)
    (e : string) (w : W) (text : string) :
  let ACTIONS :=
    _ACTIONS (shipped_state import_system_tools import_privacy_tools e w) in
  let found := interpret_command_keyword ACTIONS text in
  Forall (fun aid => dict_get aid ACTIONS = None) cli_only_ids /\
  (non_privacy_branch (lower text) = true -> found = None) /\
  (forall a, found = Some a ->
     non_privacy_branch (lower text) = false /\
     privacy_branch (lower text) = true /\
     In (id a) cli_privacy_ids) /\
  (non_privacy_branch (lower text) = false ->
   privacy_branch (lower text) = true ->
   exists a, found = Some a).
Proof.
  intros ACTIONS found.
  assert (Hnone : Forall (fun aid => dict_get aid ACTIONS = None) cli_only_ids).
  { unfold ACTIONS. rewrite shipped_registry. unfold cli_only_ids.
    repeat (apply Forall_cons; [vm_compute; reflexivity|]). apply Forall_nil. }
  assert (Hp : Forall (fun aid => option_map (@id W) (dict_get aid ACTIONS)
                                  = Some aid) cli_privacy_ids).
  { unfold ACTIONS. rewrite shipped_registry. unfold cli_privacy_ids.
    repeat (apply Forall_cons; [vm_compute; reflexivity|]). apply Forall_nil. }
  clearbody ACTIONS.
  assert (Hpriv : Forall (fun aid => exists a, dict_get aid ACTIONS = Some a
                                               /\ id a = aid)
                    cli_privacy_ids).
  { eapply Forall_impl; [|exact Hp]. intros aid Ha. cbv beta in Ha.
    destruct (dict_get aid ACTIONS) as [a|]; simpl in Ha; [|discriminate Ha].
    exists a. split; [reflexivity | now injection Ha]. }
  clear Hp.
  split; [exact Hnone|].
  unfold cli_only_ids in Hnone. unfold cli_privacy_ids in Hpriv.
  repeat match goal with
         | H : Forall _ (_ :: _) |- _ => inversion H; clear H; subst
         | H : Forall _ [] |- _ => clear H
         end.
  repeat match goal with
         | H : exists a, _ |- _ => destruct H as (? & ? & ?)
         end.
  unfold found, interpret_command_keyword, non_privacy_branch, privacy_branch,
    cli_privacy_ids. clear found.
  generalize (lower text). intros t.
  repeat match goal with
         | H : dict_get _ ACTIONS = _ |- _ => rewrite H; clear H
         end.
  repeat match goal with
         | |- (_ -> (if ?c then None else _) = None) /\ _ =>
             destruct c;
             [cbn [orb]; split; [reflexivity|];
              split; [intros a Ha; discriminate Ha | intros Hf; discriminate Hf]|]
         end.
  cbn [orb].
  destruct (contains "privacy" t || contains "telemetry" t
            || contains "tracking" t).
  - split; [intros Hf; discriminate Hf|].
    split; [|intros _ _;
             repeat match goal with
                    | |- context [if ?c then _ else _] => destruct c
                    end; eauto].
    intros a Ha.
    repeat match type of Ha with
           | context [if ?c then _ else _] => destruct c
           end; injection Ha as <-;
      (split; [reflexivity | split; [reflexivity|]]); simpl; auto.
  - split; [intros Hf; discriminate Hf|].
    split; [intros a Ha; discriminate Ha | intros _ Hf; discriminate Hf].
Qed.

(* ===================================================================== *)
(** * Confirmation of dangerous actions *)
(* ===================================================================== *)

(** C2 (evaluation at the failing input).  Typing "reset network" into the
    command field of the window runs the handler of [network_reset], an
    action flagged dangerous, and no dialog is shown: [interpret_command]
    never asks.  The same action started from its button, with a user who
    declines, shows the confirmation dialog and leaves the machine
    untouched. *)
Theorem free_text_command_runs_dangerous_action_unasked :
  let g := _on_run_command None "reset network" (fresh_gui recording_state) in
  option_map (@dangerous recorder)
    (get_action_by_id "network_reset" recording_state) = Some true /\
  world (app g) = ["reset_network_stack"] /\
  dialogs g = [] /\
  log_text g =
    ["> reset network"; "Reset Network Stack: reset_network_stack: ok"] /\
  option_map
    (fun a =>
       let g' := _on_run_action (fun _ _ => false) a (fresh_gui recording_state) in
       (world (app g'), List.length (dialogs g')))
    (get_action_by_id "network_reset" recording_state) = Some ([], 1).
Proof. vm_compute. repeat split. Qed.

(* ===================================================================== *)
(** * The privacy backup *)
(* ===================================================================== *)

Section BackupFacts.

Import PrivacyTools.

Context {R : Type}.

Variable winreg_query : R -> Z -> string -> string -> query_result.
Variable winreg_set : R -> Z -> string -> string -> Z -> Z -> option string * R.
Variable winreg_delete : R -> Z -> string -> string -> delete_result * R.

Implicit Types (st : PrivacyTools.state R) (s : RegSetting) (k : backup_key).

Local Abbreviation read := (_read_reg_value winreg_query).
Local Abbreviation write := (_write_reg_value winreg_set).
Local Abbreviation backup1 := (_backup_setting winreg_query).
Local Abbreviation apply1 := (_apply_setting winreg_query winreg_set).
Local Abbreviation apply_many := (_apply_settings winreg_query winreg_set).
Local Abbreviation loop := (apply_loop winreg_query winreg_set).

Lemma read_backup (r : Z) (p n : string) st :
  _BACKUP (snd (read r p n st)) = _BACKUP st.
Proof. unfold _read_reg_value. now destruct (winreg_query _ _ _ _). Qed.

Lemma write_backup (r : Z) (p n : string) (v t : Z) st :
  _BACKUP (snd (write r p n v t st)) = _BACKUP st.
Proof.
  unfold _write_reg_value. now destruct (winreg_set _ _ _ _ _ _) as [[e|] r'].
Qed.

(** The backup step writes only when the key is absent, and then stores
    the value just read. *)
Lemma backup_setting_spec s st :
  _BACKUP (backup1 s st) =
  if dict_mem (setting_key s) (_BACKUP st) then _BACKUP st
  else dict_set (setting_key s) (fst (read (root s) (path s) (name s) st))
         (_BACKUP st).
Proof.
  unfold _backup_setting. destruct (dict_mem _ _); [reflexivity|].
  pose proof (read_backup (root s) (path s) (name s) st) as Hb.
  destruct (read (root s) (path s) (name s) st) as [original st1].
  simpl in *. now rewrite Hb.
Qed.

Lemma apply_setting_backup s st :
  _BACKUP (snd (apply1 s st)) = _BACKUP (backup1 s st).
Proof.
  unfold _apply_setting.
  pose proof (read_backup (root s) (path s) (name s) (backup1 s st)) as H1.
  destruct (read (root s) (path s) (name s) (backup1 s st)) as [before st2].
  pose proof (write_backup (root s) (path s) (name s) (value s) (value_type s) st2)
    as H2.
  destruct (write _ _ _ _ _ st2) as [[e|u] st3]; simpl in *; [congruence|].
  pose proof (read_backup (root s) (path s) (name s) st3) as H3.
  destruct (read (root s) (path s) (name s) st3) as [after st4].
  simpl in *. congruence.
Qed.

(** A recorded value survives the application of any setting. *)
Lemma apply_setting_keeps s st k (v : option Z) :
  dict_get k (_BACKUP st) = Some v ->
  dict_get k (_BACKUP (snd (apply1 s st))) = Some v.
Proof.
  intros Hk. rewrite apply_setting_backup, backup_setting_spec.
  destruct (dict_mem (setting_key s) (_BACKUP st)) eqn:Hm; [exact Hk|].
  rewrite dict_get_set_ne; [exact Hk|].
  intros Heq. unfold dict_mem in Hm. rewrite Heq, Hk in Hm. discriminate.
Qed.

(** A setting for another key leaves the entry of [k] as it is. *)
Lemma apply_setting_other s st k :
  setting_key s <> k ->
  dict_get k (_BACKUP (snd (apply1 s st))) = dict_get k (_BACKUP st).
Proof.
  intros Hne. rewrite apply_setting_backup, backup_setting_spec.
  destruct (dict_mem (setting_key s) (_BACKUP st)); [reflexivity|].
  now apply dict_get_set_ne.
Qed.

(** The first setting for a key records the value read at that moment. *)
Lemma apply_setting_first s st :
  dict_get (setting_key s) (_BACKUP st) = None ->
  dict_get (setting_key s) (_BACKUP (snd (apply1 s st))) =
  Some (fst (read (root s) (path s) (name s) st)).
Proof.
  intros Hnone. rewrite apply_setting_backup, backup_setting_spec.
  unfold dict_mem. rewrite Hnone. apply dict_get_set_eq.
Qed.

(** The state a loop leaves does not depend on the messages collected. *)
Lemma apply_loop_state (settings : list RegSetting) (m m' : list string) st :
  snd (loop settings m st) = snd (loop settings m' st).
Proof.
  revert m m' st. induction settings as [|s rest IH]; intros m m' st; simpl.
  - reflexivity.
  - destruct (apply1 s st) as [[e|msg] st1]; apply IH.
Qed.

Lemma apply_settings_state (settings : list RegSetting) st :
  snd (apply_many settings st) = snd (loop settings [] st).
Proof.
  unfold _apply_settings. now destruct (loop settings [] st).
Qed.

(** A recorded value survives a whole loop. *)
Lemma apply_loop_keeps (settings : list RegSetting) (m : list string) st k
    (v : option Z) :
  dict_get k (_BACKUP st) = Some v ->
  dict_get k (_BACKUP (snd (loop settings m st))) = Some v.
Proof.
  revert m st. induction settings as [|s rest IH]; intros m st Hk; [exact Hk|].
  simpl. pose proof (apply_setting_keeps s st k Hk) as H1.
  destruct (apply1 s st) as [[e|msg] st1]; apply IH; exact H1.
Qed.

(** Settings for other keys leave the entry of [k] as it is. *)
Lemma apply_loop_other (settings : list RegSetting) (m : list string) st k :
  Forall (fun s' => setting_key s' <> k) settings ->
  dict_get k (_BACKUP (snd (loop settings m st))) = dict_get k (_BACKUP st).
Proof.
  intros Hall. revert m st.
  induction Hall as [|s rest Hs Hrest IH]; intros m st; [reflexivity|].
  simpl. pose proof (apply_setting_other st Hs) as H1.
  destruct (apply1 s st) as [[e|msg] st1]; rewrite IH; exact H1.
Qed.

Lemma apply_loop_app (l1 l2 : list RegSetting) (m m' : list string) st :
  snd (loop (l1 ++ l2) m st) = snd (loop l2 m' (snd (loop l1 m st))).
Proof.
  revert m st. induction l1 as [|s rest IH]; intros m st; simpl.
  - apply apply_loop_state.
  - destruct (apply1 s st) as [[e|msg] st1]; apply IH.
Qed.

(** Successive profile applications amount to one loop over all their
    settings. *)
Lemma apply_profiles_concat (profiles : list (list RegSetting)) st :
  apply_profiles winreg_query winreg_set profiles st =
  snd (loop (List.concat profiles) [] st).
Proof.
  revert st. induction profiles as [|p ps IH]; intros st; simpl; [reflexivity|].
  unfold apply_profiles in *. simpl. rewrite IH, apply_settings_state.
  symmetry. apply apply_loop_app.
Qed.

(** Restoring reads the backup and leaves it as it is. *)
Lemma restore_loop_backup (items : list (backup_key * option Z))
    (m : list string) st :
  _BACKUP (snd (restore_loop winreg_set winreg_delete items m st)) = _BACKUP st.
Proof.
  revert m st. induction items as [|[[[r p] n] [v|]] rest IH]; intros m st; simpl.
  - reflexivity.
  - destruct (winreg_set _ _ _ _ _ _) as [[e|] r']; now rewrite IH.
  - destruct (winreg_delete _ _ _ _) as [[| |e] r']; now rewrite IH.
Qed.

Lemma run_call_keeps (c : privacy_call) st k (v : option Z) :
  dict_get k (_BACKUP st) = Some v ->
  dict_get k
    (_BACKUP (snd (run_call winreg_query winreg_set winreg_delete c st)))
  = Some v.
Proof.
  intros Hk. destruct c; cbn [run_call].
  - unfold apply_recommended_privacy_profile.
    match goal with
    | |- context [_apply_settings _ _ ?l ?s0] =>
        pose proof (apply_settings_state l s0) as Hs;
        pose proof (apply_loop_keeps l [] s0 k Hk) as Hl;
        destruct (_apply_settings winreg_query winreg_set l s0)
    end.
    cbn [fst snd] in *. rewrite Hs. exact Hl.
  - unfold apply_strict_privacy_profile.
    match goal with
    | |- context [_apply_settings _ _ ?l ?s0] =>
        pose proof (apply_settings_state l s0) as Hs;
        pose proof (apply_loop_keeps l [] s0 k Hk) as Hl;
        destruct (_apply_settings winreg_query winreg_set l s0)
    end.
    cbn [fst snd] in *. rewrite Hs. exact Hl.
  - unfold restore_privacy_defaults.
    match goal with
    | |- context [restore_loop _ _ ?items ?m ?s0] =>
        pose proof (restore_loop_backup items m s0) as Hr;
        destruct (restore_loop winreg_set winreg_delete items m s0) as [ms st2]
    end.
    cbn [fst snd] in Hr. destruct ms; cbn [fst snd]; rewrite Hr; exact Hk.
Qed.

End BackupFacts.

(** C9.  The backup record is first-write-wins.  Whatever sequence of
    public calls is made (recommended profile, strict profile, restore), an
    entry already in [_BACKUP] keeps its value; the same holds for
    successive applications of arbitrary profiles.  And when a key has no
    entry yet, after any sequence of profile applications in which the
    setting [s] is the first to touch the key, the entry holds the value
    read from the registry just before [s] was applied. *)
Theorem backup_is_first_write_wins (R : Type)
    (winreg_query : R -> Z -> string -> string -> PrivacyTools.query_result)
    (winreg_set : R -> Z -> string -> string -> Z -> Z -> option string * R)
    (winreg_delete : R -> Z -> string -> string -> PrivacyTools.delete_result * R) :
  (forall (calls : list PrivacyTools.privacy_call) (st : PrivacyTools.state R)
          (k : PrivacyTools.backup_key) (v : option Z),
     dict_get k (PrivacyTools._BACKUP st) = Some v ->
     dict_get k
       (PrivacyTools._BACKUP
          (PrivacyTools.run_calls winreg_query winreg_set winreg_delete calls st))
     = Some v) /\
  (forall (profiles : list (list PrivacyTools.RegSetting))
          (st : PrivacyTools.state R) (k : PrivacyTools.backup_key)
          (v : option Z),
     dict_get k (PrivacyTools._BACKUP st) = Some v ->
     dict_get k
       (PrivacyTools._BACKUP
          (PrivacyTools.apply_profiles winreg_query winreg_set profiles st))
     = Some v) /\
  (forall (profiles : list (list PrivacyTools.RegSetting))
          (before : list PrivacyTools.RegSetting) (s : PrivacyTools.RegSetting)
          (after : list PrivacyTools.RegSetting) (st : PrivacyTools.state R),
     List.concat profiles = (before ++ s :: after)%list ->
     Forall (fun s' => PrivacyTools.setting_key s' <> PrivacyTools.setting_key s)
       before ->
     dict_get (PrivacyTools.setting_key s) (PrivacyTools._BACKUP st) = None ->
     dict_get (PrivacyTools.setting_key s)
       (PrivacyTools._BACKUP
          (PrivacyTools.apply_profiles winreg_query winreg_set profiles st))
     = Some (fst (PrivacyTools._read_reg_value winreg_query
                    (PrivacyTools.root s) (PrivacyTools.path s)
                    (PrivacyTools.name s)
                    (snd (PrivacyTools._apply_settings winreg_query winreg_set
                            before st))))).
Proof.
  split; [|split].
  - intros calls. induction calls as [|c cs IH]; intros st k v Hk; [exact Hk|].
    simpl. apply IH. now apply run_call_keeps.
  - intros profiles st k v Hk. rewrite apply_profiles_concat.
    now apply apply_loop_keeps.
  - intros profiles before s after st Hcat Hbefore Hnone.
    rewrite apply_profiles_concat, Hcat.
    rewrite (apply_loop_app winreg_query winreg_set before (s :: after) [] [] st).
    rewrite apply_settings_state.
    set (st_pre := snd (PrivacyTools.apply_loop winreg_query winreg_set before [] st)).
    assert (Hpre : dict_get (PrivacyTools.setting_key s)
                     (PrivacyTools._BACKUP st_pre) = None).
    { unfold st_pre. now rewrite apply_loop_other. }
    pose proof (apply_setting_first winreg_query winreg_set s st_pre Hpre) as Hfirst.
    simpl.
    destruct (PrivacyTools._apply_setting winreg_query winreg_set s st_pre)
      as [[e|msg] st1]; apply apply_loop_keeps; exact Hfirst.
Qed.

(* ===================================================================== *)
(** * Instances *)
(* ===================================================================== *)

(** The request of the specification's example, on the catalog as shipped:
    the plan starts with the recommended cleanup. *)
Lemma generic_cleanup_resolves_to_recommended_witness :
  any_in generic_cleanup_phrases (lower "clean up my temp files and cache") = true /\
  exists a rest,
    dict_get "cleanup_recommended" (_ACTIONS recording_state) = Some a /\
    id a = "cleanup_recommended" /\
    fst (choose_actions_for_request None "clean up my temp files and cache"
           recording_state) = a :: rest.
Proof.
  split; [vm_compute; reflexivity|].
  destruct (dict_get "cleanup_recommended" (_ACTIONS recording_state))
    as [a|] eqn:Hget; [|vm_compute in Hget; discriminate Hget].
  destruct (generic_cleanup_resolves_to_recommended recording_state
              "clean up my temp files and cache"
              ltac:(vm_compute; reflexivity) Hget) as [rest Hplan].
  exists a, rest. split; [reflexivity|]. split; [|exact Hplan].
  vm_compute in Hget. injection Hget as <-. reflexivity.
Defined.

(** Registering [network_reset] a second time on the catalog as shipped. *)
Lemma register_action_replaces_witness :
  catalog_ok (_ACTIONS recording_state) /\
  dict_mem "network_reset" (_ACTIONS recording_state) = true /\
  let result :=
    register_action "network_reset" "Reset Network (v2)" "A replacement."
      "network" (fun w : recorder => (Returned None, w)) false recording_state in
  option_map (@name recorder) (get_action_by_id "network_reset" (snd result))
    = Some "Reset Network (v2)" /\
  count_id "network_reset" (list_actions (snd result)) = 1 /\
  In (Logged WARNING "Overwriting existing action with id '%s'" ["network_reset"])
    (log (snd result)).
Proof.
  split; [apply shipped_catalog_ok|]. split; [vm_compute; reflexivity|].
  intros result.
  destruct (register_action_replaces recording_state "network_reset"
              "Reset Network (v2)" "A replacement." "network"
              (fun w : recorder => (Returned None, w)) false
              (shipped_catalog_ok _ _ _ _) ltac:(vm_compute; reflexivity))
    as (_ & Hget & Hcount & _ & Hlog & _).
  fold result in Hget, Hcount, Hlog.
  split; [now rewrite Hget|]. split; [exact Hcount|].
  rewrite Hlog. apply in_or_app. right. now left.
Defined.

(** A plugin whose [register] raises, followed by a well-behaved one: the
    action of the second is in [list_actions()]. *)
Lemma load_plugins_isolates_failures_witness :
  _get_plugins_package_name shipped_package = Some "ai_system_utility.plugins" /\
  demo_import_package "ai_system_utility.plugins"
    = Imported ["broken"; "_private"; "missing"; "good"] /\
  listed "deep_cleanup" demo_state /\
  In (Logged WARNING "Plugin '%s' register() failed: %s"
        ["ai_system_utility.plugins.broken"; "boom"]) (log demo_state) /\
  dict_mem "network_reset" (_ACTIONS demo_state) = true.
Proof.
  split; [reflexivity|]. split; [reflexivity|].
  destruct (load_plugins_isolates_failures shipped_package demo_import_package
              demo_import_module recording_state
              (package_name := "ai_system_utility.plugins")
              (mod_names := ["broken"; "_private"; "missing"; "good"])
              eq_refl eq_refl) as [Hkeep Hmods].
  fold demo_state in Hkeep, Hmods.
  split; [|split].
  - destruct (Hmods "good" ltac:(simpl; tauto) eq_refl) as [Hcalls _].
    apply (Hcalls deep_cleanup). now left.
  - exact (proj2 (Hmods "broken" ltac:(simpl; tauto) eq_refl)).
  - apply Hkeep. vm_compute. reflexivity.
Defined.

(** The recommended cleanup on a tools module whose middle tool,
    [cleanup_prefetch], raises: the Windows Update step is still called and
    the summary holds the failure text between the two success texts.  And
    a four-step plan whose second handler fails: the third and fourth
    handlers are still called, and the summary holds the error line of the
    second step next to the success lines of the others. *)
Lemma steps_run_to_completion_witness :
  let m := failing_tools "cleanup_prefetch" in
  let st := failing_state "run_dism_health_scan" in
  let request := "run sfc, dism, chkdsk and fix the network" in
  let actions := fst (choose_actions_for_request None request st) in
  let result := interpret_command None request st in
  (m "cleanup_temp_files" <> None /\ m "cleanup_prefetch" <> None /\
   m "cleanup_windows_update_cache" <> None /\
   m "run_sfc_scan" <> None /\ m "run_dism_health_scan" <> None) /\
  (exists summary,
     _cleanup_recommended (inr m) ["earlier call"]
       = (Returned (Some summary),
          ["earlier call"; "cleanup_temp_files"; "cleanup_prefetch";
           "cleanup_windows_update_cache"]) /\
     contains "cleanup_temp_files: ok" summary = true /\
     contains "cleanup_prefetch failed: cleanup_prefetch: boom" summary = true /\
     contains "cleanup_windows_update_cache: ok" summary = true) /\
  map (@id recorder) actions
    = ["health_sfc"; "health_dism"; "health_chkdsk"; "network_reset"] /\
  actions <> [] /\
  world (snd result)
    = ["run_sfc_scan"; "run_dism_health_scan"; "schedule_chkdsk";
       "reset_network_stack"] /\
  contains "DISM Health Scan: ERROR - run_dism_health_scan: boom" (fst result)
    = true /\
  contains "System File Checker (SFC): run_sfc_scan: ok" (fst result) = true /\
  contains "CHKDSK (Next Boot): schedule_chkdsk: ok" (fst result) = true /\
  contains "Reset Network Stack: reset_network_stack: ok" (fst result) = true.
Proof.
  intros m st request actions result.
  split; [repeat split; discriminate|].
  split.
  { pose (h := fun (attr : string) (w : recorder) =>
                 (if String.eqb attr "cleanup_prefetch"
                  then Raised (attr ++ ": boom")
                  else Returned (Some (attr ++ ": ok")),
                  (w ++ [attr])%list)).
    destruct (proj1 (proj2 (steps_run_to_completion recorder)) m
                (h "cleanup_temp_files") (h "cleanup_prefetch")
                (h "cleanup_windows_update_cache") (h "run_sfc_scan")
                (h "run_dism_health_scan") ["earlier call"]
                eq_refl eq_refl eq_refl eq_refl eq_refl)
      as [(summary & Hrun & _ & Hrep) _].
    exists summary. split; [exact Hrun|].
    refine (conj _ (conj _ _)).
    - apply (Hrep "cleanup_temp_files" (Returned (Some "cleanup_temp_files: ok")));
        [vm_compute; tauto | reflexivity].
    - apply (Hrep "cleanup_prefetch" (Raised "cleanup_prefetch: boom")).
      vm_compute. tauto.
    - apply (Hrep "cleanup_windows_update_cache"
               (Returned (Some "cleanup_windows_update_cache: ok")));
        [vm_compute; tauto | reflexivity]. }
  assert (Hne : actions <> []) by (vm_compute; discriminate).
  destruct (proj2 (proj2 (proj2 (proj2 (steps_run_to_completion recorder))))
              None request st Hne)
    as (Hworld & _ & Hreports).
  fold result in Hworld, Hreports.
  split; [vm_compute; reflexivity|]. split; [exact Hne|].
  split; [rewrite Hworld; vm_compute; reflexivity|].
  refine (conj _ (conj _ (conj _ _))).
  - apply (Hreports "DISM Health Scan" (Raised "run_dism_health_scan: boom")).
    vm_compute. tauto.
  - apply (Hreports "System File Checker (SFC)"
             (Returned (Some "run_sfc_scan: ok"))).
    vm_compute. tauto.
  - apply (Hreports "CHKDSK (Next Boot)" (Returned (Some "schedule_chkdsk: ok"))).
    vm_compute. tauto.
  - apply (Hreports "Reset Network Stack"
             (Returned (Some "reset_network_stack: ok"))).
    vm_compute. tauto.
Defined.

(** The recommended cleanup with a failing prefetch step: the Windows
    Update step still runs, and the summary holds all three texts. *)
Example cleanup_recommended_continues_past_failure :
  _cleanup_recommended (inr (failing_tools "cleanup_prefetch")) []
  = (Returned
       (Some ("cleanup_temp_files: ok" ++ nl
              ++ "cleanup_prefetch failed: cleanup_prefetch: boom" ++ nl
              ++ "cleanup_windows_update_cache: ok")),
     ["cleanup_temp_files"; "cleanup_prefetch"; "cleanup_windows_update_cache"]).
Proof. vm_compute. reflexivity. Qed.

(** Two profile applications on a simulated registry where the advertising
    id is enabled: the backup keeps the value seen before the first one. *)
Lemma backup_is_first_write_wins_witness :
  let s := PrivacyTools.dword PrivacyTools.HKEY_CURRENT_USER
             "Software\Microsoft\Windows\CurrentVersion\AdvertisingInfo"
             "Enabled" 0 in
  let profiles :=
    [PrivacyTools._RECOMMENDED_SETTINGS; PrivacyTools._STRICT_SETTINGS] in
  let st := PrivacyTools.sim_state [(PrivacyTools.setting_key s, 1%Z)] in
  List.concat profiles = ([] ++ s :: List.tl (List.concat profiles))%list /\
  Forall (fun s' => PrivacyTools.setting_key s' <> PrivacyTools.setting_key s) [] /\
  dict_get (PrivacyTools.setting_key s) (PrivacyTools._BACKUP st) = None /\
  dict_get (PrivacyTools.setting_key s)
    (PrivacyTools._BACKUP
       (PrivacyTools.apply_profiles PrivacyTools.sim_query
          (PrivacyTools.sim_set "TypeError") profiles st))
  = Some (Some 1%Z) /\
  dict_get (PrivacyTools.setting_key s)
    (PrivacyTools.registry
       (PrivacyTools.apply_profiles PrivacyTools.sim_query
          (PrivacyTools.sim_set "TypeError") profiles st))
  = Some 0%Z.
Proof.
  intros s profiles st.
  split; [reflexivity|]. split; [constructor|]. split; [reflexivity|].
  split; [|vm_compute; reflexivity].
  exact (proj2 (proj2 (backup_is_first_write_wins PrivacyTools.sim_query
                         (PrivacyTools.sim_set "TypeError")
                         PrivacyTools.sim_delete))
           profiles [] s (List.tl (List.concat profiles)) st
           eq_refl (Forall_nil _) eq_refl).
Defined.

(** "run sfc" takes the first health branch, whose id is not registered. *)
Lemma keyword_interpreter_reaches_only_privacy_witness :
  non_privacy_branch (lower "run sfc") = true /\
  interpret_command_keyword (_ACTIONS recording_state) "run sfc" = None /\
  non_privacy_branch (lower "tighten my privacy") = false /\
  privacy_branch (lower "tighten my privacy") = true /\
  exists a,
    interpret_command_keyword (_ACTIONS recording_state) "tighten my privacy"
    = Some a.
Proof.
  split; [vm_compute; reflexivity|]. split.
  - apply (proj1 (proj2 (keyword_interpreter_reaches_only_privacy
                           (inr recording_tools) (inr recording_tools)
                           "register() got an unexpected keyword argument 'registry'"
                           [] "run sfc"))).
    vm_compute. reflexivity.
  - split; [vm_compute; reflexivity|]. split; [vm_compute; reflexivity|].
    apply (proj2 (proj2 (proj2 (keyword_interpreter_reaches_only_privacy
                           (inr recording_tools) (inr recording_tools)
                           "register() got an unexpected keyword argument 'registry'"
                           [] "tighten my privacy")))); vm_compute; reflexivity.
Defined.

(* ===================================================================== *)
(** * Further properties of the catalog *)
(* ===================================================================== *)

Section StringOrder.

Lemma ascii_compare_refl (a : ascii) : Ascii.compare a a = Eq.
Proof. unfold Ascii.compare. apply N.compare_refl. Qed.

Lemma ascii_compare_lt_trans (a b c : ascii) :
  Ascii.compare a b = Lt -> Ascii.compare b c = Lt -> Ascii.compare a c = Lt.
Proof.
  unfold Ascii.compare. rewrite !N.compare_lt_iff. apply N.lt_trans.
Qed.

Lemma string_compare_refl (s : string) : String.compare s s = Eq.
Proof.
  induction s as [|c s IH]; simpl; [reflexivity|].
  now rewrite ascii_compare_refl.
Qed.

Lemma string_compare_eq (s1 s2 : string) : String.compare s1 s2 = Eq -> s1 = s2.
Proof. apply String.compare_eq_iff. Qed.

Lemma string_compare_lt_trans (s1 s2 s3 : string) :
  String.compare s1 s2 = Lt -> String.compare s2 s3 = Lt ->
  String.compare s1 s3 = Lt.
Proof.
  revert s2 s3. induction s1 as [|c1 s1 IH]; intros [|c2 s2] [|c3 s3];
    simpl; try congruence.
  destruct (Ascii.compare c1 c2) eqn:H12; try discriminate.
  - apply Ascii.compare_eq_iff in H12. subst c2.
    destruct (Ascii.compare c1 c3); try congruence. apply IH.
  - intros _. destruct (Ascii.compare c2 c3) eqn:H23; try discriminate.
    + apply Ascii.compare_eq_iff in H23. subst c3. now rewrite H12.
    + intros _. now rewrite (ascii_compare_lt_trans _ _ _ H12 H23).
Qed.

Lemma string_compare_gt_lt (s1 s2 : string) :
  String.compare s1 s2 = Gt -> String.compare s2 s1 = Lt.
Proof. intros H. rewrite String.compare_antisym, H. reflexivity. Qed.

Lemma string_leb_trans (s1 s2 s3 : string) :
  String.leb s1 s2 = true -> String.leb s2 s3 = true -> String.leb s1 s3 = true.
Proof.
  unfold String.leb.
  destruct (String.compare s1 s2) eqn:H12; try discriminate;
    destruct (String.compare s2 s3) eqn:H23; try discriminate; intros _ _.
  - apply string_compare_eq in H12, H23. subst. now rewrite string_compare_refl.
  - apply string_compare_eq in H12. subst. now rewrite H23.
  - apply string_compare_eq in H23. subst. now rewrite H12.
  - now rewrite (string_compare_lt_trans _ _ _ H12 H23).
Qed.

End StringOrder.

Section SortedFacts.

Context {A : Type} (le : A -> A -> bool).

Hypothesis le_total : forall a b, le a b = true \/ le b a = true.
Hypothesis le_trans : forall a b c, le a b = true -> le b c = true -> le a c = true.

Lemma insert_by_sorted (a : A) (l : list A) :
  StronglySorted (fun x y => le x y = true) l ->
  StronglySorted (fun x y => le x y = true) (insert_by le a l).
Proof.
  induction 1 as [|b l Hl IH Hb]; simpl.
  - constructor; constructor.
  - destruct (le a b) eqn:Hab.
    + constructor; [now constructor|].
      constructor; [exact Hab|].
      rewrite Forall_forall in *. intros x Hx. eapply le_trans; eauto.
    + constructor; [exact IH|].
      assert (Hba : le b a = true) by (destruct (le_total a b); congruence).
      rewrite Forall_forall in *. intros x Hx.
      apply (Permutation_in _ (insert_by_perm le a l)) in Hx.
      destruct Hx as [<-|Hx]; auto.
Qed.

Lemma py_sorted_sorted (l : list A) :
  StronglySorted (fun x y => le x y = true) (py_sorted le l).
Proof.
  induction l as [|a l IH]; simpl; [constructor|]. now apply insert_by_sorted.
Qed.

End SortedFacts.

Section ListingFacts.

Context {W : Type}.

Implicit Types (st : state W) (a b c : Action W).

Lemma name_le_total a b : name_le a b = true \/ name_le b a = true.
Proof. apply String.leb_total. Qed.

Lemma name_le_trans a b c :
  name_le a b = true -> name_le b c = true -> name_le a c = true.
Proof. apply string_leb_trans. Qed.

Lemma group_name_le_total a b :
  group_name_le a b = true \/ group_name_le b a = true.
Proof.
  unfold group_name_le.
  destruct (String.compare (group a) (group b)) eqn:Hab.
  - apply string_compare_eq in Hab. rewrite Hab, string_compare_refl.
    apply name_le_total.
  - now left.
  - right. now rewrite (string_compare_gt_lt _ _ Hab).
Qed.

Lemma group_name_le_trans a b c :
  group_name_le a b = true -> group_name_le b c = true ->
  group_name_le a c = true.
Proof.
  unfold group_name_le.
  destruct (String.compare (group a) (group b)) eqn:Hab; try discriminate;
    destruct (String.compare (group b) (group c)) eqn:Hbc; try discriminate.
  - apply string_compare_eq in Hab, Hbc. rewrite Hab, Hbc, string_compare_refl.
    apply name_le_trans.
  - apply string_compare_eq in Hab. rewrite Hab, Hbc. reflexivity.
  - apply string_compare_eq in Hbc. rewrite <- Hbc, Hab. reflexivity.
  - now rewrite (string_compare_lt_trans _ _ _ Hab Hbc).
Qed.

End ListingFacts.

(** X1.  [list_actions()] returns the registered actions, each exactly once
    (a rearrangement of the registry's values), in ascending order of
    [(group, name.lower())]: every action is at or before every later one
    in that order. *)
Theorem list_actions_sorted_rearrangement (W : Type) (st : state W) :
  Permutation (list_actions st) (dict_values (_ACTIONS st)) /\
  StronglySorted (fun a b => group_name_le a b = true) (list_actions st).
Proof.
  split.
  - apply py_sorted_perm.
  - apply py_sorted_sorted; [apply group_name_le_total | apply group_name_le_trans].
Qed.

(** X2.  [get_actions_by_group(g)] returns exactly the registered actions
    whose group is [g] -- every returned action has that group, and every
    registered action of that group is returned as often as it is
    registered -- in ascending order of [name.lower()]. *)
Theorem get_actions_by_group_exact (W : Type) (st : state W) (g : string) :
  Permutation (get_actions_by_group g st)
    (filter (fun a => String.eqb (group a) g) (dict_values (_ACTIONS st))) /\
  (forall a, In a (get_actions_by_group g st) <->
             In a (dict_values (_ACTIONS st)) /\ group a = g) /\
  StronglySorted (fun a b => name_le a b = true) (get_actions_by_group g st).
Proof.
  split; [apply py_sorted_perm|]. split.
  - intros a. unfold get_actions_by_group.
    split.
    + intros Hin. apply (Permutation_in _ (py_sorted_perm _ _)) in Hin.
      apply filter_In in Hin. destruct Hin as [Hin Hg].
      split; [exact Hin | now apply String.eqb_eq].
    + intros [Hin Hg].
      apply (Permutation_in _ (Permutation_sym (py_sorted_perm _ _))).
      apply filter_In. split; [exact Hin | now apply String.eqb_eq].
  - apply py_sorted_sorted; [apply name_le_total | apply name_le_trans].
Qed.

Section RegistrationFacts.

Context {W : Type}.

Implicit Types (st : state W) (d : dict string (Action W)).

Lemma dict_values_set_length d (k : string) (a : Action W) :
  List.length (dict_values (dict_set k a d)) =
  if dict_mem k d then List.length (dict_values d)
  else S (List.length (dict_values d)).
Proof.
  unfold dict_values. rewrite !length_map.
  unfold dict_mem. induction d as [|[k' v'] d IH]; simpl; [reflexivity|].
  destruct (String.eqb k' k); simpl; [reflexivity|].
  rewrite IH. now destruct (dict_get k d).
Qed.

Lemma list_actions_length st :
  List.length (list_actions st) = List.length (dict_values (_ACTIONS st)).
Proof. apply Permutation_length, py_sorted_perm. Qed.

(** The invariant of the registry holds after start-up, whatever the
    imports and the plugins do. *)
Lemma module_init_ok
    (import_system_tools import_privacy_tools : string + @tools_module W)
    (package : string) (import_package : string -> imported (list string))
    (import_module : string -> imported (@plugin_module W)) (w : W) :
  catalog_ok
    (_ACTIONS (module_init import_system_tools import_privacy_tools package
                 import_package import_module w)).
Proof.
  unfold module_init. apply load_plugins_ok. unfold _register_builtin_actions.
  assert (Hreg : forall rs (s : state W), catalog_ok (_ACTIONS s) ->
            catalog_ok (_ACTIONS (fold_left (fun s r => do_register r s) rs s))).
  { induction rs as [|r rs IH]; intros s Hs; simpl; [exact Hs|].
    apply IH. now apply do_register_ok. }
  apply Hreg.
  destruct import_system_tools, import_privacy_tools; apply catalog_ok_nil.
Qed.

End RegistrationFacts.

(** X3.  Whatever the id, after [register_action] a lookup of the id gives
    the action just returned, and the lookup of every other id is as it was
    before.  The listing keeps its length when the id was already
    registered and grows by one when it was not; for a fresh id the only
    record handed to the logger is the debug line (no warning). *)
Theorem register_action_frame (W : Type) (st : state W)
    (action_id nm desc grp : string) (f : handler W) (dg : bool) :
  let result := register_action action_id nm desc grp f dg st in
  get_action_by_id action_id (snd result) = Some (fst result) /\
  (forall other, other <> action_id ->
     get_action_by_id other (snd result) = get_action_by_id other st) /\
  List.length (list_actions (snd result)) =
    (if dict_mem action_id (_ACTIONS st) then List.length (list_actions st)
     else S (List.length (list_actions st))) /\
  (dict_mem action_id (_ACTIONS st) = false ->
   log (snd result) =
     (log st ++ [Logged DEBUG "Registered action '%s' (%s)" [action_id; nm]])%list).
Proof.
  intros result.
  assert (Hreg : _ACTIONS (snd result) = dict_set action_id (fst result) (_ACTIONS st))
    by apply register_action_registry.
  unfold get_action_by_id. rewrite Hreg.
  refine (conj _ (conj _ (conj _ _))).
  - apply dict_get_set_eq.
  - intros other Hne. apply dict_get_set_ne. congruence.
  - rewrite !list_actions_length, Hreg. apply dict_values_set_length.
  - intros Hfresh. unfold result, register_action. now rewrite Hfresh.
Qed.

(** X4.  After start-up (built-in registrations followed by plugin
    loading, for any outcome of the imports and any plugins), a lookup that
    finds an action finds one whose [id] is the key looked up, and no two
    entries of the listing carry the same id. *)
Theorem startup_lookup_returns_own_id (W : Type)
    (import_system_tools import_privacy_tools : string + @tools_module W)
    (package : string) (import_package : string -> imported (list string))
    (import_module : string -> imported (@plugin_module W)) (w : W) :
  let st := module_init import_system_tools import_privacy_tools package
              import_package import_module w in
  (forall aid a, get_action_by_id aid st = Some a -> id a = aid) /\
  (forall aid, count_id aid (list_actions st) <= 1).
Proof.
  intros st.
  pose proof (module_init_ok import_system_tools import_privacy_tools package
                import_package import_module w) as Hok.
  fold st in Hok. split.
  - intros aid a Hget. unfold get_action_by_id in Hget.
    apply dict_get_In in Hget. destruct Hok as [_ Hall].
    exact (proj1 (Forall_forall _ _) Hall _ Hget).
  - intros aid. rewrite count_id_list_actions, count_id_values by exact Hok.
    destruct (dict_mem aid (_ACTIONS st)); lia.
Qed.

(* ===================================================================== *)
(** * Further properties of the request router *)
(* ===================================================================== *)

Section StripFacts.

Lemma lstrip_all_space (s : string) : all_space s = true -> lstrip s = "".
Proof.
  induction s as [|c s IH]; simpl; [reflexivity|].
  destruct (is_space c); simpl; [exact IH | discriminate].
Qed.

Lemma strip_all_space (s : string) : all_space s = true -> strip s = "".
Proof. intros H. unfold strip. now rewrite lstrip_all_space. Qed.

Lemma lower_char_idem (c : ascii) : lower_char (lower_char c) = lower_char c.
Proof. destruct c as [[] [] [] [] [] [] [] []]; vm_compute; reflexivity. Qed.

Lemma lower_idem (s : string) : lower (lower s) = lower s.
Proof.
  induction s as [|c s IH]; simpl; [reflexivity|].
  now rewrite lower_char_idem, IH.
Qed.

Lemma truthy_lower (s : string) : truthy (lower s) = truthy s.
Proof. now destruct s. Qed.

End StripFacts.

Section MergeFacts.

Context {W : Type}.

Implicit Types (ACTIONS : dict string (Action W)) (st : state W).

Lemma gemini_ids (gemini : option (string -> gemini_run)) (request : string) st :
  fst (_gemini_choose_action_ids gemini request st)
  = remote_ids gemini (_ACTIONS st) request.
Proof.
  unfold _gemini_choose_action_ids, remote_ids.
  destruct gemini as [call|]; [|reflexivity].
  destruct (configure_failed (call request));
    destruct (reply (call request)) as [e|[]]; reflexivity.
Qed.

(** What the router returns, in one equation. *)
Lemma choose_actions_plan (gemini : option (string -> gemini_run))
    (request : string) st :
  fst (choose_actions_for_request gemini request st) =
  if truthy (strip request) then
    lookup_all (_ACTIONS st)
      match remote_ids gemini (_ACTIONS st) (strip request) with
      | [] => _fallback_choose_action_ids (_ACTIONS st) (strip request)
      | ids => ids
      end
  else [].
Proof.
  unfold choose_actions_for_request.
  destruct (truthy (strip request)); [|reflexivity]. cbn [negb].
  pose proof (gemini_ids gemini (strip request) st) as Hids.
  pose proof (gemini_registry gemini (strip request) st) as Hreg.
  destruct (_gemini_choose_action_ids gemini (strip request) st) as [ids st1].
  cbn [fst snd] in *. rewrite Hreg, Hids.
  now destruct (remote_ids gemini (_ACTIONS st) (strip request)).
Qed.

Lemma lookup_all_valid ACTIONS (ids : list string) :
  (forall x, In x ids -> dict_mem x ACTIONS = true) ->
  List.length (lookup_all ACTIONS ids) = List.length ids /\
  (catalog_ok ACTIONS -> map (@id W) (lookup_all ACTIONS ids) = ids).
Proof.
  induction ids as [|x ids IH]; intros Hall; [split; reflexivity|].
  destruct IH as [IHlen IHid]; [intros y Hy; apply Hall; now right|].
  assert (Hx : dict_mem x ACTIONS = true) by (apply Hall; now left).
  unfold dict_mem in Hx. simpl.
  destruct (dict_get x ACTIONS) as [a|] eqn:Hget; [|discriminate].
  split; [simpl; now rewrite IHlen|].
  intros Hok. simpl. rewrite (IHid Hok). f_equal.
  apply dict_get_In in Hget. destruct Hok as [_ Hfa].
  exact (proj1 (Forall_forall _ _) Hfa _ Hget).
Qed.

Lemma remote_ids_valid (gemini : option (string -> gemini_run)) ACTIONS
    (request x : string) :
  In x (remote_ids gemini ACTIONS request) -> dict_mem x ACTIONS = true.
Proof.
  unfold remote_ids. destruct gemini as [call|]; [|intros []].
  destruct (reply (call request)) as [e|[]]; try (intros []).
  apply valid_ids_mem.
Qed.

End MergeFacts.

(** X5.  A request made of white space only (the empty request included)
    resolves to the empty plan and leaves the program state as it was: no
    strategy is consulted and nothing is logged.  [interpret_command] then
    returns its fixed no-match message and logs that one event. *)
Theorem blank_request_resolves_to_nothing (W : Type)
    (gemini : option (string -> gemini_run)) (request : string) (st : state W) :
  all_space request = true ->
  choose_actions_for_request gemini request st = ([], st) /\
  interpret_command gemini request st =
    (no_match_message,
     emit (Event ("interpret_command: no actions for '" ++ request ++ "'")) st).
Proof.
  intros Hblank.
  assert (Hchoose : choose_actions_for_request gemini request st = ([], st)).
  { unfold choose_actions_for_request. now rewrite (strip_all_space _ Hblank). }
  split; [exact Hchoose|]. unfold interpret_command. now rewrite Hchoose.
Qed.

(** X6.  The merge of the two strategies.  When the remote strategy
    proposes no registered id (not configured, raised, returned something
    other than a JSON array, or only unknown or non-string entries), the
    plan is the plan of the keyword strategy alone.  When it proposes at
    least one, the plan consists of exactly the registered ids it proposed,
    in its order: one action per proposed id, and the keyword strategy is
    not consulted. *)
Theorem remote_ids_take_precedence (W : Type)
    (gemini : option (string -> gemini_run)) (request : string) (st : state W) :
  let proposed := remote_ids gemini (_ACTIONS st) (strip request) in
  let plan := fst (choose_actions_for_request gemini request st) in
  (proposed = [] ->
   plan = fst (choose_actions_for_request None request st)) /\
  (proposed <> [] -> truthy (strip request) = true ->
   plan = lookup_all (_ACTIONS st) proposed /\
   List.length plan = List.length proposed /\
   (catalog_ok (_ACTIONS st) -> map (@id W) plan = proposed)).
Proof.
  intros proposed plan. unfold plan. rewrite !choose_actions_plan. fold proposed.
  split.
  - intros ->. reflexivity.
  - intros Hne Ht. rewrite Ht.
    destruct proposed as [|x xs] eqn:Hp; [congruence|].
    split; [reflexivity|].
    apply lookup_all_valid. intros y Hy. rewrite <- Hp in Hy.
    now apply remote_ids_valid in Hy.
Qed.

(** X7.  With the remote strategy disabled, the plan holds no action twice
    and lists exactly the ids the keyword strategy selected, each of them
    registered under that id.  (The registry invariant -- unique keys, each
    entry stored under its own id -- holds after start-up.) *)
Theorem keyword_plan_has_no_duplicates (W : Type) (request : string)
    (st : state W) :
  catalog_ok (_ACTIONS st) ->
  let plan := fst (choose_actions_for_request None request st) in
  NoDup (map (@id W) plan) /\
  (truthy (strip request) = true ->
   map (@id W) plan = _fallback_choose_action_ids (_ACTIONS st) (strip request)) /\
  (forall a, In a plan -> get_action_by_id (id a) st = Some a).
Proof.
  intros Hok plan.
  assert (Hplan : plan = if truthy (strip request)
                         then lookup_all (_ACTIONS st)
                                (_fallback_choose_action_ids (_ACTIONS st)
                                   (strip request))
                         else []).
  { unfold plan. now rewrite choose_actions_plan. }
  assert (Hids : map (@id W)
                   (lookup_all (_ACTIONS st)
                      (_fallback_choose_action_ids (_ACTIONS st) (strip request)))
                 = _fallback_choose_action_ids (_ACTIONS st) (strip request)).
  { apply lookup_all_valid; [|exact Hok]. intros x. apply fallback_ids_valid. }
  refine (conj _ (conj _ _)).
  - rewrite Hplan. destruct (truthy (strip request)); [|constructor].
    rewrite Hids. apply fallback_ids_NoDup.
  - intros Ht. now rewrite Hplan, Ht.
  - intros a Hin. rewrite Hplan in Hin.
    destruct (truthy (strip request)); [|destruct Hin].
    apply lookup_all_In in Hin. destruct Hin as (aid & _ & Hget).
    unfold get_action_by_id.
    assert (Hid : id a = aid).
    { apply dict_get_In in Hget. destruct Hok as [_ Hfa].
      exact (proj1 (Forall_forall _ _) Hfa _ Hget). }
    now rewrite Hid.
Qed.

(** X8.  The router ignores letter case: two requests with the same
    lower-cased text resolve, with the remote strategy disabled, to the same
    plan. *)
Theorem keyword_strategy_ignores_case (W : Type) (r1 r2 : string)
    (st : state W) :
  lower r1 = lower r2 ->
  fst (choose_actions_for_request None r1 st)
  = fst (choose_actions_for_request None r2 st).
Proof.
  intros Hlow. rewrite !choose_actions_plan. cbn [remote_ids].
  assert (Hs : lower (strip r1) = lower (strip r2))
    by now rewrite !lower_strip, Hlow.
  assert (Ht : truthy (strip r1) = truthy (strip r2))
    by now rewrite <- (truthy_lower (strip r1)), Hs, truthy_lower.
  rewrite Ht. unfold _fallback_choose_action_ids. now rewrite Hs.
Qed.

(* ===================================================================== *)
(** * Further properties of the privacy profiles *)
(* ===================================================================== *)

Section BackupCoverage.

Import PrivacyTools.

Context {R : Type}.

Variable winreg_query : R -> Z -> string -> string -> query_result.
Variable winreg_set : R -> Z -> string -> string -> Z -> Z -> option string * R.

Implicit Types (st : PrivacyTools.state R) (s : RegSetting) (k : backup_key).

Lemma apply_setting_mem_mono s st k :
  dict_mem k (_BACKUP st) = true ->
  dict_mem k (_BACKUP (snd (_apply_setting winreg_query winreg_set s st))) = true.
Proof.
  unfold dict_mem. destruct (dict_get k (_BACKUP st)) as [v|] eqn:Hk; [|discriminate].
  intros _. now rewrite (apply_setting_keeps winreg_query winreg_set s st k Hk).
Qed.

Lemma apply_setting_mem s st :
  dict_mem (setting_key s)
    (_BACKUP (snd (_apply_setting winreg_query winreg_set s st))) = true.
Proof.
  rewrite apply_setting_backup, backup_setting_spec.
  destruct (dict_mem (setting_key s) (_BACKUP st)) eqn:Hm; [exact Hm|].
  apply dict_mem_set_same.
Qed.

Lemma apply_loop_mem_mono (settings : list RegSetting) (m : list string) st k :
  dict_mem k (_BACKUP st) = true ->
  dict_mem k (_BACKUP (snd (apply_loop winreg_query winreg_set settings m st)))
  = true.
Proof.
  revert m st. induction settings as [|s rest IH]; intros m st Hk; [exact Hk|].
  simpl. pose proof (apply_setting_mem_mono s st k Hk) as H1.
  destruct (_apply_setting winreg_query winreg_set s st) as [[e|msg] st1];
    apply IH; exact H1.
Qed.

Lemma apply_loop_NoDup (settings : list RegSetting) (m : list string) st :
  NoDup (dict_keys (_BACKUP st)) ->
  NoDup (dict_keys
           (_BACKUP (snd (apply_loop winreg_query winreg_set settings m st)))).
Proof.
  revert m st. induction settings as [|s rest IH]; intros m st Hnd; [exact Hnd|].
  simpl.
  assert (H1 : NoDup (dict_keys
                        (_BACKUP (snd (_apply_setting winreg_query winreg_set s st))))).
  { rewrite apply_setting_backup, backup_setting_spec.
    destruct (dict_mem (setting_key s) (_BACKUP st)); [exact Hnd|].
    now apply dict_set_NoDup. }
  destruct (_apply_setting winreg_query winreg_set s st) as [[e|msg] st1];
    apply IH; exact H1.
Qed.

End BackupCoverage.

(** X9.  After [_apply_settings] every setting of the list has an entry in
    [_BACKUP] -- also the settings whose registry write failed -- and every
    entry that existed before is still there; the keys of the backup stay
    unique. *)
Theorem apply_settings_backs_up_every_key (R : Type)
    (winreg_query : R -> Z -> string -> string -> PrivacyTools.query_result)
    (winreg_set : R -> Z -> string -> string -> Z -> Z -> option string * R)
    (settings : list PrivacyTools.RegSetting) (st : PrivacyTools.state R) :
  let st' := snd (PrivacyTools._apply_settings winreg_query winreg_set settings st) in
  (forall s, In s settings ->
     dict_mem (PrivacyTools.setting_key s) (PrivacyTools._BACKUP st') = true) /\
  (forall k, dict_mem k (PrivacyTools._BACKUP st) = true ->
     dict_mem k (PrivacyTools._BACKUP st') = true) /\
  (NoDup (dict_keys (PrivacyTools._BACKUP st)) ->
   NoDup (dict_keys (PrivacyTools._BACKUP st'))).
Proof.
  intros st'. unfold st'. clear st'. rewrite apply_settings_state.
  refine (conj _ (conj _ _)).
  - generalize (@nil string) as m. revert st.
    induction settings as [|s0 rest IH]; intros st m s Hin; [destruct Hin|].
    simpl.
    pose proof (apply_setting_mem winreg_query winreg_set s0 st) as H0.
    destruct Hin as [->|Hin].
    + destruct (PrivacyTools._apply_setting winreg_query winreg_set s st)
        as [[e|msg] st1]; apply apply_loop_mem_mono; exact H0.
    + destruct (PrivacyTools._apply_setting winreg_query winreg_set s0 st)
        as [[e|msg] st1]; now apply IH.
  - intros k. apply apply_loop_mem_mono.
  - apply apply_loop_NoDup.
Qed.

Section RestoreFacts.

Import PrivacyTools.

Context {R : Type}.

Variable val : R -> backup_key -> option Z.
Variable winreg_query : R -> Z -> string -> string -> query_result.
Variable winreg_set : R -> Z -> string -> string -> Z -> Z -> option string * R.
Variable winreg_delete : R -> Z -> string -> string -> delete_result * R.

Hypothesis laws : registry_laws val winreg_query winreg_set winreg_delete.

Variable r0 : R.

Implicit Types (st : PrivacyTools.state R) (s : RegSetting) (k : backup_key).

Local Abbreviation tracks := (backup_tracks val r0).

Lemma read_exact (root : Z) (path name : string) st :
  _read_reg_value winreg_query root path name st
  = (val (registry st) (root, path, name), st).
Proof.
  unfold _read_reg_value. rewrite (law_query laws).
  now destruct (val (registry st) (root, path, name)).
Qed.

Lemma write_effect (root : Z) (path name : string) (v t : Z) st :
  let st' := snd (_write_reg_value winreg_set root path name v t st) in
  _BACKUP st' = _BACKUP st /\
  forall k, k <> (root, path, name) ->
    val (registry st') k = val (registry st) k.
Proof.
  unfold _write_reg_value.
  pose proof (law_set laws (registry st) root path name t v) as Hset.
  destruct (winreg_set (registry st) root path name t v) as [[e|] r']; simpl in *.
  - split; [reflexivity|]. intros k _. apply Hset.
  - split; [reflexivity|]. intros k Hk. now apply (proj2 Hset).
Qed.

Lemma tracks_emit (l : level) (f : string) (a : list log_arg) st :
  tracks st -> tracks (PrivacyTools.emit l f a st).
Proof. intros H. exact H. Qed.

Lemma backup_setting_tracks s st :
  tracks st ->
  tracks (_backup_setting winreg_query s st) /\
  dict_mem (setting_key s) (_BACKUP (_backup_setting winreg_query s st)) = true /\
  registry (_backup_setting winreg_query s st) = registry st.
Proof.
  intros (Hnd & Hold & Hnew). unfold _backup_setting.
  destruct (dict_mem (setting_key s) (_BACKUP st)) eqn:Hm.
  - split; [now repeat split|]. split; [exact Hm | reflexivity].
  - rewrite read_exact. cbn [fst snd].
    fold (setting_key s).
    split; [|split; [apply dict_mem_set_same | reflexivity]].
    refine (conj _ (conj _ _)); cbn [_BACKUP registry PrivacyTools.emit set_backup].
    + now apply dict_set_NoDup.
    + intros k o Hget.
      destruct (key_eqb_spec (setting_key s) k) as [<-|Hne].
      * rewrite dict_get_set_eq in Hget. injection Hget as <-. now apply Hnew.
      * rewrite dict_get_set_ne in Hget by exact Hne. now apply Hold.
    + intros k Hk. apply Hnew.
      destruct (dict_mem k (_BACKUP st)) eqn:Hk0; [|reflexivity].
      now rewrite (dict_mem_set_mono _ (setting_key s) _ _ Hk0) in Hk.
Qed.

Lemma apply_setting_tracks s st :
  tracks st -> tracks (snd (_apply_setting winreg_query winreg_set s st)).
Proof.
  intros Htr.
  destruct (backup_setting_tracks s Htr) as ((Hnd & Hold & Hnew) & Hmem & Hreg).
  unfold _apply_setting. rewrite read_exact.
  set (st1 := _backup_setting winreg_query s st) in *.
  destruct (write_effect (root s) (path s) (name s) (value s) (value_type s) st1)
    as [Hb Hother].
  assert (Htr3 : tracks (snd (_write_reg_value winreg_set (root s) (path s)
                                (name s) (value s) (value_type s) st1))).
  { refine (conj _ (conj _ _)); rewrite ?Hb; auto.
    intros k Hk. rewrite Hother; [now apply Hnew|].
    intros ->. fold (setting_key s) in Hk. congruence. }
  destruct (_write_reg_value winreg_set (root s) (path s) (name s) (value s)
              (value_type s) st1) as [[e|u] st3]; cbn [fst snd] in *.
  - exact Htr3.
  - rewrite read_exact. cbn [fst snd]. exact Htr3.
Qed.

Lemma apply_loop_tracks (settings : list RegSetting) (m : list string) st :
  tracks st -> tracks (snd (apply_loop winreg_query winreg_set settings m st)).
Proof.
  revert m st. induction settings as [|s rest IH]; intros m st Htr; [exact Htr|].
  simpl. pose proof (apply_setting_tracks s Htr) as H1.
  destruct (_apply_setting winreg_query winreg_set s st) as [[e|msg] st1];
    apply IH; exact H1.
Qed.

(** One pass of the restore loop: every value named in [items] is put back
    to the value recorded for it, and no other value changes. *)
Lemma restore_loop_effect (items : list (backup_key * option Z))
    (m : list string) st :
  NoDup (dict_keys items) ->
  let st' := snd (restore_loop winreg_set winreg_delete items m st) in
  (forall k o, In (k, o) items -> val (registry st') k = o) /\
  (forall k, ~ In k (dict_keys items) ->
             val (registry st') k = val (registry st) k).
Proof.
  revert m st.
  induction items as [|[[[root path] name] o] rest IH]; intros m st Hnd.
  - split; [intros k o []|reflexivity].
  - inversion Hnd as [|? ? Hnotin Hnd']; subst.
    assert (Hstep : exists st1 m1,
              snd (restore_loop winreg_set winreg_delete
                     (((root, path, name), o) :: rest) m st)
              = snd (restore_loop winreg_set winreg_delete rest m1 st1) /\
              val (registry st1) (root, path, name) = o /\
              forall k, k <> (root, path, name) ->
                val (registry st1) k = val (registry st) k).
    { simpl. destruct o as [v|].
      - pose proof (law_set laws (registry st) root path name REG_DWORD v) as Hset.
        pose proof (law_set_dword laws (registry st) root path name v) as Hok.
        destruct (winreg_set (registry st) root path name REG_DWORD v)
          as [[e|] r']; simpl in *; [discriminate|].
        eexists _, _. split; [reflexivity|]. exact Hset.
      - pose proof (law_delete laws (registry st) root path name) as Hdel.
        destruct (val (registry st) (root, path, name)) as [v0|] eqn:Hv.
        + destruct Hdel as (Hd & Hgone & Hother).
          destruct (winreg_delete (registry st) root path name) as [d r'].
          simpl in *. subst d.
          eexists _, _. split; [reflexivity|]. split; [exact Hgone | exact Hother].
        + destruct (winreg_delete (registry st) root path name) as [[| |e] r'];
            simpl in *; eexists _, _; (split; [reflexivity|]);
            (split; [now rewrite Hdel | intros k _; apply Hdel]). }
    destruct Hstep as (st1 & m1 & Heq & Hk1 & Hother1).
    cbv zeta. unfold backup_key in *. rewrite Heq.
    destruct (IH m1 st1 Hnd') as [Hin Hout].
    split.
    + intros k o' [[= <- <-]|Hin'].
      * rewrite Hout by exact Hnotin. exact Hk1.
      * now apply Hin.
    + intros k Hk. simpl in Hk.
      rewrite Hout by tauto. apply Hother1. intros ->. tauto.
Qed.

Lemma restore_tracks st :
  tracks st ->
  let st' := snd (restore_privacy_defaults winreg_set winreg_delete st) in
  tracks st' /\ forall k, val (registry st') k = val r0 k.
Proof.
  intros (Hnd & Hold & Hnew). unfold restore_privacy_defaults.
  set (st1 := PrivacyTools.emit INFO "Restoring privacy defaults..." [] st).
  pose proof (restore_loop_backup winreg_set winreg_delete (_BACKUP st1) [] st1)
    as Hb.
  destruct (restore_loop_effect (_BACKUP st1) [] st1 Hnd) as [Hin Hout].
  destruct (restore_loop winreg_set winreg_delete (_BACKUP st1) [] st1)
    as [ms st2]. cbn [fst snd] in *.
  assert (Hall : forall k, val (registry st2) k = val r0 k).
  { intros k. destruct (dict_get k (_BACKUP st)) as [o|] eqn:Hget.
    - rewrite (Hin k o (dict_get_In _ _ Hget)). now apply Hold.
    - assert (Hm : dict_mem k (_BACKUP st) = false)
        by (unfold dict_mem; now rewrite Hget).
      rewrite Hout; [now apply Hnew|].
      intros Hk. apply dict_mem_keys in Hk. change (_BACKUP st1) with (_BACKUP st) in Hk.
      congruence. }
  assert (Htr : tracks st2).
  { refine (conj _ (conj _ _)); rewrite ?Hb; auto. }
  destruct ms; cbn [fst snd]; split; assumption.
Qed.

Lemma run_call_tracks (c : privacy_call) st :
  tracks st ->
  tracks (snd (run_call winreg_query winreg_set winreg_delete c st)).
Proof.
  intros Htr. destruct c; cbn [run_call].
  - unfold apply_recommended_privacy_profile.
    match goal with
    | |- context [_apply_settings _ _ ?l ?s0] =>
        pose proof (apply_settings_state winreg_query winreg_set l s0) as Hs;
        pose proof (@apply_loop_tracks l [] s0 Htr) as Hl;
        destruct (_apply_settings winreg_query winreg_set l s0)
    end.
    cbn [fst snd] in *. now rewrite Hs.
  - unfold apply_strict_privacy_profile.
    match goal with
    | |- context [_apply_settings _ _ ?l ?s0] =>
        pose proof (apply_settings_state winreg_query winreg_set l s0) as Hs;
        pose proof (@apply_loop_tracks l [] s0 Htr) as Hl;
        destruct (_apply_settings winreg_query winreg_set l s0)
    end.
    cbn [fst snd] in *. now rewrite Hs.
  - apply (restore_tracks Htr).
Qed.

Lemma run_calls_tracks (cs : list privacy_call) st :
  tracks st ->
  tracks (run_calls winreg_query winreg_set winreg_delete cs st).
Proof.
  revert st. induction cs as [|c cs IH]; intros st Htr; [exact Htr|].
  simpl. apply IH. now apply run_call_tracks.
Qed.

End RestoreFacts.

(** X10.  Restore undoes a session.  On a registry that behaves like a map
    of DWORD values, start from an empty backup, make any sequence of calls
    (recommended profile, strict profile, restore, in any order and number)
    and end with [restore_privacy_defaults]: every registry value is then
    what it was when the session started -- values the profiles created
    are deleted, values they changed are written back, and values whose
    write failed were never changed. *)
Theorem restore_undoes_the_session (R : Type)
    (val : R -> PrivacyTools.backup_key -> option Z)
    (winreg_query : R -> Z -> string -> string -> PrivacyTools.query_result)
    (winreg_set : R -> Z -> string -> string -> Z -> Z -> option string * R)
    (winreg_delete : R -> Z -> string -> string -> PrivacyTools.delete_result * R)
    (calls : list PrivacyTools.privacy_call) (st : PrivacyTools.state R) :
  registry_laws val winreg_query winreg_set winreg_delete ->
  PrivacyTools._BACKUP st = [] ->
  forall k,
    val (PrivacyTools.registry
           (PrivacyTools.run_calls winreg_query winreg_set winreg_delete
              (calls ++ [PrivacyTools.RestoreDefaults]) st)) k
    = val (PrivacyTools.registry st) k.
Proof.
  intros laws Hempty k.
  assert (Htr : backup_tracks val (PrivacyTools.registry st) st).
  { unfold backup_tracks. rewrite Hempty. repeat split.
    - constructor.
    - intros k0 o H. discriminate H. }
  unfold PrivacyTools.run_calls. rewrite fold_left_app. cbn [fold_left].
  apply (restore_tracks laws).
  now apply (run_calls_tracks laws).
Qed.

(* ===================================================================== *)
(** * The router and the keyword interpreter of the command line *)
(* ===================================================================== *)

Section KeywordInterpreters.

Context {W : Type}.

Implicit Types (ACTIONS : dict string (Action W)).

(** The de-duplication loop keeps every registered id it is given. *)
Lemma dedup_valid_complete ACTIONS (selected seen result : list string)
    (x : string) :
  (forall y, In y seen -> In y result) ->
  In x selected -> dict_mem x ACTIONS = true ->
  In x (dedup_valid ACTIONS selected seen result).
Proof.
  revert seen result.
  induction selected as [|aid rest IH]; intros seen result Hseen Hin Hmem;
    [destruct Hin|].
  simpl. destruct Hin as [->|Hin].
  - rewrite Hmem. simpl.
    destruct (existsb (String.eqb x) seen) eqn:Hex; simpl.
    + rewrite dedup_valid_result. apply in_or_app. left. apply Hseen.
      apply existsb_exists in Hex. destruct Hex as (y & Hy & Heq).
      apply String.eqb_eq in Heq. now subst.
    + rewrite dedup_valid_result. apply in_or_app. left.
      apply In_py_append. now right.
  - destruct (dict_mem aid ACTIONS && negb (existsb (String.eqb aid) seen)).
    + apply IH; auto. intros y [<-|Hy]; apply In_py_append; auto.
    + now apply IH.
Qed.

Lemma privacy_rules_selects (text : string) (sel : list string) :
  privacy_branch text = true ->
  exists x, In x cli_privacy_ids /\ In x (privacy_rules text sel).
Proof.
  unfold privacy_branch, privacy_rules. intros Hp.
  destruct (contains "privacy" text); simpl in *.
  - destruct (contains "strict" text);
      [exists "privacy_strict"|
       destruct (contains "default" text);
       [exists "privacy_restore_defaults" | exists "privacy_recommended"]];
      (split; [simpl; tauto | apply In_py_append; now right]).
  - rewrite Hp. exists "privacy_recommended".
    split; [simpl; tauto | apply In_py_append; now right].
Qed.

Lemma generic_rules_keeps (text x : string) (sel : list string) :
  In x sel -> In x (generic_rules text sel).
Proof. destruct sel; [intros [] | intros H; exact H]. Qed.

(** A text about privacy makes the keyword strategy select a privacy id,
    when the three privacy ids are registered. *)
Lemma fallback_selects_privacy ACTIONS (request : string) :
  Forall (fun aid => dict_mem aid ACTIONS = true) cli_privacy_ids ->
  privacy_branch (lower request) = true ->
  _fallback_choose_action_ids ACTIONS request <> [].
Proof.
  intros Hreg Hp. unfold _fallback_choose_action_ids, fallback_selected.
  cbv zeta.
  match goal with
  | |- dedup_valid _ (generic_rules _ (privacy_rules _ ?sel)) _ _ <> _ =>
      destruct (privacy_rules_selects (lower request) sel Hp) as (x & Hx & Hin)
  end.
  apply (generic_rules_keeps (lower request)) in Hin.
  assert (Hmem : dict_mem x ACTIONS = true)
    by exact (proj1 (Forall_forall _ _) Hreg x Hx).
  pose proof (dedup_valid_complete ACTIONS _ [] [] x (fun y H => H) Hin Hmem) as Hd.
  intros Heq. rewrite Heq in Hd. destruct Hd.
Qed.

(** The keyword interpreter of the command line returns an action only
    from its privacy branch, when the ids of its other branches are not
    registered. *)
Lemma keyword_interpreter_needs_privacy ACTIONS (text : string) (a : Action W) :
  Forall (fun aid => dict_get aid ACTIONS = None) cli_only_ids ->
  interpret_command_keyword ACTIONS text = Some a ->
  privacy_branch (lower text) = true.
Proof.
  intros Hnone. unfold cli_only_ids in Hnone.
  repeat match goal with
         | H : Forall _ (_ :: _) |- _ => inversion H; clear H; subst
         | H : Forall _ [] |- _ => clear H
         end.
  unfold interpret_command_keyword, privacy_branch.
  generalize (lower text). intros t.
  repeat match goal with
         | H : dict_get _ ACTIONS = None |- _ => rewrite H; clear H
         end.
  repeat match goal with
         | |- (if ?c then None else _) = Some _ -> _ =>
             destruct c; [intros Hf; discriminate Hf|]
         end.
  destruct (contains "privacy" t || contains "telemetry" t
            || contains "tracking" t); [reflexivity | intros Hf; discriminate Hf].
Qed.

End KeywordInterpreters.

Section ShippedIds.

Context {W : Type}.

Variable import_system_tools : string + @tools_module W.
Variable import_privacy_tools : string + @tools_module W.
Variable e : string.
Variable w : W.

Lemma shipped_cli_ids_absent :
  Forall (fun aid =>
            dict_get aid
              (_ACTIONS (shipped_state import_system_tools import_privacy_tools e w))
            = None) cli_only_ids.
Proof.
  rewrite shipped_registry. unfold cli_only_ids.
  repeat (apply Forall_cons; [vm_compute; reflexivity|]). apply Forall_nil.
Qed.

Lemma shipped_privacy_ids_present :
  Forall (fun aid =>
            dict_mem aid
              (_ACTIONS (shipped_state import_system_tools import_privacy_tools e w))
            = true) cli_privacy_ids.
Proof.
  rewrite shipped_registry. unfold cli_privacy_ids.
  repeat (apply Forall_cons; [vm_compute; reflexivity|]). apply Forall_nil.
Qed.

End ShippedIds.

Section RouterAndKeywords.

Context {W : Type}.

(** When the ids of the health, cleanup, network and tools branches are
    not registered and the three privacy ids are, the keyword interpreter
    finds nothing the router missed. *)
Lemma router_empty_keyword_none (gemini : option (string -> gemini_run))
    (user : string) (st : state W) :
  Forall (fun aid => dict_get aid (_ACTIONS st) = None) cli_only_ids ->
  Forall (fun aid => dict_mem aid (_ACTIONS st) = true) cli_privacy_ids ->
  fst (choose_actions_for_request gemini user st) = [] ->
  interpret_command_keyword (_ACTIONS st) user = None.
Proof.
  intros Habsent Hpresent Hempty.
  destruct (interpret_command_keyword (_ACTIONS st) user) as [a|] eqn:Hfound;
    [exfalso | reflexivity].
  apply (keyword_interpreter_needs_privacy _ _ Habsent) in Hfound.
  (* the privacy word survives [strip] *)
  assert (Hp : privacy_branch (lower (strip user)) = true /\
               truthy (strip user) = true).
  { assert (Hword : forall c k,
              is_space c = false -> ends_solid (String c k) = true ->
              contains (String c k) (lower user) = true ->
              contains (String c k) (lower (strip user)) = true /\
              truthy (strip user) = true).
    { intros c k Hc Hk Ht. rewrite lower_strip.
      pose proof (@contains_strip c k (lower user) Hc Hk Ht) as Hs.
      split; [exact Hs|]. rewrite <- lower_strip in Hs.
      apply contains_nonempty in Hs. now rewrite truthy_lower in Hs. }
    unfold privacy_branch in *.
    apply orb_true_iff in Hfound. destruct Hfound as [Hfound|Ht].
    - apply orb_true_iff in Hfound. destruct Hfound as [Ht|Ht].
      + eapply Hword in Ht; [|reflexivity|reflexivity]; destruct Ht as [Hs Hn].
        now rewrite Hs.
      + eapply Hword in Ht; [|reflexivity|reflexivity]; destruct Ht as [Hs Hn].
        now rewrite Hs, orb_true_r.
    - eapply Hword in Ht; [|reflexivity|reflexivity]; destruct Ht as [Hs Hn].
      now rewrite Hs, orb_true_r. }
  destruct Hp as [Hp Htruthy].
  rewrite choose_actions_plan, Htruthy in Hempty.
  assert (Hlen : forall ids, (forall x, In x ids -> dict_mem x (_ACTIONS st) = true) ->
                 ids <> [] -> lookup_all (_ACTIONS st) ids <> []).
  { intros ids Hv Hne Hl. destruct (lookup_all_valid (_ACTIONS st) ids Hv) as [Hlen _].
    rewrite Hl in Hlen. destruct ids; [congruence | discriminate Hlen]. }
  destruct (remote_ids gemini (_ACTIONS st) (strip user)) as [|x xs] eqn:Hrem.
  - revert Hempty. apply Hlen; [intros x; apply fallback_ids_valid|].
    apply fallback_selects_privacy; [exact Hpresent | exact Hp].
  - revert Hempty. apply Hlen; [|discriminate].
    intros y Hy. rewrite <- Hrem in Hy. now apply remote_ids_valid in Hy.
Qed.

End RouterAndKeywords.

(** X11.  In the program as shipped, the keyword interpreter of the
    command-line module never finds an action the router missed: for every
    input and every behaviour of the remote strategy, if
    [choose_actions_for_request] returns the empty plan then
    [interpret_command_keyword] returns [None] for that input. *)
Theorem cli_keyword_fallback_finds_nothing (W : Type)
    (import_system_tools import_privacy_tools : string + @tools_module W)
    (e : string) (w : W) (gemini : option (string -> gemini_run))
    (user : string) :
  let st := shipped_state import_system_tools import_privacy_tools e w in
  fst (choose_actions_for_request gemini user st) = [] ->
  interpret_command_keyword (_ACTIONS st) user = None.
Proof.
  intros st. apply router_empty_keyword_none.
  - apply shipped_cli_ids_absent.
  - apply shipped_privacy_ids_present.
Qed.

(* ===================================================================== *)
(** * Further properties of the desktop surface *)
(* ===================================================================== *)

Section MaintenanceFacts.

Context {W : Type}.

Implicit Types (g : @gui W) (st : state W).

(** What the activity log keeps for one maintenance step. *)
Lemma maintenance_loop_spec (steps : list (string * string)) g :
  let ref := outcomes_in_order (found_steps steps (app g)) (world (app g)) in
  let g' := maintenance_loop steps g in
  world (app g') = snd ref /\
  _ACTIONS (app g') = _ACTIONS (app g) /\
  dialogs g' = dialogs g /\
  (forall line, In line (log_text g) -> In line (log_text g')) /\
  (forall label e, In (label, Raised e) (fst ref) ->
     In ("[Full Maintenance] " ++ label ++ " failed: " ++ e) (log_text g')).
Proof.
  revert g. induction steps as [|[action_id label] rest IH]; intros g.
  - simpl. repeat split; auto. intros label e [].
  - cbn [maintenance_loop found_steps].
    destruct (get_action_by_id action_id (app g)) as [action|] eqn:Hget.
    + cbn [outcomes_in_order].
      set (g1 := _log ("[Full Maintenance] Running: " ++ label) g).
      change (world (app g1)) with (world (app g)).
      destruct (func action (world (app g))) as [o w'] eqn:Hf.
      assert (Hnext : forall line,
                let g2 := _log line (set_app (set_world w' (app g1)) g1) in
                let ref := outcomes_in_order (found_steps rest (app g)) w' in
                world (app (maintenance_loop rest g2)) = snd ref /\
                _ACTIONS (app (maintenance_loop rest g2)) = _ACTIONS (app g) /\
                dialogs (maintenance_loop rest g2) = dialogs g /\
                (forall l, In l (log_text g) -> In l (log_text (maintenance_loop rest g2))) /\
                In line (log_text (maintenance_loop rest g2)) /\
                (forall lb e, In (lb, Raised e) (fst ref) ->
                   In ("[Full Maintenance] " ++ lb ++ " failed: " ++ e)
                     (log_text (maintenance_loop rest g2)))).
      { intros line g2 ref.
        destruct (IH g2) as (Hw & Ha & Hd & Hl & Hr).
        assert (Hsame : found_steps rest (app g2) = found_steps rest (app g)).
        { clear. induction rest as [|[i l] r IHr]; [reflexivity|].
          cbn [found_steps]. rewrite IHr. reflexivity. }
        rewrite Hsame in Hw, Hr. change (world (app g2)) with w' in Hw, Hr.
        refine (conj Hw (conj Ha (conj Hd (conj _ (conj _ Hr))))).
        - intros l Hin. apply Hl. simpl. apply in_or_app. left.
          apply in_or_app. now left.
        - apply Hl. simpl. apply in_or_app. right. now left. }
      destruct (outcomes_in_order (found_steps rest (app g)) w') as [os w2] eqn:Hos.
      destruct o as [result|e].
      * match goal with
        | |- context [maintenance_loop rest (_log ?line _)] =>
            destruct (Hnext line) as (Hw & Ha & Hd & Hl & _ & Hr)
        end.
        cbn [fst snd] in *.
        refine (conj Hw (conj Ha (conj Hd (conj Hl _)))).
        intros lb e [Heq|Hin]; [discriminate Heq | now apply Hr].
      * destruct (Hnext ("[Full Maintenance] " ++ label ++ " failed: " ++ e))
          as (Hw & Ha & Hd & Hl & Hline & Hr).
        cbn [fst snd] in *.
        refine (conj Hw (conj Ha (conj Hd (conj Hl _)))).
        intros lb e' [[= <- <-]|Hin]; [exact Hline | now apply Hr].
    + set (g1 := _log ("[Full Maintenance] Action '" ++ action_id
                        ++ "' not found.") g).
      destruct (IH g1) as (Hw & Ha & Hd & Hl & Hr).
      assert (Hsame : found_steps rest (app g1) = found_steps rest (app g)).
      { clear. induction rest as [|[i l] r IHr]; [reflexivity|].
        cbn [found_steps]. rewrite IHr. reflexivity. }
      rewrite Hsame in Hw, Hr. change (world (app g1)) with (world (app g)) in Hw, Hr.
      refine (conj Hw (conj Ha (conj Hd (conj _ Hr)))).
      intros l Hin. apply Hl. simpl. apply in_or_app. now left.
Qed.

End MaintenanceFacts.


Section RunActionFacts.

Context {W : Type}.

(** The part of [_on_run_action] after the confirmation: the handler is
    called once; the dialogs grow by at most one error box. *)
Lemma run_confirmed_spec (action : Action W) (g0 : @gui W) :
  let g' :=
    match func action (world (app (_log ("Running action: " ++ name action) g0))) with
    | (Returned result, w') =>
        let g1 := _log ("Running action: " ++ name action) g0 in
        let g2 := set_app (set_world w' (app g1)) g1 in
        let g3 :=
          match result with
          | Some s => if truthy s then _log s g2 else g2
          | None => g2
          end in
        _log ("Action completed: " ++ name action) g3
    | (Raised e, w') =>
        let g1 := _log ("Running action: " ++ name action) g0 in
        let g2 := set_app (set_world w' (app g1)) g1 in
        show (ShowError "Action Failed" e) (_log ("Action failed: " ++ e) g2)
    end in
  world (app g') = snd (func action (world (app g0))) /\
  exists rest, dialogs g' = (dialogs g0 ++ rest)%list /\
               forall t m, ~ In (AskYesNo t m) rest.
Proof.
  cbv zeta.
  change (world (app (_log ("Running action: " ++ name action) g0)))
    with (world (app g0)).
  destruct (func action (world (app g0))) as [[result|e] w']; cbn [snd].
  - split.
    + destruct result as [s|]; [destruct (truthy s)|]; reflexivity.
    + exists []. rewrite app_nil_r. split; [|intros t m []].
      destruct result as [s|]; [destruct (truthy s)|]; reflexivity.
  - split; [reflexivity|].
    exists [ShowError "Action Failed" e]. split; [reflexivity|].
    intros t m [Hin|[]]. discriminate Hin.
Qed.

End RunActionFacts.

(** X13.  Running an action from its button or by id.  An id that is not
    registered gives an error box and nothing runs.  A dangerous action
    the user declines is not run: the machine and the activity log are
    untouched and the only trace is the confirmation dialog.  In every
    other case the handler is called exactly once, on the current machine;
    a dangerous action was confirmed first, and an action that is not
    dangerous shows no confirmation dialog. *)
Theorem run_action_by_id_respects_confirmation (W : Type)
    (askyesno : string -> string -> bool) (action_id : string) (g : @gui W) :
  let g' := _run_action_by_id askyesno action_id g in
  match get_action_by_id action_id (app g) with
  | None =>
      world (app g') = world (app g) /\
      dialogs g' =
        (dialogs g ++ [ShowError "Action Not Found"
                         ("Action '" ++ action_id ++ "' not found.")])%list
  | Some action =>
      let question :=
        AskYesNo "Confirm Action"
          ("This action is marked as dangerous and may affect system stability."
           ++ nl ++ nl ++ "Run '" ++ name action ++ "'?") in
      let confirmed :=
        askyesno "Confirm Action"
          ("This action is marked as dangerous and may affect system stability."
           ++ nl ++ nl ++ "Run '" ++ name action ++ "'?") in
      if dangerous action && negb confirmed
      then world (app g') = world (app g) /\
           log_text g' = log_text g /\
           dialogs g' = (dialogs g ++ [question])%list
      else world (app g') = snd (func action (world (app g))) /\
           (dangerous action = true ->
            exists rest, dialogs g' = (dialogs g ++ question :: rest)%list) /\
           (dangerous action = false ->
            forall t m, ~ In (AskYesNo t m) (dialogs g) ->
                        ~ In (AskYesNo t m) (dialogs g'))
  end.
Proof.
  intros g'. unfold g', _run_action_by_id.
  destruct (get_action_by_id action_id (app g)) as [action|]; [|split; reflexivity].
  cbv zeta. unfold _on_run_action. cbv zeta.
  destruct (dangerous action && negb _) eqn:Hdec.
  - refine (conj eq_refl (conj eq_refl eq_refl)).
  - destruct (dangerous action) eqn:Hd; cbn [andb] in Hdec.
    + match goal with
      | |- world (app ?X) = _ /\ _ =>
          pose proof (run_confirmed_spec action
                        (show (AskYesNo "Confirm Action"
                                 ("This action is marked as dangerous and may affect system stability."
                                  ++ nl ++ nl ++ "Run '" ++ name action ++ "'?")) g))
            as Hspec
      end.
      cbv zeta in Hspec. destruct Hspec as (Hw & rest & Hd' & _).
      refine (conj Hw (conj _ _)).
      * intros _. exists rest. rewrite Hd'.
        change (dialogs (show ?d g)) with (dialogs g ++ [d])%list.
        rewrite <- app_assoc. reflexivity.
      * intros Hf. discriminate Hf.
    + pose proof (run_confirmed_spec action g) as Hspec.
      cbv zeta in Hspec. destruct Hspec as (Hw & rest & Hd' & Hno).
      refine (conj Hw (conj _ _)).
      * intros Hf. discriminate Hf.
      * intros _ t m Hnot Hin. rewrite Hd' in Hin.
        apply in_app_or in Hin. destruct Hin as [Hin|Hin];
          [now apply Hnot | now apply (Hno t m)].
Qed.

Section QuickFacts.

Context {W : Type}.

(** What [interpret_command] does to the machine depends on the registry
    and the machine only, not on what was logged before. *)
Lemma interpret_command_world (gemini : option (string -> gemini_run))
    (text : string) (s1 s2 : state W) :
  world s1 = world s2 -> _ACTIONS s1 = _ACTIONS s2 ->
  world (snd (interpret_command gemini text s1))
  = world (snd (interpret_command gemini text s2)).
Proof.
  intros Hw Ha. unfold interpret_command.
  pose proof (choose_actions_plan gemini text s1) as P1.
  pose proof (choose_actions_plan gemini text s2) as P2.
  pose proof (choose_actions_world gemini text s1) as W1.
  pose proof (choose_actions_world gemini text s2) as W2.
  destruct (choose_actions_for_request gemini text s1) as [a1 t1].
  destruct (choose_actions_for_request gemini text s2) as [a2 t2].
  cbn [fst snd] in *. rewrite Ha in P1. rewrite <- P2 in P1. subst a2.
  destruct a1 as [|a rest]; [cbn [snd world emit]; congruence|].
  destruct (run_plan_spec (a :: rest) [] t1) as (n1 & _ & Hw1 & _).
  destruct (run_plan_spec (a :: rest) [] t2) as (n2 & _ & Hw2 & _).
  destruct (run_plan (a :: rest) [] t1) as [r1 u1].
  destruct (run_plan (a :: rest) [] t2) as [r2 u2].
  cbn [fst snd] in *. congruence.
Qed.

End QuickFacts.


(** X15.  The uptime shown in the status panel.  A count that is not
    positive is shown as Unknown.  A positive count is shown as whole
    days, hours below 24 and minutes below 60 that account for the count
    up to the seconds that are dropped: zero parts are left out, except
    that an uptime below one minute is shown as 0m, so the text is never
    empty. *)
Theorem format_uptime_accounts_for_the_seconds (seconds : Z) :
  ((seconds <= 0)%Z -> _format_uptime seconds = "Unknown") /\
  ((0 < seconds)%Z ->
   _format_uptime seconds <> EmptyString /\
   exists days hours minutes : Z,
     (0 <= days /\ 0 <= hours < 24 /\ 0 <= minutes < 60)%Z /\
     (days * 86400 + hours * 3600 + minutes * 60 <= seconds
      < days * 86400 + hours * 3600 + minutes * 60 + 60)%Z /\
     _format_uptime seconds = uptime_text days hours minutes).
Proof.
  split.
  - intros Hle. unfold _format_uptime.
    destruct (Z.leb_spec seconds 0) as [_|Hgt]; [reflexivity | lia].
  - intros Hpos. unfold _format_uptime.
    destruct (Z.leb_spec seconds 0) as [Hle|_]; [lia|]. cbv zeta.
    set (days := (seconds / 86400)%Z).
    set (r1 := (seconds mod 86400)%Z).
    set (hours := (r1 / 3600)%Z).
    set (r2 := (r1 mod 3600)%Z).
    set (minutes := (r2 / 60)%Z).
    assert (Hr1 : (0 <= r1 < 86400)%Z) by (apply Z.mod_pos_bound; lia).
    assert (Hr2 : (0 <= r2 < 3600)%Z) by (apply Z.mod_pos_bound; lia).
    assert (Hs : (seconds = 86400 * days + r1)%Z) by (apply Z.div_mod; lia).
    assert (H1 : (r1 = 3600 * hours + r2)%Z) by (apply Z.div_mod; lia).
    assert (H2 : (r2 = 60 * minutes + r2 mod 60)%Z) by (apply Z.div_mod; lia).
    assert (Hr3 : (0 <= r2 mod 60 < 60)%Z) by (apply Z.mod_pos_bound; lia).
    assert (Hd : (0 <= days)%Z) by (apply Z.div_pos; lia).
    assert (Hh : (0 <= hours < 24)%Z).
    { split; [apply Z.div_pos; lia | apply Z.div_lt_upper_bound; lia]. }
    assert (Hm : (0 <= minutes < 60)%Z).
    { split; [apply Z.div_pos; lia | apply Z.div_lt_upper_bound; lia]. }
    assert (Htext :
      String.concat " "
        (if negb (minutes =? 0)%Z ||
            negb match (if negb (hours =? 0)%Z
                        then py_append
                               (if negb (days =? 0)%Z
                                then py_append [] (PrivacyTools.str_int days ++ "d")
                                else [])
                               (PrivacyTools.str_int hours ++ "h")
                        else if negb (days =? 0)%Z
                             then py_append [] (PrivacyTools.str_int days ++ "d")
                             else []) with
                 | [] => false
                 | _ :: _ => true
                 end
         then py_append
                (if negb (hours =? 0)%Z
                 then py_append
                        (if negb (days =? 0)%Z
                         then py_append [] (PrivacyTools.str_int days ++ "d")
                         else [])
                        (PrivacyTools.str_int hours ++ "h")
                 else if negb (days =? 0)%Z
                      then py_append [] (PrivacyTools.str_int days ++ "d")
                      else [])
                (PrivacyTools.str_int minutes ++ "m")
         else if negb (hours =? 0)%Z
              then py_append
                     (if negb (days =? 0)%Z
                      then py_append [] (PrivacyTools.str_int days ++ "d")
                      else [])
                     (PrivacyTools.str_int hours ++ "h")
              else if negb (days =? 0)%Z
                   then py_append [] (PrivacyTools.str_int days ++ "d")
                   else [])
      = uptime_text days hours minutes).
    { unfold uptime_text, py_append.
      destruct (days =? 0)%Z, (hours =? 0)%Z, (minutes =? 0)%Z; reflexivity. }
    split.
    + rewrite Htext. unfold uptime_text.
      assert (Hcat : forall (a : string) (c : ascii) (rest : list string),
                String.concat " " ((a ++ String c EmptyString) :: rest)
                <> EmptyString).
      { intros a c rest. destruct rest as [|b rest]; cbn [String.concat].
        - destruct a; discriminate.
        - destruct a; discriminate. }
      destruct (days =? 0)%Z, (hours =? 0)%Z, (minutes =? 0)%Z;
        cbn [andb negb List.app]; apply Hcat.
    + exists days, hours, minutes.
      split; [lia|]. split; [lia|]. exact Htext.
Qed.

(* ===================================================================== *)
(** * Version comparison of the self-updater *)
(* ===================================================================== *)

Section TupleOrder.

Import SelfUpdater.

Lemma tuple_gt_irrefl (a : list N) : tuple_gt a a = false.
Proof.
  induction a as [|x a IH]; [reflexivity|].
  cbn [tuple_gt]. now rewrite N.eqb_refl.
Qed.

Lemma tuple_gt_asym (a b : list N) : tuple_gt a b = true -> tuple_gt b a = false.
Proof.
  revert b. induction a as [|x a IH]; intros [|y b] Hgt; try discriminate;
    try reflexivity.
  cbn [tuple_gt] in *.
  destruct (N.eqb_spec x y) as [->|Hne].
  - rewrite N.eqb_refl. now apply IH.
  - destruct (N.eqb_spec y x) as [->|_]; [congruence|].
    apply N.ltb_lt in Hgt. apply N.ltb_ge. lia.
Qed.

Lemma tuple_gt_trans (a b c : list N) :
  tuple_gt a b = true -> tuple_gt b c = true -> tuple_gt a c = true.
Proof.
  revert b c. induction a as [|x a IH]; intros [|y b] [|z c] Hab Hbc;
    try discriminate; try reflexivity.
  cbn [tuple_gt] in *.
  destruct (N.eqb_spec x y) as [->|Hxy].
  - destruct (N.eqb_spec y z) as [->|Hyz]; [now apply (IH b c) | exact Hbc].
  - apply N.ltb_lt in Hab.
    destruct (N.eqb_spec y z) as [->|Hyz].
    + destruct (N.eqb_spec x z) as [->|_]; [lia | now apply N.ltb_lt].
    + apply N.ltb_lt in Hbc.
      destruct (N.eqb_spec x z) as [->|_]; [lia | apply N.ltb_lt; lia].
Qed.

(** A tuple is greater than each of its proper prefixes. *)
Lemma tuple_gt_extension (a more : list N) :
  more <> [] -> tuple_gt (a ++ more) a = true.
Proof.
  intros Hmore. induction a as [|x a IH]; cbn [List.app tuple_gt].
  - destruct more; [congruence | reflexivity].
  - now rewrite N.eqb_refl.
Qed.

End TupleOrder.

Section StringFacts.

Lemma string_app_assoc (a b c : string) : ((a ++ b) ++ c = a ++ (b ++ c))%string.
Proof. induction a as [|x a IH]; cbn [String.append]; [reflexivity | now rewrite IH]. Qed.

Lemma string_app_nil_r (a : string) : (a ++ "" = a)%string.
Proof. induction a as [|x a IH]; cbn [String.append]; [reflexivity | now rewrite IH]. Qed.

End StringFacts.

Section VersionFacts.

Import SelfUpdater.

Variable py_int : string -> option N.

Lemma num_str_stops (p rest : string) (c : ascii) :
  isdigit c = false -> num_str (p ++ String c rest) = num_str p.
Proof.
  intros Hc. induction p as [|x p IH]; cbn [String.append num_str].
  - now rewrite Hc.
  - destruct (isdigit x); [now rewrite IH | reflexivity].
Qed.

Lemma split_dots_go_no_dot (cur s : string) :
  no_dot s = true -> split_dots_go cur s = [cur ++ s]%string.
Proof.
  revert cur. induction s as [|x s IH]; intros cur Hs; cbn [split_dots_go].
  - now rewrite string_app_nil_r.
  - unfold no_dot in *. cbn [list_ascii_of_string existsb] in Hs.
    rewrite Ascii.eqb_sym.
    destruct (Ascii.eqb "." x); [discriminate Hs|].
    rewrite (IH _ Hs), string_app_assoc. reflexivity.
Qed.

Lemma numeric_part_stops (p rest : string) (c : ascii) :
  isdigit c = false ->
  numeric_part py_int (p ++ String c rest) = numeric_part py_int p.
Proof. intros Hc. unfold numeric_part. now rewrite num_str_stops. Qed.

Lemma parse_go_suffix (v cur suffix : string) (c : ascii) :
  isdigit c = false -> no_dot (String c suffix) = true ->
  numeric_parts py_int (split_dots_go cur (v ++ String c suffix))
  = numeric_parts py_int (split_dots_go cur v).
Proof.
  intros Hc Hs. revert cur.
  induction v as [|x v IH]; intros cur.
  - cbn [String.append]. rewrite split_dots_go_no_dot by exact Hs.
    cbn [split_dots_go numeric_parts]. now rewrite numeric_part_stops.
  - cbn [String.append split_dots_go].
    destruct (Ascii.eqb x "."); [|apply IH].
    cbn [numeric_parts]. now rewrite IH.
Qed.

(** The numerals of [decimal] are runs of ASCII digits. *)
Lemma num_str_string_of_uint (d : Decimal.uint) (rest : string) :
  num_str (NilEmpty.string_of_uint d ++ rest)
  = (NilEmpty.string_of_uint d ++ num_str rest)%string.
Proof.
  induction d; cbn [NilEmpty.string_of_uint String.append num_str];
    try reflexivity; now rewrite IHd.
Qed.

Lemma no_dot_string_of_uint (d : Decimal.uint) :
  no_dot (NilEmpty.string_of_uint d) = true.
Proof.
  unfold no_dot.
  induction d; cbn [NilEmpty.string_of_uint list_ascii_of_string existsb];
    try reflexivity; exact IHd.
Qed.

Lemma decimal_as_uint (n : N) :
  decimal n = NilEmpty.string_of_uint (N.to_uint n) /\ N.to_uint n <> Decimal.Nil.
Proof.
  unfold decimal. destruct n as [|p]; [split; [reflexivity | discriminate]|].
  cbn [N.to_uint].
  pose proof (DecimalPos.Unsigned.to_uint_nonnil p) as Hnn.
  split; [|exact Hnn]. now destruct (Pos.to_uint p).
Qed.

Lemma num_str_decimal (n : N) : num_str (decimal n) = decimal n.
Proof.
  destruct (decimal_as_uint n) as [-> _].
  rewrite <- (string_app_nil_r (NilEmpty.string_of_uint (N.to_uint n))) at 1.
  rewrite num_str_string_of_uint. cbn [num_str]. apply string_app_nil_r.
Qed.

Lemma decimal_nonempty (n : N) : String.eqb (decimal n) "" = false.
Proof.
  destruct (decimal_as_uint n) as [-> Hnn].
  destruct (N.to_uint n); [congruence | reflexivity ..].
Qed.

Lemma no_dot_decimal (n : N) : no_dot (decimal n) = true.
Proof. destruct (decimal_as_uint n) as [-> _]. apply no_dot_string_of_uint. Qed.

Lemma split_dots_go_prefix (cur s rest : string) :
  no_dot s = true ->
  split_dots_go cur (s ++ String "." rest)
  = (cur ++ s)%string :: split_dots_go EmptyString rest.
Proof.
  revert cur. induction s as [|x s IH]; intros cur Hs.
  - cbn [String.append split_dots_go]. rewrite string_app_nil_r. reflexivity.
  - cbn [String.append split_dots_go].
    unfold no_dot in *. cbn [list_ascii_of_string existsb] in Hs.
    rewrite Ascii.eqb_sym.
    destruct (Ascii.eqb "." x); [discriminate Hs|].
    rewrite (IH _ Hs), string_app_assoc. reflexivity.
Qed.

Lemma split_dots_dotted (n : N) (components : list N) :
  split_dots (dotted (n :: components)) = map decimal (n :: components).
Proof.
  unfold split_dots, dotted. revert n.
  induction components as [|m components IH]; intros n.
  - cbn [map String.concat]. apply split_dots_go_no_dot, no_dot_decimal.
  - change (String.concat "." (map decimal (n :: m :: components)))
      with (decimal n ++ String "." (String.concat "." (map decimal (m :: components))))%string.
    rewrite split_dots_go_prefix by apply no_dot_decimal.
    rewrite IH. reflexivity.
Qed.

Hypothesis int_ok : int_reads_decimals py_int.

Lemma numeric_parts_decimals (components : list N) :
  Forall (fun n => String.length (decimal n) <= 4300) components ->
  numeric_parts py_int (map decimal components) = Some components.
Proof.
  induction 1 as [|n components Hn _ IH]; [reflexivity|].
  cbn [map numeric_parts]. unfold numeric_part.
  rewrite num_str_decimal, decimal_nonempty, (int_ok n Hn), IH. reflexivity.
Qed.

Lemma parse_dotted (n : N) (components : list N) :
  Forall (fun n => String.length (decimal n) <= 4300) (n :: components) ->
  _parse_version py_int (dotted (n :: components)) = Some (n :: components).
Proof.
  intros Hshort. unfold _parse_version.
  rewrite split_dots_dotted. now apply numeric_parts_decimals.
Qed.

End VersionFacts.

(** X16.  Whatever follows the leading digits of the last component of a
    version text is ignored: appending a tag that starts with a character
    that is neither a digit nor a dot, and that has no dot, changes neither
    the parsed tuple nor any comparison the version takes part in. *)
Theorem parse_version_ignores_tag (py_int : string -> option N)
    (v tag other : string) (c : ascii) :
  SelfUpdater.isdigit c = false ->
  SelfUpdater.no_dot (String c tag) = true ->
  SelfUpdater._parse_version py_int (v ++ String c tag)
    = SelfUpdater._parse_version py_int v /\
  SelfUpdater._is_remote_newer py_int other (v ++ String c tag)
    = SelfUpdater._is_remote_newer py_int other v /\
  SelfUpdater._is_remote_newer py_int (v ++ String c tag) other
    = SelfUpdater._is_remote_newer py_int v other.
Proof.
  intros Hc Htag.
  assert (Hparse : SelfUpdater._parse_version py_int (v ++ String c tag)
                   = SelfUpdater._parse_version py_int v).
  { unfold SelfUpdater._parse_version, split_dots. now apply parse_go_suffix. }
  unfold SelfUpdater._is_remote_newer. rewrite Hparse.
  refine (conj eq_refl (conj eq_refl eq_refl)).
Qed.

(** X17.  [_is_remote_newer] is a strict order on version texts: no
    version is newer than itself, two versions are never each newer than
    the other, and newer-than is transitive. *)
Theorem is_remote_newer_is_a_strict_order (py_int : string -> option N)
    (a b c : string) :
  SelfUpdater._is_remote_newer py_int a a <> Some true /\
  (SelfUpdater._is_remote_newer py_int a b = Some true ->
   SelfUpdater._is_remote_newer py_int b a = Some false) /\
  (SelfUpdater._is_remote_newer py_int a b = Some true ->
   SelfUpdater._is_remote_newer py_int b c = Some true ->
   SelfUpdater._is_remote_newer py_int a c = Some true).
Proof.
  unfold SelfUpdater._is_remote_newer.
  destruct (SelfUpdater._parse_version py_int a) as [ta|];
    destruct (SelfUpdater._parse_version py_int b) as [tb|];
    destruct (SelfUpdater._parse_version py_int c) as [tc|];
    (refine (conj _ (conj _ _));
     [ try discriminate; rewrite tuple_gt_irrefl; discriminate
     | try discriminate; intros [= Hab]; now rewrite (tuple_gt_asym _ _ Hab)
     | try discriminate; intros [= Hab] [= Hbc];
       now rewrite (tuple_gt_trans _ _ _ Hbc Hab) ]).
Qed.

(** X18.  Versions written as dotted decimal numerals are compared
    number by number, not as text: the remote version is newer exactly
    when its tuple of numbers is greater.  In particular a version with
    further components is newer than the version it extends, also when
    the further components are zero. *)
Theorem dotted_versions_compare_by_number (py_int : string -> option N)
    (c r : N) (current remote more : list N) :
  SelfUpdater.int_reads_decimals py_int ->
  Forall (fun n => String.length (SelfUpdater.decimal n) <= 4300)
    (c :: r :: current ++ remote ++ more) ->
  SelfUpdater._parse_version py_int (SelfUpdater.dotted (c :: current))
    = Some (c :: current) /\
  SelfUpdater._is_remote_newer py_int
    (SelfUpdater.dotted (c :: current)) (SelfUpdater.dotted (r :: remote))
    = Some (SelfUpdater.tuple_gt (r :: remote) (c :: current)) /\
  (more <> [] ->
   SelfUpdater._is_remote_newer py_int
     (SelfUpdater.dotted (c :: current))
     (SelfUpdater.dotted (c :: current ++ more)) = Some true).
Proof.
  intros Hint Hshort.
  apply Forall_cons_iff in Hshort. destruct Hshort as [Hc Hshort].
  apply Forall_cons_iff in Hshort. destruct Hshort as [Hr Hshort].
  apply Forall_app in Hshort. destruct Hshort as [Hcur Hshort].
  apply Forall_app in Hshort. destruct Hshort as [Hrem Hmore].
  assert (Pc : SelfUpdater._parse_version py_int (SelfUpdater.dotted (c :: current))
               = Some (c :: current)).
  { apply parse_dotted; [exact Hint | now constructor]. }
  assert (Pr : SelfUpdater._parse_version py_int (SelfUpdater.dotted (r :: remote))
               = Some (r :: remote)).
  { apply parse_dotted; [exact Hint | now constructor]. }
  assert (Pm : SelfUpdater._parse_version py_int
                 (SelfUpdater.dotted (c :: current ++ more))
               = Some (c :: current ++ more)).
  { apply parse_dotted; [exact Hint|]. constructor; [exact Hc|].
    apply Forall_app. now split. }
  unfold SelfUpdater._is_remote_newer. rewrite Pc, Pr, Pm.
  refine (conj eq_refl (conj eq_refl _)).
  intros Hne. f_equal.
  exact (tuple_gt_extension (c :: current) Hne).
Qed.

Section UpdateCheckFacts.

Import SelfUpdater.

Lemma feed_url_is_configured :
  negb (truthy UPDATE_FEED_URL) || prefix "https://example.com" UPDATE_FEED_URL
  = false.
Proof. vm_compute. reflexivity. Qed.

Lemma truthy_nonempty (s : string) : truthy s = true -> s <> EmptyString.
Proof. intros Ht ->. discriminate Ht. Qed.

End UpdateCheckFacts.

(** X19.  The result of an update check is consistent.  When
    [check_for_updates] returns, the result names the running version;
    it carries the update to download exactly when its status is
    update_available, and a remote version exactly when its status is not
    error; a failed fetch gives status error with the failure text; and an
    update is only offered with the version and the download address of
    the feed, both non-empty, and a version that [_is_remote_newer] finds
    newer than the running one.  The only way not to return is an [int]
    that rejects a component of the feed's version. *)
Theorem update_check_result_is_consistent
    (py_int : string -> option N) (py_str : json -> string)
    (fetch : string -> list log_record * (string + dict string json)) :
  match snd (SelfUpdater.check_for_updates py_int py_str fetch) with
  | None =>
      exists fetch_log data,
        fetch SelfUpdater.UPDATE_FEED_URL = (fetch_log, inr data) /\
        SelfUpdater._is_remote_newer py_int "1.0.0"
          (SelfUpdater.field py_str "latest_version" data) = None
  | Some result =>
      SelfUpdater.current_version result = "1.0.0" /\
      (SelfUpdater.status result = SelfUpdater.update_available <->
       SelfUpdater.update_info result <> None) /\
      (SelfUpdater.status result = SelfUpdater.error <->
       SelfUpdater.remote_version result = None) /\
      (forall fetch_log e,
         fetch SelfUpdater.UPDATE_FEED_URL = (fetch_log, inl e) ->
         SelfUpdater.status result = SelfUpdater.error /\
         SelfUpdater.message result = "Update check failed: " ++ e) /\
      (forall info,
         SelfUpdater.update_info result = Some info ->
         exists fetch_log data,
           fetch SelfUpdater.UPDATE_FEED_URL = (fetch_log, inr data) /\
           SelfUpdater.version info
             = SelfUpdater.field py_str "latest_version" data /\
           SelfUpdater.download_url info
             = SelfUpdater.field py_str "download_url" data /\
           SelfUpdater.version info <> EmptyString /\
           SelfUpdater.download_url info <> EmptyString /\
           SelfUpdater.remote_version result = Some (SelfUpdater.version info) /\
           SelfUpdater._is_remote_newer py_int "1.0.0" (SelfUpdater.version info)
             = Some true)
  end.
Proof.
  unfold SelfUpdater.check_for_updates. rewrite feed_url_is_configured.
  change SelfUpdater.get_version with "1.0.0".
  destruct (fetch SelfUpdater.UPDATE_FEED_URL) as [fetch_log [e|data]].
  - cbn [snd SelfUpdater.current_version SelfUpdater.status
           SelfUpdater.update_info SelfUpdater.remote_version
           SelfUpdater.message].
    refine (conj eq_refl (conj _ (conj _ (conj _ _)))).
    + split; [discriminate | congruence].
    + split; reflexivity.
    + intros l e' [= _ <-]. split; reflexivity.
    + discriminate.
  - cbv zeta.
    destruct (truthy (SelfUpdater.field py_str "latest_version" data)) eqn:Hv;
      cbn [negb orb].
    2:{ cbn [snd SelfUpdater.current_version SelfUpdater.status
               SelfUpdater.update_info SelfUpdater.remote_version
               SelfUpdater.message].
        refine (conj eq_refl (conj _ (conj _ (conj _ _)))).
        - split; [discriminate | congruence].
        - split; reflexivity.
        - discriminate.
        - discriminate. }
    destruct (truthy (SelfUpdater.field py_str "download_url" data)) eqn:Hu;
      cbn [negb].
    2:{ cbn [snd SelfUpdater.current_version SelfUpdater.status
               SelfUpdater.update_info SelfUpdater.remote_version
               SelfUpdater.message].
        refine (conj eq_refl (conj _ (conj _ (conj _ _)))).
        - split; [discriminate | congruence].
        - split; reflexivity.
        - discriminate.
        - discriminate. }
    destruct (SelfUpdater._is_remote_newer py_int "1.0.0"
                (SelfUpdater.field py_str "latest_version" data))
      as [[|]|] eqn:Hnewer;
      cbn [snd SelfUpdater.current_version SelfUpdater.status
             SelfUpdater.update_info SelfUpdater.remote_version
             SelfUpdater.message].
    + refine (conj eq_refl (conj _ (conj _ (conj _ _)))).
      * split; [discriminate | reflexivity].
      * split; discriminate.
      * discriminate.
      * intros info [= <-]. exists fetch_log, data.
        cbn [SelfUpdater.version SelfUpdater.download_url].
        refine (conj eq_refl (conj eq_refl (conj eq_refl (conj _ (conj _ (conj eq_refl Hnewer)))))).
        -- now apply truthy_nonempty.
        -- now apply truthy_nonempty.
    + refine (conj eq_refl (conj _ (conj _ (conj _ _)))).
      * split; [discriminate | congruence].
      * split; discriminate.
      * discriminate.
      * discriminate.
    + exists fetch_log, data. split; [reflexivity | exact Hnewer].
Qed.

(* ===================================================================== *)
(** * The command-line loop *)
(* ===================================================================== *)

Section CliFacts.

Context {W : Type}.

Variable gemini : option (string -> gemini_run).

Lemma choose_actions_registry (request : string) (st : state W) :
  _ACTIONS (snd (choose_actions_for_request gemini request st)) = _ACTIONS st.
Proof.
  unfold choose_actions_for_request.
  destruct (negb (truthy (strip request))); [reflexivity|].
  pose proof (gemini_registry gemini (strip request) st) as Hreg.
  destruct (_gemini_choose_action_ids gemini (strip request) st) as [ids st1].
  cbn [snd] in *.
  destruct (lookup_all _ _); exact Hreg.
Qed.

(** The plan depends on the registry only. *)
Lemma choose_actions_plan_registry (request : string) (s1 s2 : state W) :
  _ACTIONS s1 = _ACTIONS s2 ->
  fst (choose_actions_for_request gemini request s1)
  = fst (choose_actions_for_request gemini request s2).
Proof. intros Ha. rewrite !choose_actions_plan, Ha. reflexivity. Qed.

Lemma run_fallback_spec (action : Action W) (c : @console W) :
  _ACTIONS (program (run_fallback action c)) = _ACTIONS (program c) /\
  stdin (run_fallback action c) = stdin c /\
  world (program (run_fallback action c))
  = snd (func action (world (program c))).
Proof.
  unfold run_fallback, fn. cbv zeta.
  change (world (program (log_to ?r c))) with (world (program c)).
  destruct (func action (world (program c))) as [[result|e] w'];
    refine (conj eq_refl (conj eq_refl eq_refl)).
Qed.

(** What one turn of the loop does to the registry, to the lines still to
    be read and to the machine. *)
Lemma main_turn_spec (c : @console W) :
  let r := main_turn gemini c in
  _ACTIONS (program (snd r)) = _ACTIONS (program c) /\
  (fst r = None -> List.length (stdin (snd r)) < List.length (stdin c)) /\
  (world (program (snd r)) = world (program c) \/
   exists line rest action,
     stdin c = line :: rest /\
     fst (choose_actions_for_request gemini (strip line) (program c)) = [] /\
     interpret_command_keyword (_ACTIONS (program c)) (strip line)
       = Some action /\
     world (program (snd r)) = snd (func action (world (program c))) /\
     (dangerous action = true ->
      exists ans rest', rest = ans :: rest' /\ lower (strip ans) = "y")) /\
  (forall line rest,
     stdin c = line :: rest ->
     existsb (String.eqb (lower (strip line)))
       ["exit"; "quit"; "help"; "commands"] = false ->
     fst (choose_actions_for_request gemini (strip line) (program c)) <> [] ->
     fst r = Some (Uncaught join_type_error) /\
     world (program (snd r)) = world (program c)).
Proof.
  intros r. unfold r, main_turn, input. clear r.
  destruct (stdin c) as [|line rest] eqn:Hin.
  { cbn [fst snd program print stdin].
    refine (conj eq_refl (conj _ (conj (or_introl eq_refl) _)));
      [discriminate | intros l r' Hf; discriminate Hf]. }
  cbv zeta.
  set (c1 := {| stdin := rest; stdout := List.app (stdout c) [nl ++ "> "];
                program := program c |}).
  assert (Hblank : truthy (strip line) = false ->
                   fst (choose_actions_for_request gemini (strip line) (program c))
                   = []).
  { intros Hb. unfold choose_actions_for_request.
    assert (Hs : strip line = EmptyString)
      by (destruct (strip line); [reflexivity | discriminate Hb]).
    rewrite Hs. reflexivity. }
  destruct (truthy (strip line)) eqn:Htr; cbn [negb].
  2:{ cbn [fst snd]. refine (conj eq_refl (conj _ (conj (or_introl eq_refl) _))).
      - intros _. cbn [c1 stdin List.length]. lia.
      - intros l r' [= <- <-] _ Hne. now specialize (Hblank eq_refl). }
  destruct (existsb (String.eqb (lower (strip line))) ["exit"; "quit"]) eqn:Hexit.
  { cbn [fst snd program print].
    refine (conj eq_refl (conj _ (conj (or_introl eq_refl) _)));
      [discriminate|].
    intros l r' [= <- <-] Hcmd _. exfalso.
    cbn [existsb] in Hexit, Hcmd.
    destruct (String.eqb (lower (strip line)) "exit");
      [discriminate Hcmd|].
    destruct (String.eqb (lower (strip line)) "quit");
      [discriminate Hcmd | discriminate Hexit]. }
  destruct (existsb (String.eqb (lower (strip line))) ["help"; "commands"]) eqn:Hhelp.
  { cbn [fst snd program print print_help stdin].
    refine (conj eq_refl (conj _ (conj (or_introl eq_refl) _))).
    - intros _. cbn [c1 stdin List.length]. lia.
    - intros l r' [= <- <-] Hcmd _. exfalso.
      cbn [existsb] in Hhelp, Hcmd.
      destruct (String.eqb (lower (strip line)) "exit"); [discriminate Hcmd|].
      destruct (String.eqb (lower (strip line)) "quit"); [discriminate Hcmd|].
      destruct (String.eqb (lower (strip line)) "help"); [discriminate Hcmd|].
      destruct (String.eqb (lower (strip line)) "commands");
        [discriminate Hcmd | discriminate Hhelp]. }
  set (c2 := log_to (Event ("User input: " ++ strip line)) c1).
  pose proof (choose_actions_registry (strip line) (program c2)) as Hreg.
  pose proof (choose_actions_world gemini (strip line) (program c2)) as Hworld.
  pose proof (choose_actions_plan_registry (strip line) (program c2) (program c)
                eq_refl) as Hplan.
  destruct (choose_actions_for_request gemini (strip line) (program c2))
    as [plan st].
  cbn [fst snd] in Hreg, Hworld, Hplan.
  change (_ACTIONS (program c2)) with (_ACTIONS (program c)) in Hreg.
  change (world (program c2)) with (world (program c)) in Hworld.
  destruct plan as [|a plan].
  2:{ cbn [fst snd program set_program].
      refine (conj Hreg (conj _ (conj (or_introl Hworld) _)));
        [discriminate|].
      intros l r' _ _ _. split; [reflexivity | exact Hworld]. }
  cbn [program set_program]. rewrite Hreg.
  destruct (interpret_command_keyword (_ACTIONS (program c)) (strip line))
    as [action|] eqn:Hkey.
  2:{ cbn [fst snd program set_program log_to print stdin emit _ACTIONS world].
      refine (conj Hreg (conj _ (conj (or_introl Hworld) _))).
      - intros _. cbn [c2 c1 log_to set_program stdin List.length]. lia.
      - intros l r' [= <- <-] _ Hne. now rewrite <- Hplan in Hne. }
  set (c5 := print (description action)
               (print ("[Fallback] Selected: " ++ name action)
                  (set_program st c2))).
  assert (H5 : _ACTIONS (program c5) = _ACTIONS (program c) /\
               world (program c5) = world (program c) /\ stdin c5 = rest)
    by (refine (conj Hreg (conj Hworld eq_refl))).
  destruct H5 as (H5a & H5w & H5i). clearbody c5.
  assert (Hno : forall l r', line :: rest = l :: r' ->
            fst (choose_actions_for_request gemini (strip l) (program c)) <> [] ->
            False).
  { intros l r' [= <- <-] Hne. now rewrite <- Hplan in Hne. }
  destruct (dangerous action) eqn:Hd.
  - unfold ask_confirmation, input. cbv zeta.
    cbn [print stdin]. rewrite H5i.
    destruct rest as [|ans rest'].
    + cbn [fst snd program print].
      refine (conj H5a (conj _ (conj (or_introl H5w) _))); [discriminate|].
      intros l r' Hl _ Hne. destruct (Hno l r' Hl Hne).
    + destruct (String.eqb (lower (strip ans)) "y") eqn:Hy.
      * cbn [fst snd].
        match goal with
        | |- context [run_fallback action ?c6] =>
            destruct (run_fallback_spec action c6) as (Ra & Ri & Rw);
            change (world (program c6)) with (world (program c5)) in Rw;
            change (_ACTIONS (program c6)) with (_ACTIONS (program c5)) in Ra;
            change (stdin c6) with rest' in Ri
        end.
        rewrite Ra, Ri, Rw, H5w.
        refine (conj H5a (conj _ (conj (or_intror _) _))).
        -- intros _. cbn [List.length]. lia.
        -- exists line, (ans :: rest'), action.
           refine (conj eq_refl (conj (eq_sym Hplan) (conj Hkey (conj eq_refl _)))).
           intros _. exists ans, rest'. split; [reflexivity|].
           now apply String.eqb_eq.
        -- intros l r' Hl _ Hne. destruct (Hno l r' Hl Hne).
      * cbn [fst snd program set_program log_to print stdin emit _ACTIONS world].
        refine (conj H5a (conj _ (conj (or_introl H5w) _))).
        -- intros _. cbn [List.length]. lia.
        -- intros l r' Hl _ Hne. destruct (Hno l r' Hl Hne).
  - cbn [fst snd].
    destruct (run_fallback_spec action c5) as (Ra & Ri & Rw).
    rewrite Ra, Ri, Rw, H5w, H5i.
    refine (conj H5a (conj _ (conj (or_intror _) _))).
    + intros _. cbn [List.length]. lia.
    + exists line, rest, action.
      refine (conj eq_refl (conj (eq_sym Hplan) (conj Hkey (conj eq_refl _)))).
      intros Hf. congruence.
    + intros l r' Hl _ Hne. destruct (Hno l r' Hl Hne).
Qed.

End CliFacts.

Section CliSession.

Context {W : Type}.

Variable gemini : option (string -> gemini_run).

(** With the registry of the program as shipped, the loop never calls a
    handler, and it is left before the typed lines run out. *)
Lemma main_loop_calls_nothing (turns : nat) (c : @console W) :
  Forall (fun aid => dict_get aid (_ACTIONS (program c)) = None) cli_only_ids ->
  Forall (fun aid => dict_mem aid (_ACTIONS (program c)) = true) cli_privacy_ids ->
  world (program (snd (main_loop gemini turns c))) = world (program c) /\
  (List.length (stdin c) < turns -> fst (main_loop gemini turns c) <> None).
Proof.
  revert c. induction turns as [|turns IH]; intros c Habsent Hpresent.
  - split; [reflexivity | intros Hlt; inversion Hlt].
  - cbn [main_loop].
    destruct (main_turn_spec gemini c) as (Hreg & Hlen & Hworld & _).
    assert (Hsame : world (program (snd (main_turn gemini c)))
                    = world (program c)).
    { destruct Hworld as [Hw|(line & rest & action & _ & Hplan & Hkey & _)];
        [exact Hw|].
      rewrite (router_empty_keyword_none gemini (strip line) (program c)
                 Habsent Hpresent Hplan) in Hkey.
      discriminate Hkey. }
    destruct (main_turn gemini c) as [[e|] c']; cbn [fst snd] in *.
    + split; [exact Hsame | discriminate].
    + rewrite <- Hreg in Habsent, Hpresent.
      destruct (IH c' Habsent Hpresent) as [IHw IHt].
      split; [now rewrite IHw|].
      intros Hlt. apply IHt. specialize (Hlen eq_refl). lia.
Qed.

End CliSession.

(** X20.  One turn of the command-line loop calls at most one handler,
    and only on the keyword fallback: the router returned no plan for the
    typed line, [interpret_command_keyword] returned the action, and for a
    dangerous action the next typed line was y (in any case, with blanks
    around).  When the router does return a plan for a line that is not
    exit, quit, help or commands, the turn ends on the [TypeError] of
    joining [Action] objects before any action of the plan is called. *)
Theorem command_line_turn_calls_only_consented_fallback (W : Type)
    (gemini : option (string -> gemini_run)) (c : @console W) :
  let r := main_turn gemini c in
  (world (program (snd r)) = world (program c) \/
   exists line rest action,
     stdin c = line :: rest /\
     fst (choose_actions_for_request gemini (strip line) (program c)) = [] /\
     interpret_command_keyword (_ACTIONS (program c)) (strip line)
       = Some action /\
     world (program (snd r)) = snd (func action (world (program c))) /\
     (dangerous action = true ->
      exists ans rest', rest = ans :: rest' /\ lower (strip ans) = "y")) /\
  (forall line rest,
     stdin c = line :: rest ->
     existsb (String.eqb (lower (strip line)))
       ["exit"; "quit"; "help"; "commands"] = false ->
     fst (choose_actions_for_request gemini (strip line) (program c)) <> [] ->
     fst r = Some (Uncaught join_type_error) /\
     world (program (snd r)) = world (program c)).
Proof.
  intros r. destruct (main_turn_spec gemini c) as (_ & _ & Hworld & Herr).
  split; [exact Hworld | exact Herr].
Qed.

(** X21.  In the program as shipped, a command-line session never calls
    a handler: whatever lines are typed and whatever the remote strategy
    answers, [main] is left (by exit or quit, at the end of the input, or
    on an uncaught exception) with the machine as it was at start-up. *)
Theorem shipped_command_line_calls_no_handler (W : Type)
    (import_system_tools import_privacy_tools : string + @tools_module W)
    (e : string) (w : W) (gemini : option (string -> gemini_run))
    (typed printed : list string) :
  let c :=
    {| stdin := typed; stdout := printed;
       program := shipped_state import_system_tools import_privacy_tools e w |} in
  fst (main gemini c) <> None /\
  world (program (snd (main gemini c))) = world (program c).
Proof.
  intros c. unfold main. cbv zeta.
  match goal with
  | |- fst (main_loop gemini ?n ?c3) <> None /\ _ =>
      destruct (@main_loop_calls_nothing W gemini n c3) as [Hw Ht]
  end.
  - apply shipped_cli_ids_absent.
  - apply shipped_privacy_ids_present.
  - split; [apply Ht; apply Nat.lt_succ_diag_r | exact Hw].
Qed.

(* ===================================================================== *)
(** * Start-up without the tool modules *)
(* ===================================================================== *)

Section DegradedStartup.

Context {W : Type}.

Variable import_system_tools : string + @tools_module W.
Variable import_privacy_tools : string + @tools_module W.
Variable e : string.
Variable w0 : W.

(** The warnings of the guarded imports are still in the log after
    start-up. *)
Lemma startup_keeps_import_warnings (rec : log_record) :
  In rec
    (log (warn_unavailable "privacy_tools module not available: %s"
            import_privacy_tools
            (warn_unavailable "system_tools module not available: %s"
               import_system_tools (empty_state w0)))) ->
  In rec (log (shipped_state import_system_tools import_privacy_tools e w0)).
Proof.
  intros Hin. unfold shipped_state, module_init.
  apply extends_load_plugins. unfold _register_builtin_actions.
  now apply extends_registrations.
Qed.

(** The actions listed by a state whose registry is the one of the
    built-in registrations. *)
Lemma builtin_actions_listed (st : state W) (a : Action W) :
  _ACTIONS st =
    map (fun r => (reg_id r, action_of r))
      (builtin_registrations import_system_tools import_privacy_tools) ->
  In a (list_actions st) ->
  In a (map (@action_of W)
          (builtin_registrations import_system_tools import_privacy_tools)).
Proof.
  intros Hreg Hin. apply In_list_actions in Hin. rewrite Hreg in Hin.
  unfold dict_values in Hin. rewrite map_map in Hin. exact Hin.
Qed.

End DegradedStartup.

(** X22.  Start-up survives missing tool modules, and the failure shows
    when an action is run.  Whatever the imports of [system_tools] and
    [privacy_tools] do, the sixteen built-in actions are registered.  When
    the import of [system_tools] fails, the warning is logged and no action
    outside the privacy group touches the machine: each raises its
    not-available error, except the two aggregates [cleanup_recommended]
    and [health_full], which skip every step and return their completion
    text.  When the import of [privacy_tools] fails, the warning is logged
    and every privacy action raises its not-available error without
    touching the machine. *)
Theorem unavailable_tools_fail_at_run_time (W : Type)
    (import_system_tools import_privacy_tools : string + @tools_module W)
    (e : string) (w0 : W) :
  let st := shipped_state import_system_tools import_privacy_tools e w0 in
  List.length (list_actions st) = 16 /\
  (forall e1, import_system_tools = inl e1 ->
     In (Logged WARNING "system_tools module not available: %s" [e1]) (log st) /\
     forall a w, In a (list_actions st) -> group a <> "privacy" ->
       snd (func a w) = w /\
       if String.eqb (id a) "cleanup_recommended" || String.eqb (id a) "health_full"
       then exists text, fst (func a w) = Returned (Some text) /\
                         contains "completed" text = true
       else exists text, fst (func a w) = Raised text /\
                         contains "not available" text = true) /\
  (forall e2, import_privacy_tools = inl e2 ->
     In (Logged WARNING "privacy_tools module not available: %s" [e2]) (log st) /\
     forall a w, In a (list_actions st) -> group a = "privacy" ->
       snd (func a w) = w /\
       exists text, fst (func a w) = Raised text /\
                    contains "not available" text = true).
Proof.
  intros st. refine (conj _ (conj _ _)).
  - unfold st.
    generalize (shipped_registry import_system_tools import_privacy_tools e w0).
    generalize (shipped_state import_system_tools import_privacy_tools e w0).
    intros s Hreg. rewrite list_actions_length, Hreg.
    unfold dict_values. rewrite !length_map. reflexivity.
  - intros e1 ->. split.
    + apply startup_keeps_import_warnings.
      destruct import_privacy_tools as [e2|m]; cbn [warn_unavailable].
      * apply in_or_app. left. apply In_log_emit.
      * apply In_log_emit.
    + intros a w Hin Hgroup.
      apply (@builtin_actions_listed W _ _ _ a
               (shipped_registry (inl e1) import_privacy_tools e w0)) in Hin.
      unfold builtin_registrations in Hin. cbn [map] in Hin.
      repeat (destruct Hin as [<-|Hin];
              [first [ exfalso; apply Hgroup; reflexivity
                     | split; [reflexivity|];
                       eexists; split; reflexivity ]|]).
      destruct Hin.
  - intros e2 ->. split.
    + apply startup_keeps_import_warnings. cbn [warn_unavailable].
      apply In_log_emit.
    + intros a w Hin Hgroup.
      apply (@builtin_actions_listed W _ _ _ a
               (shipped_registry import_system_tools (inl e2) e w0)) in Hin.
      unfold builtin_registrations in Hin. cbn [map] in Hin.
      repeat (destruct Hin as [<-|Hin];
              [first [ discriminate Hgroup
                     | split; [reflexivity|];
                       eexists; split; reflexivity ]|]).
      destruct Hin.
Qed.

(* ===================================================================== *)
(** * The fixtures satisfy the assumptions *)
(* ===================================================================== *)

Section Fixtures.

Import PrivacyTools.

Lemma dict_get_filter_out (r : sim_registry) (k : backup_key) :
  dict_get k (filter (fun kv => negb (backup_key_eqb (fst kv) k)) r) = None.
Proof.
  induction r as [|[k' v] r IH]; [reflexivity|].
  cbn [filter fst]. destruct (key_eqb_spec k' k) as [->|Hne].
  - change (backup_key_eqb k k) with (key_eqb k k).
    rewrite key_eqb_refl. exact IH.
  - change (backup_key_eqb k' k) with (key_eqb k' k).
    rewrite (key_eqb_neq Hne). cbn [negb dict_get].
    now rewrite (key_eqb_neq Hne).
Qed.

Lemma dict_get_filter_other (r : sim_registry) (k k0 : backup_key) :
  k0 <> k ->
  dict_get k0 (filter (fun kv => negb (backup_key_eqb (fst kv) k)) r)
  = dict_get k0 r.
Proof.
  intros Hne. induction r as [|[k' v] r IH]; [reflexivity|].
  cbn [filter fst]. change (backup_key_eqb k' k) with (key_eqb k' k).
  destruct (key_eqb_spec k' k) as [->|Hne'].
  - cbn [negb dict_get]. rewrite key_eqb_neq; [exact IH | congruence].
  - cbn [negb dict_get]. now rewrite IH.
Qed.

(** The simulated registry behaves like a map of DWORD values. *)
Lemma sim_registry_laws (e : string) :
  registry_laws (fun (r : sim_registry) k => dict_get k r)
    sim_query (sim_set e) sim_delete.
Proof.
  constructor.
  - intros r rt p n. reflexivity.
  - intros r rt p n ty v. unfold sim_set.
    destruct (Z.eqb ty REG_DWORD); cbn [fst snd].
    + split; [apply dict_get_set_eq|].
      intros k Hk. apply dict_get_set_ne. congruence.
    + reflexivity.
  - intros r rt p n v. reflexivity.
  - intros r rt p n. unfold sim_delete, dict_mem. cbv beta.
    change (@dict_get backup_key Z _ (rt, p, n) r)
      with (@dict_get (Z * string * string) Z _ (rt, p, n) r).
    destruct (@dict_get (Z * string * string) Z _ (rt, p, n) r) eqn:Hget;
      cbn [fst snd].
    + refine (conj eq_refl (conj _ _)).
      * apply dict_get_filter_out.
      * intros k Hk. now apply dict_get_filter_other.
    + reflexivity.
Qed.

Lemma sim_int_reads_decimals : SelfUpdater.int_reads_decimals SelfUpdater.sim_int.
Proof.
  intros n _. unfold SelfUpdater.sim_int.
  destruct (decimal_as_uint n) as [-> _].
  rewrite NilEmpty.usu. cbn [option_map].
  now rewrite DecimalN.Unsigned.of_to.
Qed.

End Fixtures.

(* ===================================================================== *)
(** * Examples *)
(* ===================================================================== *)

(** Registering a new id on the catalog as shipped leaves the lookup of
    [network_reset] alone and logs the debug line only. *)
Lemma register_action_frame_witness :
  "network_reset" <> "disk_defrag" /\
  dict_mem "disk_defrag" (_ACTIONS recording_state) = false /\
  let result :=
    register_action "disk_defrag" "Defragment" "Defragment the disk." "tools"
      (fun w : recorder => (Returned None, w)) false recording_state in
  get_action_by_id "network_reset" (snd result)
    = get_action_by_id "network_reset" recording_state /\
  log (snd result) =
    (log recording_state
     ++ [Logged DEBUG "Registered action '%s' (%s)" ["disk_defrag"; "Defragment"]])%list.
Proof.
  split; [discriminate|]. split; [vm_compute; reflexivity|]. intros result.
  destruct (@register_action_frame recorder recording_state "disk_defrag"
              "Defragment" "Defragment the disk." "tools"
              (fun w : recorder => (Returned None, w)) false)
    as (_ & Hother & _ & Hlog).
  split; [apply Hother; discriminate | apply Hlog; vm_compute; reflexivity].
Defined.

(** The lookup of [network_reset] after start-up. *)
Lemma startup_lookup_returns_own_id_witness :
  exists a, get_action_by_id "network_reset" recording_state = Some a /\
            id a = "network_reset".
Proof.
  destruct (get_action_by_id "network_reset" recording_state) as [a|] eqn:Hget;
    [|vm_compute in Hget; discriminate Hget].
  exists a. split; [reflexivity|].
  exact (proj1 (@startup_lookup_returns_own_id recorder
                  (inr recording_tools) (inr recording_tools) shipped_package
                  shipped_import_package
                  (shipped_import_module
                     "register() got an unexpected keyword argument 'registry'")
                  []) "network_reset" a Hget).
Defined.

(** A request of three blanks. *)
Lemma blank_request_resolves_to_nothing_witness :
  all_space "   " = true /\
  choose_actions_for_request duplicating_gemini "   " recording_state
    = ([], recording_state).
Proof.
  split; [reflexivity|].
  exact (proj1 (@blank_request_resolves_to_nothing recorder duplicating_gemini
                  "   " recording_state eq_refl)).
Defined.

(** The remote strategy proposes [network_reset] twice: the plan has two
    actions; with no remote strategy the hypothesis of the first part holds. *)
Lemma remote_ids_take_precedence_witness :
  remote_ids duplicating_gemini (_ACTIONS recording_state) (strip "fix my wifi")
    <> [] /\
  truthy (strip "fix my wifi") = true /\
  List.length (fst (choose_actions_for_request duplicating_gemini "fix my wifi"
                      recording_state)) = 2 /\
  remote_ids None (_ACTIONS recording_state) (strip "fix my wifi") = [] /\
  fst (choose_actions_for_request None "fix my wifi" recording_state)
    = fst (choose_actions_for_request None "fix my wifi" recording_state).
Proof.
  assert (Hne : remote_ids duplicating_gemini (_ACTIONS recording_state)
                  (strip "fix my wifi") <> [])
    by (vm_compute; discriminate).
  split; [exact Hne|]. split; [reflexivity|].
  destruct (@remote_ids_take_precedence recorder duplicating_gemini
              "fix my wifi" recording_state) as [_ Hremote].
  destruct (Hremote Hne eq_refl) as (_ & Hlen & _).
  split; [rewrite Hlen; vm_compute; reflexivity|].
  split; [reflexivity|].
  exact (proj1 (@remote_ids_take_precedence recorder None "fix my wifi"
                  recording_state) eq_refl).
Defined.

(** A request naming two things, on the catalog as shipped. *)
Lemma keyword_plan_has_no_duplicates_witness :
  catalog_ok (_ACTIONS recording_state) /\
  NoDup (map (@id recorder)
           (fst (choose_actions_for_request None
                   "clean temp files and reset the network" recording_state))).
Proof.
  split; [apply shipped_catalog_ok|].
  exact (proj1 (@keyword_plan_has_no_duplicates recorder
                  "clean temp files and reset the network" recording_state
                  (shipped_catalog_ok _ _ _ _))).
Defined.

(** The same request in capitals. *)
Lemma keyword_strategy_ignores_case_witness :
  lower "RESET Network" = lower "reset network" /\
  fst (choose_actions_for_request None "RESET Network" recording_state)
  = fst (choose_actions_for_request None "reset network" recording_state).
Proof.
  split; [vm_compute; reflexivity|].
  apply (@keyword_strategy_ignores_case recorder "RESET Network" "reset network"
           recording_state).
  vm_compute. reflexivity.
Defined.

(** The recommended profile on an empty simulated registry. *)
Lemma apply_settings_backs_up_every_key_witness :
  In advertising_id PrivacyTools._RECOMMENDED_SETTINGS /\
  dict_mem (PrivacyTools.setting_key advertising_id)
    (PrivacyTools._BACKUP
       (snd (PrivacyTools._apply_settings PrivacyTools.sim_query
               (PrivacyTools.sim_set "TypeError")
               PrivacyTools._RECOMMENDED_SETTINGS (PrivacyTools.sim_state []))))
  = true.
Proof.
  assert (Hin : In advertising_id PrivacyTools._RECOMMENDED_SETTINGS)
    by (left; reflexivity).
  split; [exact Hin|].
  exact (proj1 (@apply_settings_backs_up_every_key PrivacyTools.sim_registry
                  PrivacyTools.sim_query (PrivacyTools.sim_set "TypeError")
                  PrivacyTools._RECOMMENDED_SETTINGS (PrivacyTools.sim_state []))
           advertising_id Hin).
Defined.

(** Both profiles and a restore on a simulated registry where the
    advertising id is enabled: it is enabled again at the end. *)
Lemma restore_undoes_the_session_witness :
  let r0 : PrivacyTools.sim_registry :=
    [(PrivacyTools.setting_key advertising_id, 1%Z)] in
  registry_laws (fun (r : PrivacyTools.sim_registry) k => dict_get k r)
    PrivacyTools.sim_query (PrivacyTools.sim_set "TypeError")
    PrivacyTools.sim_delete /\
  PrivacyTools._BACKUP (PrivacyTools.sim_state r0) = [] /\
  dict_get (PrivacyTools.setting_key advertising_id)
    (PrivacyTools.registry
       (PrivacyTools.run_calls PrivacyTools.sim_query
          (PrivacyTools.sim_set "TypeError") PrivacyTools.sim_delete
          ([PrivacyTools.ApplyRecommended; PrivacyTools.ApplyStrict]
           ++ [PrivacyTools.RestoreDefaults])
          (PrivacyTools.sim_state r0)))
  = Some 1%Z.
Proof.
  intros r0.
  split; [apply sim_registry_laws|]. split; [reflexivity|].
  rewrite (@restore_undoes_the_session PrivacyTools.sim_registry
             (fun (r : PrivacyTools.sim_registry) k => dict_get k r)
             PrivacyTools.sim_query (PrivacyTools.sim_set "TypeError")
             PrivacyTools.sim_delete
             [PrivacyTools.ApplyRecommended; PrivacyTools.ApplyStrict]
             (PrivacyTools.sim_state r0)
             (sim_registry_laws "TypeError") eq_refl
             (PrivacyTools.setting_key advertising_id)).
  reflexivity.
Defined.

(** A greeting: the router finds nothing, and neither does the keyword
    interpreter. *)
Lemma cli_keyword_fallback_finds_nothing_witness :
  fst (choose_actions_for_request None "hello there" recording_state) = [] /\
  interpret_command_keyword (_ACTIONS recording_state) "hello there" = None.
Proof.
  assert (Hempty : fst (choose_actions_for_request None "hello there"
                          recording_state) = [])
    by (vm_compute; reflexivity).
  split; [exact Hempty|].
  exact (@cli_keyword_fallback_finds_nothing recorder
           (inr recording_tools) (inr recording_tools)
           "register() got an unexpected keyword argument 'registry'" []
           None "hello there" Hempty).
Defined.


(** The button of the dangerous action [network_reset], accepted. *)
Lemma run_action_by_id_respects_confirmation_witness :
  exists a rest,
    get_action_by_id "network_reset" recording_state = Some a /\
    dangerous a = true /\
    dialogs (_run_action_by_id accepts_all "network_reset"
               (fresh_gui recording_state))
    = ([] ++ AskYesNo "Confirm Action"
               ("This action is marked as dangerous and may affect system stability."
                ++ nl ++ nl ++ "Run '" ++ name a ++ "'?") :: rest)%list.
Proof.
  pose proof (@run_action_by_id_respects_confirmation recorder accepts_all
                "network_reset" (fresh_gui recording_state)) as H.
  cbv zeta in H.
  change (app (fresh_gui recording_state)) with recording_state in H.
  destruct (get_action_by_id "network_reset" recording_state) as [a|] eqn:Hget;
    [|vm_compute in Hget; discriminate Hget].
  assert (Hd : dangerous a = true)
    by (vm_compute in Hget; injection Hget as <-; reflexivity).
  rewrite Hd in H. change (accepts_all _ _) with true in H.
  cbn [andb negb] in H. destruct H as (_ & Hask & _).
  destruct (Hask eq_refl) as [rest Hrest].
  exists a, rest. split; [reflexivity|]. split; [exact Hd | exact Hrest].
Defined.


(** No uptime, and an uptime of one day, one hour, one minute and one
    second. *)
Lemma format_uptime_accounts_for_the_seconds_witness :
  (0 <= 0)%Z /\ _format_uptime 0 = "Unknown" /\
  (0 < 90061)%Z /\ _format_uptime 90061 <> EmptyString.
Proof.
  split; [lia|].
  split; [exact (proj1 (format_uptime_accounts_for_the_seconds 0) ltac:(lia))|].
  split; [lia|].
  exact (proj1 (proj2 (format_uptime_accounts_for_the_seconds 90061) ltac:(lia))).
Defined.

(** A pre-release tag on the running version. *)
Lemma parse_version_ignores_tag_witness :
  SelfUpdater.isdigit "-" = false /\
  SelfUpdater.no_dot "-beta1" = true /\
  SelfUpdater._parse_version SelfUpdater.sim_int ("1.0.0" ++ "-beta1")
    = SelfUpdater._parse_version SelfUpdater.sim_int "1.0.0".
Proof.
  split; [reflexivity|]. split; [reflexivity|].
  exact (proj1 (@parse_version_ignores_tag SelfUpdater.sim_int "1.0.0" "beta1"
                  "1.0.0" "-"%char eq_refl eq_refl)).
Defined.

(** Three versions in ascending order. *)
Lemma is_remote_newer_is_a_strict_order_witness :
  SelfUpdater._is_remote_newer SelfUpdater.sim_int "1.0.0" "1.2.0" = Some true /\
  SelfUpdater._is_remote_newer SelfUpdater.sim_int "1.2.0" "1.10" = Some true /\
  SelfUpdater._is_remote_newer SelfUpdater.sim_int "1.0.0" "1.10" = Some true /\
  SelfUpdater._is_remote_newer SelfUpdater.sim_int "1.2.0" "1.0.0" = Some false.
Proof.
  assert (H1 : SelfUpdater._is_remote_newer SelfUpdater.sim_int "1.0.0" "1.2.0"
               = Some true) by (vm_compute; reflexivity).
  assert (H2 : SelfUpdater._is_remote_newer SelfUpdater.sim_int "1.2.0" "1.10"
               = Some true) by (vm_compute; reflexivity).
  destruct (is_remote_newer_is_a_strict_order SelfUpdater.sim_int
              "1.0.0" "1.2.0" "1.10") as (_ & Hasym & Htrans).
  split; [exact H1|]. split; [exact H2|].
  split; [exact (Htrans H1 H2) | exact (Hasym H1)].
Defined.

(** Version 1.10.0 is newer than 1.9.0, and 1.9.0.0 is newer than 1.9.0. *)
Lemma dotted_versions_compare_by_number_witness :
  SelfUpdater.int_reads_decimals SelfUpdater.sim_int /\
  Forall (fun n => String.length (SelfUpdater.decimal n) <= 4300)
    (1 :: 1 :: [9; 0] ++ [10; 0] ++ [0])%N /\
  [0%N] <> [] /\
  SelfUpdater._is_remote_newer SelfUpdater.sim_int "1.9.0" "1.10.0" = Some true /\
  SelfUpdater._is_remote_newer SelfUpdater.sim_int "1.9.0" "1.9.0.0" = Some true.
Proof.
  assert (Hshort : Forall (fun n => String.length (SelfUpdater.decimal n) <= 4300)
                     (1 :: 1 :: [9; 0] ++ [10; 0] ++ [0])%N)
    by (repeat (apply Forall_cons; [apply Nat.leb_le; vm_compute; reflexivity|]);
        apply Forall_nil).
  split; [exact sim_int_reads_decimals|]. split; [exact Hshort|].
  split; [discriminate|].
  destruct (@dotted_versions_compare_by_number SelfUpdater.sim_int 1%N 1%N
              [9; 0]%N [10; 0]%N [0%N] sim_int_reads_decimals Hshort)
    as (_ & Hcmp & Hext).
  split; [exact Hcmp | exact (Hext ltac:(discriminate))].
Defined.

(** An update check when the feed cannot be reached. *)
Lemma update_check_result_is_consistent_witness :
  unreachable_feed SelfUpdater.UPDATE_FEED_URL
    = ([Logged INFO "Fetching update feed from: %s" [SelfUpdater.UPDATE_FEED_URL]],
       inl "Failed to reach update server: timed out") /\
  exists result,
    snd (SelfUpdater.check_for_updates SelfUpdater.sim_int (fun _ => "None")
           unreachable_feed) = Some result /\
    SelfUpdater.status result = SelfUpdater.error /\
    SelfUpdater.message result
      = "Update check failed: Failed to reach update server: timed out".
Proof.
  split; [reflexivity|].
  pose proof (update_check_result_is_consistent SelfUpdater.sim_int
                (fun _ => "None") unreachable_feed) as H.
  destruct (snd (SelfUpdater.check_for_updates SelfUpdater.sim_int
                   (fun _ => "None") unreachable_feed)) as [result|] eqn:E.
  - exists result. split; [reflexivity|].
    destruct H as (_ & _ & _ & Hfail & _).
    exact (Hfail _ _ eq_refl).
  - exfalso. destruct H as (l & data & Hfetch & _). discriminate Hfetch.
Defined.

(** Typing a request the router understands ends the turn on the
    [TypeError]; the machine has recorded no call. *)
Lemma command_line_turn_calls_only_consented_fallback_witness :
  let c := recording_console ["reset network"] in
  stdin c = ["reset network"] /\
  existsb (String.eqb (lower (strip "reset network")))
    ["exit"; "quit"; "help"; "commands"] = false /\
  fst (choose_actions_for_request None (strip "reset network") (program c)) <> [] /\
  fst (main_turn None c) = Some (Uncaught join_type_error) /\
  world (program (snd (main_turn None c))) = [].
Proof.
  intros c.
  assert (Hcmd : existsb (String.eqb (lower (strip "reset network")))
                   ["exit"; "quit"; "help"; "commands"] = false)
    by (vm_compute; reflexivity).
  assert (Hplan : fst (choose_actions_for_request None (strip "reset network")
                         (program c)) <> [])
    by (vm_compute; discriminate).
  split; [reflexivity|]. split; [exact Hcmd|]. split; [exact Hplan|].
  destruct (@command_line_turn_calls_only_consented_fallback recorder None c)
    as [_ Herr].
  destruct (Herr "reset network" [] eq_refl Hcmd Hplan) as [Hexit Hworld].
  split; [exact Hexit | rewrite Hworld; vm_compute; reflexivity].
Defined.

(** The network group of the catalog as shipped holds [network_reset]. *)
Lemma get_actions_by_group_exact_witness :
  exists a,
    get_action_by_id "network_reset" recording_state = Some a /\
    In a (dict_values (_ACTIONS recording_state)) /\ group a = "network" /\
    In a (get_actions_by_group "network" recording_state).
Proof.
  destruct (get_action_by_id "network_reset" recording_state) as [a|] eqn:Hget;
    [|vm_compute in Hget; discriminate Hget].
  assert (Hin : In a (dict_values (_ACTIONS recording_state))).
  { exact (in_map snd (_ACTIONS recording_state) ("network_reset", a)
             (@dict_get_In _ _ _ _ (_ACTIONS recording_state) "network_reset" a
                Hget)). }
  assert (Hgroup : group a = "network")
    by (vm_compute in Hget; injection Hget as <-; reflexivity).
  exists a. split; [reflexivity|]. split; [exact Hin|]. split; [exact Hgroup|].
  exact (proj2 (proj1 (proj2 (@get_actions_by_group_exact recorder
                                 recording_state "network")) a)
           (conj Hin Hgroup)).
Defined.

(** A session of three lines on the program as shipped: a privacy request,
    a greeting and exit. *)
Lemma shipped_command_line_calls_no_handler_witness :
  let c :=
    {| stdin := ["tighten my privacy"; "hello there"; "exit"]; stdout := [];
       program := recording_state |} in
  fst (main None c) <> None /\ world (program (snd (main None c))) = [].
Proof.
  intros c.
  destruct (@shipped_command_line_calls_no_handler recorder
              (inr recording_tools) (inr recording_tools)
              "register() got an unexpected keyword argument 'registry'" []
              None ["tighten my privacy"; "hello there"; "exit"] [])
    as [Hleft Hworld].
  split; [exact Hleft|]. refine (eq_trans Hworld _).
  vm_compute. reflexivity.
Defined.

(** Without [system_tools], [network_reset] is registered and raises when
    it is run; the machine keeps its history. *)
Lemma unavailable_tools_fail_at_run_time_witness :
  exists a text,
    get_action_by_id "network_reset" toolless_state = Some a /\
    In a (list_actions toolless_state) /\ group a <> "privacy" /\
    snd (func a ["earlier call"]) = ["earlier call"] /\
    fst (func a ["earlier call"]) = Raised text.
Proof.
  destruct (get_action_by_id "network_reset" toolless_state) as [a|] eqn:Hget;
    [|vm_compute in Hget; discriminate Hget].
  assert (Hin : In a (list_actions toolless_state)).
  { refine (proj2 (In_list_actions toolless_state a) _).
    exact (in_map snd (_ACTIONS toolless_state) ("network_reset", a)
             (@dict_get_In _ _ _ _ (_ACTIONS toolless_state) "network_reset" a
                Hget)). }
  pose proof Hget as Ha. vm_compute in Ha. injection Ha as Ha.
  assert (Hgroup : group a <> "privacy") by (rewrite <- Ha; discriminate).
  destruct (@unavailable_tools_fail_at_run_time recorder
              (inl "No module named 'ai_system_utility.core.system_tools'")
              (inr recording_tools)
              "register() got an unexpected keyword argument 'registry'" [])
    as (_ & Hsys & _).
  destruct (Hsys _ eq_refl) as [_ Hact].
  destruct (Hact a ["earlier call"] Hin Hgroup) as [Hworld Hout].
  assert (Hid : String.eqb (id a) "cleanup_recommended"
                || String.eqb (id a) "health_full" = false)
    by (rewrite <- Ha; reflexivity).
  rewrite Hid in Hout. destruct Hout as (text & Hraised & _).
  exists a, text.
  split; [reflexivity|]. split; [exact Hin|]. split; [exact Hgroup|].
  split; [exact Hworld | exact Hraised].
Defined.
